(** * seismiqb: surfaces, crop grids and fault labeling

  A shallow embedding of the parts of [seismiqb] that the specification
  talks about: the dual storage of a [Horizon] (points and depth matrix),
  the crop-location generators of [grids.py] and the chunked labeling of
  [Fault.from_mask].  NumPy arrays are lists, [int32] values are integers
  with the wrap-around of the cast written out, Python exceptions are the
  left summand of a result type. *)

From stdpp Require Import base list strings sorting.
From Stdlib Require Import ZArith Lia.

Local Open Scope Z_scope.

(** ** Exceptions and results *)

Inductive exn : Type :=
| ValueError (msg : string)
| TypeError (msg : string)
| IndexError
| AttributeError (msg : string)
| ZeroDivisionError
| UnboundLocalError
| RecursionError.

Inductive result (A : Type) : Type :=
| Ok (a : A)
| Raise (e : exn).
Arguments Ok {A} a.
Arguments Raise {A} e.

Definition rbind {A B} (r : result A) (k : A -> result B) : result B :=
match r with
| Ok a => k a
| Raise e => Raise e
end.

Notation "'let*' x ':=' r 'in' k" := (rbind r (fun x => k))
(at level 10, x name, r at level 100, k at level 200).

Definition is_ok {A} (r : result A) : bool :=
match r with Ok _ => true | Raise _ => false end.

(** ** NumPy fragments *)

Module Numpy.

(** [astype(np.int32)] on an integer: two's complement wrap-around. *)
Definition int32 (z : Z) : Z := (z + 2 ^ 31) mod 2 ^ 32 - 2 ^ 31.

Definition fits_int32 (z : Z) : Prop := - 2 ^ 31 <= z < 2 ^ 31.

Abbreviation matrix A := (list (list A)) (only parsing).

(** [np.full((n, m), v)]; a negative dimension is a [ValueError]. *)
Definition full {A} (n m : Z) (v : A) : result (matrix A) :=
  if (n <? 0) || (m <? 0)
  then Raise (ValueError "negative dimensions are not allowed")
  else Ok (replicate (Z.to_nat n) (replicate (Z.to_nat m) v)).

(** An integer index into an axis of length [len]: negative indices count
    from the end, anything else out of range is an [IndexError]. *)
Definition norm_index (len : nat) (i : Z) : option nat :=
  if (0 <=? i) && (i <? Z.of_nat len) then Some (Z.to_nat i)
  else if (- Z.of_nat len <=? i) && (i <? 0) then Some (Z.to_nat (i + Z.of_nat len))
  else None.

(** [m[r, c] = v] for integer [r], [c]. *)
Definition setitem2 {A} (m : matrix A) (r c : Z) (v : A) : result (matrix A) :=
  match norm_index (length m) r with
  | None => Raise IndexError
  | Some i =>
      match m !! i with
      | None => Raise IndexError
      | Some row =>
          match norm_index (length row) c with
          | None => Raise IndexError
          | Some j => Ok (<[i := <[j := v]> row]> m)
          end
      end
  end.

Definition get2 {A} (m : matrix A) (i j : nat) : option A :=
  row ← m !! i; row !! j.

(** All rows of a matrix have the same length [k]. *)
Definition rect {A} (k : nat) (m : matrix A) : Prop :=
  Forall (fun row => length row = k) m.

(** An elementwise operation on a two-dimensional array. *)
Definition mmap {A B} (g : A -> B) (m : matrix A) : matrix B :=
  (fun row : list A => g <$> row) <$> m.

(** The shape of a two-dimensional array kept as a list of rows. *)
Definition nrows {A} (m : matrix A) : Z := Z.of_nat (length m).
Definition ncols {A} (m : matrix A) : Z :=
  match m with
  | [] => 0
  | row :: _ => Z.of_nat (length row)
  end.

(** [m[r, c]] for integer [r], [c]. *)
Definition getitem2 {A} (m : matrix A) (r c : Z) : result A :=
  match norm_index (length m) r with
  | None => Raise IndexError
  | Some i =>
      match m !! i with
      | None => Raise IndexError
      | Some row =>
          match norm_index (length row) c with
          | None => Raise IndexError
          | Some j =>
              match row !! j with
              | Some v => Ok v
              | None => Raise IndexError
              end
          end
      end
  end.

(** Python's [l[start:stop]]: a negative bound counts from the end and both
    bounds are clamped to the list. *)
Definition slice_bound (len : Z) (i : Z) : Z :=
  if i <? 0 then Z.max 0 (i + len) else Z.min i len.

Definition pyslice {A} (l : list A) (start stop : Z) : list A :=
  let n := Z.of_nat (length l) in
  let a := slice_bound n start in
  let b := slice_bound n stop in
  take (Z.to_nat (b - a)) (drop (Z.to_nat a) l).

(** [m[i0:i1, x0:x1]]. *)
Definition slice2 {A} (m : matrix A) (i0 i1 x0 x1 : Z) : matrix A :=
  (fun row => pyslice row x0 x1) <$> pyslice m i0 i1.

(** [m[i0:i1, x0:x1] = v]: the cells of the slice are overwritten, the slice
    being cut to the array as Python does. *)
Definition fill_slice2 {A} (m : matrix A) (i0 i1 x0 x1 : Z) (v : A) : matrix A :=
  let a := slice_bound (Z.of_nat (length m)) i0 in
  let b := slice_bound (Z.of_nat (length m)) i1 in
  imap (fun i row =>
    if (a <=? Z.of_nat i) && (Z.of_nat i <? b) then
      let c := slice_bound (Z.of_nat (length row)) x0 in
      let d := slice_bound (Z.of_nat (length row)) x1 in
      imap (fun j w => if (c <=? Z.of_nat j) && (Z.of_nat j <? d) then v else w) row
    else row) m.

(** [m.sum()] of a boolean array: the number of [True] cells. *)
Definition count_true (m : matrix bool) : Z :=
  Z.of_nat (length (filter (fun b : bool => b = true) (concat m))).

(** [m.sum()] and [m.size] of an integer array. *)
Definition sum_list (l : list Z) : Z := foldr Z.add 0 l.
Definition msum (m : matrix Z) : Z := sum_list (sum_list <$> m).
Definition msize {A} (m : matrix A) : Z := Z.of_nat (length (concat m)).

(** [l[start:start+len(new)] = new] for a slice that lies inside [l]. *)
Definition splice {A} (l : list A) (start : nat) (new : list A) : list A :=
  take start l ++ new ++ drop (start + length new) l.

(** [bg[i0:i1, x0:x1] = block] for a slice that lies inside [bg] and has the
    shape of [block]; otherwise NumPy rejects the assignment (broadcasting
    of a one-row or one-column block is not modelled). *)
Definition setslice2 {A} (bg : matrix A) (i0 i1 x0 x1 : Z) (block : matrix A)
  : result (matrix A) :=
  if (0 <=? i0) && (i1 <=? nrows bg) && (i1 - i0 =? nrows block)
     && (0 <=? x0) && (x1 <=? ncols bg) && (x1 - x0 =? ncols block)
  then Ok (splice bg (Z.to_nat i0)
             (zip_with (fun bgrow row => splice bgrow (Z.to_nat x0) row)
                       (take (length block) (drop (Z.to_nat i0) bg)) block))
  else Raise (ValueError "could not broadcast input array").

(** [np.arange(start, stop, stride, dtype=np.int32)] on integers: the
    progression has [ceil((stop - start) / stride)] terms; a zero stride is
    refused. *)
Definition arange (start stop stride : Z) : result (list Z) :=
  if stride =? 0 then Raise (ValueError "Maximum allowed size exceeded")
  else Ok ((fun k => int32 (start + k * stride))
             <$> seqZ 0 (Z.max 0 (- ((start - stop) / stride)))).

(** The arithmetic progression [o, o + c, ...] of [k] terms. *)
Fixpoint prog (o c : Z) (k : nat) : list Z :=
  match k with
  | O => []
  | S k' => o :: prog (o + c) c k'
  end.

(** Consecutive duplicates removed. *)
Fixpoint uniq (l : list Z) : list Z :=
  match l with
  | [] => []
  | x :: l' =>
      match l' with
      | y :: _ => if x =? y then uniq l' else x :: uniq l'
      | [] => [x]
      end
  end.

(** [np.sort] and [np.unique] of a one-dimensional integer array. *)
Definition sort (l : list Z) : list Z := merge_sort Z.le l.
Definition unique (l : list Z) : list Z := uniq (sort l).

(** [np.clip(x, lo, hi)] is [minimum(maximum(x, lo), hi)], also when
    [lo > hi]. *)
Definition clip (x lo hi : Z) : Z := Z.min (Z.max x lo) hi.

(** [np.in1d(ar1, ar2)]: for each element of [ar1], whether it occurs in
    [ar2]. *)
Definition in1d {A} `{EqDecision A} (ar1 ar2 : list A) : list bool :=
  (fun a => bool_decide (a ∈ ar2)) <$> ar1.

(** [a & b] of two one-dimensional boolean arrays; an array of length one is
    broadcast. *)
Definition logical_and (a b : list bool) : result (list bool) :=
  if bool_decide (length a = length b) then Ok (zip_with andb a b)
  else if bool_decide (length a = 1%nat) then Ok (andb (default false (a !! 0%nat)) <$> b)
  else if bool_decide (length b = 1%nat)
       then Ok ((fun x => x && default false (b !! 0%nat)) <$> a)
  else Raise (ValueError "operands could not be broadcast together").

(** [a[mask]] for a boolean [mask] over the first axis. *)
Definition bool_index {A} (a : list A) (mask : list bool) : result (list A) :=
  if bool_decide (length mask = length a)
  then Ok (fst <$> filter (fun e : A * bool => e.2 = true) (zip a mask))
  else Raise IndexError.

End Numpy.

Import Numpy.

(** ** Horizon: points and matrix storages *)

Definition point : Type := Z * Z * Z.

Module Horizon.

Definition FILL_VALUE : Z := -999999.

(** Rows of [np.nonzero(matrix != FILL_VALUE)] stacked with the values:
    the present cells in row-major order. *)
Fixpoint row_to_points (i j : Z) (row : list Z) : list point :=
  match row with
  | [] => []
  | v :: row' =>
      (if v =? FILL_VALUE then [] else [(i, j, v)]) ++ row_to_points i (j + 1) row'
  end.

Fixpoint rows_to_points (i : Z) (m : matrix Z) : list point :=
  match m with
  | [] => []
  | row :: m' => row_to_points i 0 row ++ rows_to_points (i + 1) m'
  end.

Definition matrix_to_points (m : matrix Z) : list point := rows_to_points 0 m.

(** The indexed assignment of [points_to_matrix], one point after the
    other. *)
Fixpoint scatter (points : list point) (i_min x_min : Z) (m : matrix Z)
  : result (matrix Z) :=
  match points with
  | [] => Ok m
  | (i, x, h) :: rest =>
      let* m' := setitem2 m (int32 i - i_min) (int32 x - x_min) (int32 h) in
      scatter rest i_min x_min m'
  end.

Definition points_to_matrix (points : list point) (i_min x_min i_length x_length : Z)
  : result (matrix Z) :=
  let* m := full i_length x_length FILL_VALUE in
  scatter points i_min x_min m.

(** [points += np.array([i_min, x_min, 0], dtype)] of the [points]
    property, in the [int32] dtype of the surface. *)
Definition shift_points (i_min x_min : Z) (pts : list point) : list point :=
  (fun p : point => (int32 (p.1.1 + i_min), int32 (p.1.2 + x_min), int32 (p.2 + 0))) <$> pts.

(** The (axis0, axis1) keys of a point array. *)
Definition keys (pts : list point) : list (Z * Z) :=
  (fun p : point => (p.1.1, p.1.2)) <$> pts.

(** A point of an [int32] surface that lies in the bounding box described by
    [(i_min, x_min, i_length, x_length)] and is not the fill sentinel. *)
Definition valid_point (i_min x_min i_length x_length : Z) (p : point) : Prop :=
  fits_int32 p.1.1 /\ fits_int32 p.1.2 /\ fits_int32 p.2 /\
  p.2 <> FILL_VALUE /\
  i_min <= p.1.1 < i_min + i_length /\
  x_min <= p.1.2 < x_min + x_length.

(** The parent field: the shape of the cube and the map of its dead traces
    (1 where a trace is dead). *)
Record field : Type := {
  shape : Z * Z * Z;
  zero_traces : list (list Z);
}.

Definition spatial_shape (f : field) : Z * Z := (shape f).1.

(** The attributes of a [Horizon] instance.  [None] is Python's [None].  The
    floating point statistics [_h_mean] and [_h_std] are left out.  [cache]
    holds the memoized attribute maps, keyed by the name of the method. *)
Record horizon : Type := {
  field_of : field;
  _points : option (list point);
  _matrix : option (list (list Z));
  _depths : option (list Z);
  _h_min : option Z;
  _h_max : option Z;
  _len : option Z;
  i_min : option Z;
  i_max : option Z;
  x_min : option Z;
  x_max : option Z;
  i_length : option Z;
  x_length : option Z;
  bbox : option (list (Z * Z));
  cache : list (string * list (list bool));
}.

Definition set__points (v : option (list point)) (h : horizon) : horizon :=
  {| field_of := field_of h; _points := v; _matrix := _matrix h; _depths := _depths h; _h_min := _h_min h; _h_max := _h_max h; _len := _len h; i_min := i_min h; i_max := i_max h; x_min := x_min h; x_max := x_max h; i_length := i_length h; x_length := x_length h; bbox := bbox h; cache := cache h; |}.
Definition set__matrix (v : option (list (list Z))) (h : horizon) : horizon :=
  {| field_of := field_of h; _points := _points h; _matrix := v; _depths := _depths h; _h_min := _h_min h; _h_max := _h_max h; _len := _len h; i_min := i_min h; i_max := i_max h; x_min := x_min h; x_max := x_max h; i_length := i_length h; x_length := x_length h; bbox := bbox h; cache := cache h; |}.
Definition set__depths (v : option (list Z)) (h : horizon) : horizon :=
  {| field_of := field_of h; _points := _points h; _matrix := _matrix h; _depths := v; _h_min := _h_min h; _h_max := _h_max h; _len := _len h; i_min := i_min h; i_max := i_max h; x_min := x_min h; x_max := x_max h; i_length := i_length h; x_length := x_length h; bbox := bbox h; cache := cache h; |}.
Definition set__h_min (v : option Z) (h : horizon) : horizon :=
  {| field_of := field_of h; _points := _points h; _matrix := _matrix h; _depths := _depths h; _h_min := v; _h_max := _h_max h; _len := _len h; i_min := i_min h; i_max := i_max h; x_min := x_min h; x_max := x_max h; i_length := i_length h; x_length := x_length h; bbox := bbox h; cache := cache h; |}.
Definition set__h_max (v : option Z) (h : horizon) : horizon :=
  {| field_of := field_of h; _points := _points h; _matrix := _matrix h; _depths := _depths h; _h_min := _h_min h; _h_max := v; _len := _len h; i_min := i_min h; i_max := i_max h; x_min := x_min h; x_max := x_max h; i_length := i_length h; x_length := x_length h; bbox := bbox h; cache := cache h; |}.
Definition set__len (v : option Z) (h : horizon) : horizon :=
  {| field_of := field_of h; _points := _points h; _matrix := _matrix h; _depths := _depths h; _h_min := _h_min h; _h_max := _h_max h; _len := v; i_min := i_min h; i_max := i_max h; x_min := x_min h; x_max := x_max h; i_length := i_length h; x_length := x_length h; bbox := bbox h; cache := cache h; |}.
Definition set_i_min (v : option Z) (h : horizon) : horizon :=
  {| field_of := field_of h; _points := _points h; _matrix := _matrix h; _depths := _depths h; _h_min := _h_min h; _h_max := _h_max h; _len := _len h; i_min := v; i_max := i_max h; x_min := x_min h; x_max := x_max h; i_length := i_length h; x_length := x_length h; bbox := bbox h; cache := cache h; |}.
Definition set_i_max (v : option Z) (h : horizon) : horizon :=
  {| field_of := field_of h; _points := _points h; _matrix := _matrix h; _depths := _depths h; _h_min := _h_min h; _h_max := _h_max h; _len := _len h; i_min := i_min h; i_max := v; x_min := x_min h; x_max := x_max h; i_length := i_length h; x_length := x_length h; bbox := bbox h; cache := cache h; |}.
Definition set_x_min (v : option Z) (h : horizon) : horizon :=
  {| field_of := field_of h; _points := _points h; _matrix := _matrix h; _depths := _depths h; _h_min := _h_min h; _h_max := _h_max h; _len := _len h; i_min := i_min h; i_max := i_max h; x_min := v; x_max := x_max h; i_length := i_length h; x_length := x_length h; bbox := bbox h; cache := cache h; |}.
Definition set_x_max (v : option Z) (h : horizon) : horizon :=
  {| field_of := field_of h; _points := _points h; _matrix := _matrix h; _depths := _depths h; _h_min := _h_min h; _h_max := _h_max h; _len := _len h; i_min := i_min h; i_max := i_max h; x_min := x_min h; x_max := v; i_length := i_length h; x_length := x_length h; bbox := bbox h; cache := cache h; |}.
Definition set_i_length (v : option Z) (h : horizon) : horizon :=
  {| field_of := field_of h; _points := _points h; _matrix := _matrix h; _depths := _depths h; _h_min := _h_min h; _h_max := _h_max h; _len := _len h; i_min := i_min h; i_max := i_max h; x_min := x_min h; x_max := x_max h; i_length := v; x_length := x_length h; bbox := bbox h; cache := cache h; |}.
Definition set_x_length (v : option Z) (h : horizon) : horizon :=
  {| field_of := field_of h; _points := _points h; _matrix := _matrix h; _depths := _depths h; _h_min := _h_min h; _h_max := _h_max h; _len := _len h; i_min := i_min h; i_max := i_max h; x_min := x_min h; x_max := x_max h; i_length := i_length h; x_length := v; bbox := bbox h; cache := cache h; |}.
Definition set_bbox (v : option (list (Z * Z))) (h : horizon) : horizon :=
  {| field_of := field_of h; _points := _points h; _matrix := _matrix h; _depths := _depths h; _h_min := _h_min h; _h_max := _h_max h; _len := _len h; i_min := i_min h; i_max := i_max h; x_min := x_min h; x_max := x_max h; i_length := i_length h; x_length := x_length h; bbox := v; cache := cache h; |}.
Definition set_cache (v : list (string * list (list bool))) (h : horizon) : horizon :=
  {| field_of := field_of h; _points := _points h; _matrix := _matrix h; _depths := _depths h; _h_min := _h_min h; _h_max := _h_max h; _len := _len h; i_min := i_min h; i_max := i_max h; x_min := x_min h; x_max := x_max h; i_length := i_length h; x_length := x_length h; bbox := bbox h; cache := v; |}.


(** A freshly allocated instance, as [__init__] leaves it before it calls
    [from_<format>]. *)
Definition blank (f : field) : horizon :=
  {| field_of := f; _points := None; _matrix := None; _depths := None;
     _h_min := None; _h_max := None; _len := None;
     i_min := None; i_max := None; x_min := None; x_max := None;
     i_length := None; x_length := None; bbox := None; cache := [] |}.

Definition astype_int32 (pts : list point) : list point :=
  (fun p : point => (int32 p.1.1, int32 p.1.2, int32 p.2)) <$> pts.

(** The lazy properties [points] and [matrix].  Each calls the other when its
    own storage is [None]; [limit] is the number of Python frames that are
    left, and running out of them is the interpreter's [RecursionError].
    Once [_matrix] is set, the further reads of [self.matrix] in the body of
    [points] return it unchanged, so the value of the first read is used. *)
Fixpoint points (limit : nat) (h : horizon) {struct limit}
  : result (option (list point) * horizon) :=
  match limit with
  | O => Raise RecursionError
  | S limit' =>
      match _points h with
      | Some pts => Ok (Some pts, h)
      | None =>
          let* r := matrix limit' h in
          match r.1 with
          | None => Ok (None, r.2)
          | Some m =>
              match i_min r.2, x_min r.2 with
              | Some i0, Some x0 =>
                  let pts := shift_points i0 x0 (astype_int32 (matrix_to_points m)) in
                  Ok (Some pts, set__points (Some pts) r.2)
              | _, _ => Raise (TypeError "int() argument must be a number, not 'NoneType'")
              end
          end
      end
  end
with matrix (limit : nat) (h : horizon) {struct limit}
  : result (option (list (list Z)) * horizon) :=
  match limit with
  | O => Raise RecursionError
  | S limit' =>
      match _matrix h with
      | Some m => Ok (Some m, h)
      | None =>
          let* r := points limit' h in
          match r.1 with
          | None => Ok (None, r.2)
          | Some pts =>
              match i_min r.2, x_min r.2, i_length r.2, x_length r.2 with
              | Some i0, Some x0, Some il, Some xl =>
                  let* m := points_to_matrix pts i0 x0 il xl in
                  Ok (Some m, set__matrix (Some m) r.2)
              | _, _, _, _ =>
                  Raise (TypeError "'NoneType' object cannot be interpreted as an integer")
              end
          end
      end
  end.

(** The property [depths]. *)
Definition depths (limit : nat) (h : horizon) : result (list Z * horizon) :=
  match _depths h with
  | Some d => Ok (d, h)
  | None =>
      match _points h with
      | Some pts =>
          let d := (fun p : point => p.2) <$> pts in
          Ok (d, set__depths (Some d) h)
      | None =>
          let* r := matrix limit h in
          match r.1 with
          | None => Raise (TypeError "'NoneType' object is not subscriptable")
          | Some m =>
              let d := filter (fun v => v <> FILL_VALUE) (concat m) in
              Ok (d, set__depths (Some d) r.2)
          end
      end
  end.

(** [np.min] and [np.max] of a one-dimensional array. *)
Definition np_min (l : list Z) : result Z :=
  match l with
  | [] => Raise (ValueError "zero-size array to reduction operation minimum which has no identity")
  | v :: l' => Ok (foldr Z.min v l')
  end.

Definition np_max (l : list Z) : result Z :=
  match l with
  | [] => Raise (ValueError "zero-size array to reduction operation maximum which has no identity")
  | v :: l' => Ok (foldr Z.max v l')
  end.

(** The properties [h_min] and [h_max]. *)
Definition h_min (limit : nat) (h : horizon) : result (Z * horizon) :=
  match _h_min h with
  | Some v => Ok (v, h)
  | None =>
      let* r := depths limit h in
      let* v := np_min r.1 in
      Ok (v, set__h_min (Some v) r.2)
  end.

Definition h_max (limit : nat) (h : horizon) : result (Z * horizon) :=
  match _h_max h with
  | Some v => Ok (v, h)
  | None =>
      let* r := depths limit h in
      let* v := np_max r.1 in
      Ok (v, set__h_max (Some v) r.2)
  end.

(** [__len__]. *)
Definition len (limit : nat) (h : horizon) : result (Z * horizon) :=
  match _len h with
  | Some n => Ok (n, h)
  | None =>
      match _points h with
      | Some pts =>
          let n := Z.of_nat (length pts) in Ok (n, set__len (Some n) h)
      | None =>
          let* r := depths limit h in
          let n := Z.of_nat (length r.1) in
          Ok (n, set__len (Some n) r.2)
      end
  end.

(** The argument of [reset_storage]. *)
Inductive storage_name : Type := matrix_storage | points_storage.

Definition reset_storage (limit : nat) (storage : option storage_name) (h : horizon)
  : result horizon :=
  let h := set__len None (set__h_max None (set__h_min None (set__depths None h))) in
  match storage with
  | Some matrix_storage =>
      let h := set__matrix None h in
      let* r := points limit h in
      match r.1 with
      | None => Raise (TypeError "object of type 'NoneType' has no len()")
      | Some [] => Ok r.2
      | Some (p :: pts) =>
          let hvals := (fun q : point => q.2) <$> (p :: pts) in
          let ivals := (fun q : point => q.1.1) <$> (p :: pts) in
          let xvals := (fun q : point => q.1.2) <$> (p :: pts) in
          let* hmin := np_min hvals in
          let* hmax := np_max hvals in
          let* imin := np_min ivals in
          let* imax := np_max ivals in
          let* xmin := np_min xvals in
          let* xmax := np_max xvals in
          let h := set__h_max (Some (int32 hmax)) (set__h_min (Some (int32 hmin)) r.2) in
          let h := set_x_max (Some xmax) (set_x_min (Some xmin)
                     (set_i_max (Some imax) (set_i_min (Some imin) h))) in
          let h := set_x_length (Some (xmax - xmin + 1))
                     (set_i_length (Some (imax - imin + 1)) h) in
          Ok (set_bbox (Some [(imin, imax); (xmin, xmax); (int32 hmin, int32 hmax)]) h)
      end
  | Some points_storage => Ok (set__points None h)
  | None => Ok h
  end.

(** [from_points] with [dst='points'].  [np.rint] and [astype(int32)] leave
    the integers of the [int32] range alone, which is what the cast written
    here does on them; a larger integer goes through [float64] in the code,
    and the statements about stored points take cubes of that range, whose
    points pass the test above only when they fit. *)
Definition from_points (limit : nat) (pts : list point) (verify : bool)
    (reset : option storage_name) (h : horizon) : result horizon :=
  let '(n0, n1, n2) := shape (field_of h) in
  let pts :=
    if verify
    then filter (fun p : point =>
                   0 <= p.1.1 /\ 0 <= p.1.2 /\ 0 <= p.2 /\
                   p.1.1 < n0 /\ p.1.2 < n1 /\ p.2 < n2) pts
    else pts in
  let h := set__points (Some (astype_int32 pts)) h in
  match reset with
  | Some st => reset_storage limit (Some st) h
  | None => Ok h
  end.

(** [from_matrix].  A matrix of another type than [int32] is rounded and
    cast; on the integers of the [int32] range the cast changes nothing, and
    the matrices given to it below are of that range. *)
Definition from_matrix (limit : nat) (m : list (list Z)) (i0 x0 : Z)
    (hmin hmax length : option Z) (h : horizon) : result horizon :=
  let m := mmap int32 m in
  let h := set__matrix (Some m) h in
  let h := set_x_min (Some x0) (set_i_min (Some i0) h) in
  let h := set_x_max (Some (x0 + ncols m - 1)) (set_i_max (Some (i0 + nrows m - 1)) h) in
  let h := set_x_length (Some ((x0 + ncols m - 1) - x0 + 1))
             (set_i_length (Some ((i0 + nrows m - 1) - i0 + 1)) h) in
  let* h := reset_storage limit (Some points_storage) h in
  let h := set__len length (set__h_max hmax (set__h_min hmin h)) in
  let* lo := h_min limit h in
  let* hi := h_max limit lo.2 in
  Ok (set_bbox (Some [(i0, i0 + nrows m - 1); (x0, x0 + ncols m - 1); (lo.1, hi.1)]) hi.2).

Definition from_full_matrix (limit : nat) (m : list (list Z)) (h : horizon)
  : result horizon :=
  from_matrix limit m 0 0 None None None h.

(** A row of an (N, 3) array read as a point. *)
Definition row_point (row : list Z) : point :=
  (default 0 (row !! 0%nat), default 0 (row !! 1%nat), default 0 (row !! 2%nat)).

(** [Horizon(storage, field, **kwargs)] for a two-dimensional integer array
    of shape [(length rows, cols)]: an array with three columns is a point
    cloud, an array of the spatial shape of the field is a full matrix, any
    other needs [i_min] and [x_min]. *)
Definition init (limit : nat) (f : field) (cols : Z) (rows : list (list Z))
    (origin : option (Z * Z)) : result horizon :=
  if cols =? 3 then from_points limit (row_point <$> rows) true (Some matrix_storage) (blank f)
  else if bool_decide ((Z.of_nat (length rows), cols) = spatial_shape f)
  then from_full_matrix limit rows (blank f)
  else match origin with
       | Some (i0, x0) => from_matrix limit rows i0 x0 None None None (blank f)
       | None => Raise (TypeError "from_matrix() missing required arguments")
       end.

(** *** Derived matrices and the attribute cache *)

(** [matrix_put_on_full]: a matrix that has not the spatial shape of the cube
    is written into a background of fill values at its bounding box. *)
Definition matrix_put_on_full {A} (fill : A) (m : list (list A)) (h : horizon)
  : result (list (list A)) :=
  let '(n0, n1) := spatial_shape (field_of h) in
  if bool_decide ((nrows m, ncols m) = (n0, n1)) then Ok m
  else
    let* bg := full n0 n1 fill in
    match i_min h, i_max h, x_min h, x_max h with
    | Some i0, Some i1, Some x0, Some x1 => setslice2 bg i0 (i1 + 1) x0 (x1 + 1) m
    | _, _, _, _ => Raise (TypeError "unsupported operand type(s) for +: 'NoneType' and 'int'")
    end.

(** [self.matrix] where an array is needed. *)
Definition matrix_array (limit : nat) (h : horizon)
  : result (list (list Z) * horizon) :=
  let* r := matrix limit h in
  match r.1 with
  | Some m => Ok (m, r.2)
  | None => Raise (TypeError "'NoneType' object is not subscriptable")
  end.

Definition points_array (limit : nat) (h : horizon)
  : result (list point * horizon) :=
  let* r := points limit h in
  match r.1 with
  | Some pts => Ok (pts, r.2)
  | None => Raise (TypeError "'NoneType' object is not subscriptable")
  end.

(** [full_matrix], through [__getattr__]. *)
Definition full_matrix (limit : nat) (h : horizon)
  : result (list (list Z) * horizon) :=
  let* r := matrix_array limit h in
  let* fm := matrix_put_on_full FILL_VALUE r.1 r.2 in
  Ok (fm, r.2).

(** [binary_matrix] is [self.matrix > 0]. *)
Definition binary_matrix (limit : nat) (h : horizon)
  : result (list (list bool) * horizon) :=
  let* r := matrix_array limit h in
  Ok (mmap (fun v => bool_decide (0 < v)) r.1, r.2).

Definition full_binary_matrix (limit : nat) (h : horizon)
  : result (list (list bool) * horizon) :=
  let* r := binary_matrix limit h in
  let* fm := matrix_put_on_full false r.1 r.2 in
  Ok (fm, r.2).

(** Modelled from the spec: the [lru_cache] decorator and [reset_cache] of
    [CacheMixin] live in [utils], which is not among the sources.  The cache
    memoizes the result of a method under the method's name (capacity one
    per method) and [reset_cache] drops every entry. *)
Fixpoint cache_lookup (name : string) (c : list (string * list (list bool)))
  : option (list (list bool)) :=
  match c with
  | [] => None
  | (k, v) :: c' => if bool_decide (k = name) then Some v else cache_lookup name c'
  end.

Definition cache_store (name : string) (v : list (list bool))
    (c : list (string * list (list bool))) : list (string * list (list bool)) :=
  (name, v) :: filter (fun e : string * list (list bool) => e.1 <> name) c.

Definition reset_cache (h : horizon) : horizon := set_cache [] h.

(** [presence_matrix], a property under [lru_cache(maxsize=1)]. *)
Definition presence_matrix (limit : nat) (h : horizon)
  : result (list (list bool) * horizon) :=
  match cache_lookup "presence_matrix" (cache h) with
  | Some v => Ok (v, h)
  | None =>
      let* r := full_binary_matrix limit h in
      Ok (r.1, set_cache (cache_store "presence_matrix" r.1 (cache r.2)) r.2)
  end.

(** *** Changing a horizon *)

(** [apply_to_matrix]: [function] returns the new matrix and, optionally, a
    new origin. *)
Definition apply_to_matrix (limit : nat)
    (function : list (list Z) -> result (list (list Z) * option (Z * Z)))
    (h : horizon) : result horizon :=
  let* r := matrix_array limit h in
  let* res := function r.1 in
  let h := match res.2 with
           | Some (i0, x0) => set_x_min (Some x0) (set_i_min (Some i0) r.2)
           | None => r.2
           end in
  let h := set__matrix (Some res.1) h in
  let* h := reset_storage limit (Some points_storage) h in
  Ok (reset_cache h).

Definition apply_to_points (limit : nat)
    (function : list point -> result (list point)) (h : horizon) : result horizon :=
  let* r := points_array limit h in
  let* pts := function r.1 in
  let h := set__points (Some pts) r.2 in
  let* h := reset_storage limit (Some matrix_storage) h in
  Ok (reset_cache h).

(** [points[mask == 0]] for [mask = filtering_matrix[points[:, 0], points[:, 1]]]. *)
Fixpoint keep_unmasked (filtering_matrix : list (list Z)) (pts : list point)
  : result (list point) :=
  match pts with
  | [] => Ok []
  | p :: rest =>
      let* v := getitem2 filtering_matrix p.1.1 p.1.2 in
      let* rest' := keep_unmasked filtering_matrix rest in
      Ok (if v =? 0 then p :: rest' else rest')
  end.

(** The cells of [np.nonzero(m == 1)], in row-major order. *)
Fixpoint row_ones (i j : Z) (row : list Z) : list (Z * Z) :=
  match row with
  | [] => []
  | v :: row' => (if v =? 1 then [(i, j)] else []) ++ row_ones i (j + 1) row'
  end.

Fixpoint rows_ones (i : Z) (m : list (list Z)) : list (Z * Z) :=
  match m with
  | [] => []
  | row :: m' => row_ones i 0 row ++ rows_ones (i + 1) m'
  end.

(** [matrix[idx_i, idx_x] = FILL_VALUE]. *)
Fixpoint fill_cells (idx : list (Z * Z)) (m : list (list Z)) : result (list (list Z)) :=
  match idx with
  | [] => Ok m
  | (i, x) :: rest =>
      let* m' := setitem2 m i x FILL_VALUE in
      fill_cells rest m'
  end.

(** The cells of the bounding box that [filtering_matrix] marks with 1. *)
Definition masked_cells (filtering_matrix : list (list Z)) (h : horizon)
  : result (list (Z * Z)) :=
  match i_min h, i_max h, x_min h, x_max h with
  | Some i0, Some i1, Some x0, Some x1 =>
      Ok (rows_ones 0 (slice2 filtering_matrix i0 (i1 + 1) x0 (x1 + 1)))
  | _, _, _, _ => Raise (TypeError "unsupported operand type(s) for +: 'NoneType' and 'int'")
  end.

Definition filter_points (limit : nat) (filtering_matrix : option (list (list Z)))
    (h : horizon) : result horizon :=
  let fm := default (zero_traces (field_of h)) filtering_matrix in
  apply_to_points limit (keep_unmasked fm) h.

Definition filter_matrix (limit : nat) (filtering_matrix : option (list (list Z)))
    (h : horizon) : result horizon :=
  let fm := default (zero_traces (field_of h)) filtering_matrix in
  let* idx := masked_cells fm h in
  apply_to_matrix limit (fun m => let* m' := fill_cells idx m in Ok (m', None)) h.

(** *** Subtraction *)



(** [a[mask] = v] on a copy of [a]. *)
Definition assign_masked {A} (mask : list (list bool)) (v : A) (a : list (list A))
  : list (list A) :=
  zip_with (fun mrow row => zip_with (fun (b : bool) x => if b then v else x) mrow row) mask a.


(** *** Pre-defined transforms *)

(** The [factor] of [thin_out]: an integer or a sequence of two integers. *)
Inductive factor_arg : Type :=
| factor_int (f : Z)
| factor_pair (f : Z * Z).

(** [l[::step]]: every [step]-th element from the first one on, or from the
    last one backwards when the step is negative. *)
Definition strided {A} (l : list A) (step : Z) : result (list A) :=
  if step =? 0 then Raise (ValueError "slice step cannot be zero")
  else
    let source := if 0 <? step then l else reverse l in
    let k := Z.to_nat (Z.abs step) in
    Ok (omap (fun j => source !! (j * k)%nat) (seq 0 (length l))).

(** [uniques[counts > threshold][::step]] for
    [uniques, counts = np.unique(column, return_counts=True)]. *)
Definition frequent_lines (column : list Z) (threshold step : Z) : result (list Z) :=
  let uniques := unique column in
  let frequent :=
    filter (fun u => threshold < Z.of_nat (length (filter (fun v => v = u) column)))
           uniques in
  strided frequent step.

(** [thin_out]: the points on the kept lines are assigned to [self.points]
    and the matrix storage is reset; nothing else is done. *)
Definition thin_out (limit : nat) (factor : factor_arg) (threshold : Z) (h : horizon)
  : result horizon :=
  let factor := match factor with factor_int f => (f, f) | factor_pair f => f end in
  let* r := points_array limit h in
  let* lines_i := frequent_lines ((fun p : point => p.1.1) <$> r.1) threshold factor.1 in
  let* lines_x := frequent_lines ((fun p : point => p.1.2) <$> r.1) threshold factor.2 in
  let pts := filter (fun p : point => p.1.1 ∈ lines_i \/ p.1.2 ∈ lines_x) r.1 in
  let h := set__points (Some pts) r.2 in
  reset_storage limit (Some matrix_storage) h.

(** [filter = filter_points]. *)
Definition filter := filter_points.

End Horizon.

(** ** Grids: [grids.py] *)

(** A grid, as [BaseGrid] and its subclasses keep it: the rows of [locations]
    are [(field_id, label_id, orientation, i_start, x_start, h_start, i_stop,
    x_stop, h_stop)]; [potential] is only there on an [ExtensionGrid]. *)
Record grid : Type := {
  locations : list (list Z);
  potential : list Z;
  crop_shape : Z * Z * Z;
  orientation : Z;
  origin : Z * Z * Z;
  endpoint : Z * Z * Z;
  batch_size : Z;
}.

(** Whether the trace [(i, x)] lies in the footprint of a location, and the
    number of locations of a grid whose footprint holds it. *)
Definition footprint_contains (row : list Z) (i x : Z) : bool :=
  match row with
  | [_; _; _; i0; x0; _; i1; x1; _] =>
      (i0 <=? i) && (i <? i1) && (x0 <=? x) && (x <? x1)
  | _ => false
  end.

Definition cover_count (rows : list (list Z)) (i x : Z) : nat :=
  length (filter (fun row => footprint_contains row i x = true) rows).

(** [t[[1, 0, 2]]]. *)
Definition swap01 (t : Z * Z * Z) : Z * Z * Z := (t.1.2, t.1.1, t.2).

Module RegularGrid.

(** A number or a sequence given as [overlap_factor]. *)
Inductive overlap_factor_arg : Type :=
| factor_number (f : Z)
| factor_sequence (f : Z * Z * Z).

(** [c // f] for an element [c] of the array [crop_shape]: the floor
    division of NumPy integers, which warns and gives 0 for a zero divisor,
    as [Z.div] does. *)
Definition floordiv (c f : Z) : result Z := Ok (c / f).

(** The part of [__init__] that makes [strides]. *)
Definition make_strides (crop_shape : Z * Z * Z)
    (strides overlap : option (Z * Z * Z)) (overlap_factor : option overlap_factor_arg)
  : result (Z * Z * Z) :=
  let given {A} (o : option A) : Z := match o with Some _ => 1 | None => 0 end in
  if 1 <? given strides + given overlap + given overlap_factor
  then Raise (ValueError "Only one of `strides`, `overlap` or `overlap_factor` should be specified!")
  else
    let overlap_factor :=
      match overlap_factor with
      | Some (factor_number f) => Some (f, f, f)
      | Some (factor_sequence f) => Some f
      | None => None
      end in
    match strides, overlap, overlap_factor with
    | Some s, _, _ => Ok s
    | None, Some o, _ =>
        Ok (crop_shape.1.1 - o.1.1, crop_shape.1.2 - o.1.2, crop_shape.2 - o.2)
    | None, None, Some f =>
        let* q0 := floordiv crop_shape.1.1 f.1.1 in
        let* q1 := floordiv crop_shape.1.2 f.1.2 in
        let* q2 := floordiv crop_shape.2 f.2 in
        Ok (Z.max 1 q0, Z.max 1 q1, Z.max 1 q2)
    | None, None, None => Ok crop_shape
    end.

Definition _arange (start stop stride limit : Z) : result (list Z) :=
  let* grid := arange start stop stride in
  Ok (sort (unique ((fun v => clip v 0 limit) <$> grid))).

(** The number of non-dead traces of the crop that starts at [(i, x)]. *)
Definition alive_traces (zero_traces : list (list Z)) (c0 c1 i x : Z) : Z :=
  let sliced := slice2 zero_traces i (i + c0) x (x + c1) in
  msize sliced - msum sliced.

(** One row of the buffer, in [int32]. *)
Definition make_row (field_id label_id orientation : Z) (crop_shape : Z * Z * Z)
    (p : point) : list Z :=
  [int32 field_id; int32 label_id; int32 orientation;
   int32 p.1.1; int32 p.1.2; int32 p.2;
   int32 (int32 p.1.1 + crop_shape.1.1); int32 (int32 p.1.2 + crop_shape.1.2);
   int32 (int32 p.2 + crop_shape.2)].

(** [_make_locations].  [ranges] is the value of [make_ranges(ranges,
    field.shape)], a helper of [utils] that is not among the sources; the
    shape of the field stands for [cube_shape] too.  With no point left,
    [np.array(points)] has shape (0,) and its assignment into the three
    columns of the buffer is rejected. *)
Definition _make_locations (f : Horizon.field) (ranges : (Z * Z) * (Z * Z) * (Z * Z))
    (strides crop_shape : Z * Z * Z) (threshold field_id label_id orientation : Z)
  : result (list (list Z)) :=
  let '(n0, n1, n2) := Horizon.shape f in
  let '(c0, c1, c2) := crop_shape in
  let* i_grid := _arange ranges.1.1.1 ranges.1.1.2 strides.1.1 (n0 - c0) in
  let* x_grid := _arange ranges.1.2.1 ranges.1.2.2 strides.1.2 (n1 - c1) in
  let* h_grid := _arange ranges.2.1 ranges.2.2 strides.2 (n2 - c2) in
  let points : list point :=
    i ← i_grid; x ← x_grid;
    if threshold <? alive_traces (Horizon.zero_traces f) c0 c1 i x
    then (fun h => (i, x, h)) <$> h_grid else [] in
  match points with
  | [] => Raise (ValueError "could not broadcast input array from shape (0,) into shape (0,3)")
  | _ => Ok (make_row field_id label_id orientation crop_shape <$> points)
  end.

(** [RegularGrid(field, ranges, crop_shape, ...)].  [orientation] is the
    value of [field.geometry.parse_axis(orientation)], 0 or 1.  [threshold]
    is a number of traces: the conversion of a fraction is a floating point
    product, and for an integer the test [0 < threshold < 1] fails. *)
Definition init (f : Horizon.field) (ranges : (Z * Z) * (Z * Z) * (Z * Z))
    (crop_shape : Z * Z * Z) (orientation : Z)
    (strides overlap : option (Z * Z * Z)) (overlap_factor : option overlap_factor_arg)
    (threshold batch_size field_id label_id : Z) (locations : option (list (list Z)))
  : result grid :=
  let crop_shape := if orientation =? 0 then crop_shape else swap01 crop_shape in
  let strides := if orientation =? 0 then strides else swap01 <$> strides in
  let origin := (ranges.1.1.1, ranges.1.2.1, ranges.2.1) in
  let endpoint := (ranges.1.1.2, ranges.1.2.2, ranges.2.2) in
  let* strides := make_strides crop_shape strides overlap overlap_factor in
  let* locations :=
    match locations with
    | Some l => Ok l
    | None => _make_locations f ranges strides crop_shape threshold field_id label_id orientation
    end in
  Ok {| locations := locations; potential := []; crop_shape := crop_shape;
        orientation := orientation; origin := origin; endpoint := endpoint;
        batch_size := batch_size |}.

End RegularGrid.

(** [coverage_matrix[i_start:i_stop, x_start:x_stop]] for a row
    [(orientation, i_start, x_start, h_start, i_stop, x_stop, h_stop)]. *)
Definition footprint (coverage_matrix : list (list bool)) (row : list Z)
  : list (list bool) :=
  slice2 coverage_matrix (default 0 (row !! 1%nat)) (default 0 (row !! 4%nat))
         (default 0 (row !! 2%nat)) (default 0 (row !! 5%nat)).

(** [compute_potential] of [grids.py].  A row of [locations] is
    [(orientation, i_start, x_start, h_start, i_stop, x_stop, h_stop)].  The
    coverage matrix is changed in place, so it is returned with the
    potentials.  [prior] is the local variable of that name: it is assigned
    for the orientations 0 and 1 only and keeps its value from one round to
    the next.  A row of another orientation that comes first reads it
    unassigned, an error in Python that the compiled function does not
    report; an [ExtensionGrid] makes rows of orientation 0 or 1 only, and
    the statements below take such rows. *)
Fixpoint compute_potential_loop (locations : list (list Z))
    (coverage_matrix : list (list bool)) (area stride prior_threshold : Z)
    (update_coverage_matrix : bool) (prior : option Z)
  : result (list Z * list (list bool)) :=
  match locations with
  | [] => Ok ([], coverage_matrix)
  | row :: rest =>
      let loc_orientation := default 0 (row !! 0%nat) in
      let i_start := default 0 (row !! 1%nat) in
      let x_start := default 0 (row !! 2%nat) in
      let i_stop := default 0 (row !! 4%nat) in
      let x_stop := default 0 (row !! 5%nat) in
      let sliced := footprint coverage_matrix row in
      if msize sliced =? area then
        let prior :=
          if loc_orientation =? 0 then
            Some (Z.max (count_true (pyslice sliced 0 stride))
                        (count_true (pyslice sliced 0 (- stride))))
          else if loc_orientation =? 1 then
            Some (Z.max (count_true ((fun r : list bool => pyslice r 0 stride) <$> sliced))
                        (count_true ((fun r : list bool => pyslice r 0 (- stride)) <$> sliced)))
          else prior in
        match prior with
        | None => Raise UnboundLocalError
        | Some pr =>
            if prior_threshold <=? pr then
              let covered := count_true sliced in
              let coverage_matrix :=
                if update_coverage_matrix
                then fill_slice2 coverage_matrix i_start i_stop x_start x_stop true
                else coverage_matrix in
              let* r := compute_potential_loop rest coverage_matrix area stride
                          prior_threshold update_coverage_matrix prior in
              Ok (int32 (area - covered) :: r.1, r.2)
            else
              let* r := compute_potential_loop rest coverage_matrix area stride
                          prior_threshold update_coverage_matrix prior in
              Ok (-1 :: r.1, r.2)
        end
      else
        let* r := compute_potential_loop rest coverage_matrix area stride
                    prior_threshold update_coverage_matrix prior in
        Ok (-1 :: r.1, r.2)
  end.

Definition compute_potential (locations : list (list Z))
    (coverage_matrix : list (list bool)) (shape : Z * Z * Z) (stride prior_threshold : Z)
    (update_coverage_matrix : bool) : result (list Z * list (list bool)) :=
  compute_potential_loop locations coverage_matrix (shape.1.1 * shape.1.2)
    stride prior_threshold update_coverage_matrix None.

Module ExtensionGrid.

Definition allowed_directions : list string := ["up"; "down"; "left"; "right"].

(** The directions that [__init__] derives from [mode]. *)
Definition directions_of (mode : string) : result (list string) :=
  if bool_decide (mode ∈ ["best_for_all"; "best_for_each"; "best_for_each_independent"])
  then Ok allowed_directions
  else if bool_decide (mode ∈ allowed_directions) then Ok [mode]
  else if bool_decide (mode = "vertical") then Ok ["up"; "down"]
  else if bool_decide (mode = "horizontal") then Ok ["left"; "right"]
  else Raise (ValueError "Provided wrong `mode` argument, for possible options look at the docstring.").

(** The values of [mode] that the docstring lists. *)
Definition recognized_modes : list string :=
  ["best_for_each_independent"; "up"; "down"; "left"; "right";
   "vertical"; "horizontal"; "best_for_all"; "best_for_each"].

(** A cell of a boolean matrix, [False] outside of it. *)
Definition cell_or_false (m : list (list bool)) (i j : Z) : bool :=
  if (0 <=? i) && (0 <=? j)
  then default false (get2 m (Z.to_nat i) (Z.to_nat j))
  else false.

(** [scipy.ndimage.binary_erosion] with a 3 x 3 structure of ones and
    [border_value=0]: a cell stays set when its nine neighbours are set. *)
Definition binary_erosion (m : list (list bool)) : list (list bool) :=
  imap (fun i row =>
    imap (fun j (_ : bool) =>
      forallb (fun di => forallb (fun dj =>
        cell_or_false m (Z.of_nat i + di) (Z.of_nat j + dj)) [-1; 0; 1]) [-1; 0; 1])
    row) m.

(** [boundaries_matrix] of a binary matrix: [binary ^ eroded]. *)
Definition boundaries (binary : list (list bool)) : list (list bool) :=
  zip_with (zip_with xorb) binary (binary_erosion binary).

(** The cells of [np.where(m)], in row-major order. *)
Fixpoint row_where (i j : Z) (row : list bool) : list (Z * Z) :=
  match row with
  | [] => []
  | b :: row' => (if b then [(i, j)] else []) ++ row_where i (j + 1) row'
  end.

Fixpoint rows_where (i : Z) (m : list (list bool)) : list (Z * Z) :=
  match m with
  | [] => []
  | row :: m' => row_where i 0 row ++ rows_where (i + 1) m'
  end.

(** The candidate of one boundary point [(i, x, h)] in one direction, a row
    [(orientation, i_start, x_start, h_start, i_stop, x_stop, h_stop)] of the
    [int32] buffer. *)
Definition candidate (direction : string) (n0 n1 : Z) (crop_shape : Z * Z * Z)
    (stride : Z) (p : point) : list Z :=
  let '(c0, c1, c2) := crop_shape in
  let '(i, x, h) := p in
  if bool_decide (direction = "up") then
    let xs := clip (int32 (x - stride)) 0 n1 in
    [0; i; xs; h; int32 (i + c0); int32 (xs + c1); int32 (h + c2)]
  else if bool_decide (direction = "down") then
    let xs := clip (int32 (x - (c1 - stride))) 0 (n1 - c1) in
    [0; i; xs; h; int32 (i + c0); int32 (xs + c1); int32 (h + c2)]
  else if bool_decide (direction = "left") then
    let ist := clip (int32 (i - stride)) 0 n0 in
    [1; ist; x; h; int32 (ist + c1); int32 (x + c0); int32 (h + c2)]
  else
    let ist := clip (int32 (i - (c1 - stride))) 0 (n0 - c1) in
    [1; ist; x; h; int32 (ist + c1); int32 (x + c0); int32 (h + c2)].

(** [l[idx]] for an array of valid indices. *)
Definition pick {A} (l : list A) (idx : list nat) : list A :=
  omap (fun k => l !! k) idx.

(** A stable insertion sort of indices by their potential: NumPy sorts rows
    this short by insertion. *)
Fixpoint insert_by (key : nat -> Z) (k : nat) (sorted : list nat) : list nat :=
  match sorted with
  | [] => [k]
  | j :: rest => if key k <? key j then k :: j :: rest else j :: insert_by key k rest
  end.

Definition argsort (row : list Z) : list nat :=
  foldl (fun sorted k => insert_by (fun j => default 0 (row !! j)) k sorted)
        [] (seq 0 (length row)).

(** The first index of the largest element, [np.argmax]. *)
Definition argmax (l : list Z) : nat :=
  (foldl (fun (best : nat * Z) (e : nat * Z) => if best.2 <? e.2 then e else best)
         (0%nat, default 0 (l !! 0%nat)) (imap (fun k v => (k, v)) l)).1.

(** The lexicographic order of rows. *)
Fixpoint row_le (a b : list Z) : bool :=
  match a, b with
  | [], _ => true
  | _ :: _, [] => false
  | x :: a', y :: b' => (x <? y) || ((x =? y) && row_le a' b')
  end.

Definition row_before (a b : list Z * nat) : Prop := row_le a.1 b.1 = true.

#[global] Instance row_before_dec : RelDecision row_before :=
  fun a b => decide (row_le a.1 b.1 = true).

(** [np.unique(rows, axis=0, return_index=True)]: the distinct rows in
    lexicographic order, each with the index of its first occurrence. *)
Definition unique_rows (rows : list (list Z)) : list (list Z * nat) :=
  let indexed := imap (fun k row => (row, k)) rows in
  let firsts :=
    filter (fun e : list Z * nat =>
              (fst <$> list_find (fun r => r = e.1) rows) = Some e.2) indexed in
  merge_sort row_before firsts.

(** The rows of the buffer that the mode keeps, as indices into the buffer.
    [n] is the number of directions. *)
Definition select_indices (mode : string) (top : Z) (n : nat) (potential : list Z)
  : result (list nat) :=
  let count := length potential in
  if bool_decide (mode ∈ ["best_for_each"; "best_for_each_independent"]) then
    if top <? 0 then Raise (ValueError "repeats may not contain negative values.")
    else if bool_decide (count = 0%nat) then Ok []
    else if (1 <=? top) && (top <=? Z.of_nat n) then
      Ok (g ← seq 0 (count / n);
          (fun j => (j + g * n)%nat)
            <$> drop (n - Z.to_nat top) (argsort (take n (drop (g * n) potential))))
    else Raise (ValueError "operands could not be broadcast together")
  else if bool_decide (mode = "best_for_all") then
    let positive := Z.max 0 <$> potential in
    let sums := (fun d => sum_list ((fun g => default 0 (positive !! (d + g * n)%nat))
                                      <$> seq 0 (count / n))) <$> seq 0 n in
    Ok ((fun g => (argmax sums + g * n)%nat) <$> seq 0 (count / n))
  else Ok (seq 0 count).

(** The last lines of [_make_locations]: heights clipped into the volume and
    the two identifier columns put in front. *)
Definition finish_row (depth c2 : Z) (row : list Z) : list Z :=
  match row with
  | [o; i0; x0; h0; i1; x1; h1] =>
      [-1; -1; o; i0; x0; clip h0 0 (depth - c2); i1; x1; clip h1 (0 + c2) depth]
  | _ => -1 :: -1 :: row
  end.

(** The selection part of [_make_locations], from the buffer of candidates
    and their potentials to the final locations and potentials. *)
Definition select_locations (mode : string) (top threshold : Z) (n : nat)
    (depth c2 : Z) (buffer : list (list Z)) (potential : list Z)
  : result (list (list Z) * list Z) :=
  let* indices := select_indices mode top n potential in
  let potential := pick potential indices in
  let buffer := pick buffer indices in
  let uniq := unique_rows buffer in
  let potential := pick potential (snd <$> uniq) in
  let buffer := fst <$> uniq in
  let kept := filter (fun e : list Z * Z => threshold < e.2) (zip buffer potential) in
  Ok (finish_row depth c2 <$> (fst <$> kept), snd <$> kept).

(** The coverage matrix that [_make_locations] starts from: dead traces and
    the cells where the horizon is present. *)
Definition initial_coverage (zero_traces : list (list Z)) (full_matrix : list (list Z))
  : result (list (list bool)) :=
  let coverage := mmap (fun v => negb (v =? 0)) zero_traces in
  let mask := mmap (fun v => bool_decide (0 < v)) full_matrix in
  if bool_decide (length <$> mask = length <$> coverage)
  then Ok (Horizon.assign_masked mask true coverage)
  else Raise IndexError.

(** The buffer of candidates: for each boundary point, one row per direction.
    [permutation] is the value of [np.random.permutation(n_directions)],
    which is drawn only when the coverage matrix is updated and [randomize]
    is set. *)
Definition candidates (limit : nat) (h : Horizon.horizon) (crop_shape : Z * Z * Z)
    (stride : Z) (directions : list string) (shuffle : option (list nat))
  : result (list (list Z)) :=
  let '(n0, n1, _) := Horizon.shape (Horizon.field_of h) in
  let* bm := Horizon.binary_matrix limit h in
  let border_points := rows_where 0 (boundaries bm.1) in
  let* m := Horizon.matrix_array limit bm.2 in
  match Horizon.i_min m.2, Horizon.x_min m.2 with
  | Some i_min, Some x_min =>
      let* points :=
        foldr (fun (ij : Z * Z) acc =>
                 let* rest := acc in
                 let* height := getitem2 m.1 ij.1 ij.2 in
                 Ok ((int32 (ij.1 + i_min), int32 (ij.2 + x_min),
                      int32 (height - crop_shape.2 / 2)) :: rest))
              (Ok []) border_points in
      let ordered := filter (fun d => d ∈ directions) allowed_directions in
      let ordered := match shuffle with
                     | Some permutation => pick ordered permutation
                     | None => ordered
                     end in
      Ok (p ← points; (fun d => candidate d n0 n1 crop_shape stride p) <$> ordered)
  | _, _ => Raise (TypeError "unsupported operand type(s) for +=: 'int' and 'NoneType'")
  end.

(** [_make_locations]; the diagnostic counters are left out. *)
Definition _make_locations (limit : nat) (h : Horizon.horizon) (crop_shape : Z * Z * Z)
    (stride top threshold prior_threshold : Z) (randomize : bool) (mode : string)
    (directions : list string) (permutation : list nat)
  : result (list (list Z) * list Z) :=
  let f := Horizon.field_of h in
  let* fm := Horizon.full_matrix limit h in
  let* coverage_matrix := initial_coverage (Horizon.zero_traces f) fm.1 in
  let update_coverage_matrix :=
    negb (bool_decide (mode ∈ ["best_for_all"; "best_for_each_independent"])) in
  let shuffle := if randomize && update_coverage_matrix then Some permutation else None in
  let* buffer := candidates limit h crop_shape stride directions shuffle in
  let* scored := compute_potential buffer coverage_matrix crop_shape stride
                   prior_threshold update_coverage_matrix in
  select_locations mode top threshold (length directions) (Horizon.shape f).2
    crop_shape.2 buffer scored.1.

(** [ExtensionGrid(horizon, crop_shape, ...)]. *)
Definition init (limit : nat) (h : Horizon.horizon) (crop_shape : Z * Z * Z)
    (stride batch_size top threshold prior_threshold : Z) (randomize : bool)
    (mode : string) (permutation : list nat) : result grid :=
  let* directions := directions_of mode in
  let* made := _make_locations limit h crop_shape stride top threshold prior_threshold
                 randomize mode directions permutation in
  Ok {| locations := made.1; potential := made.2; crop_shape := crop_shape;
        orientation := 0; origin := (0, 0, 0); endpoint := (0, 0, 0);
        batch_size := batch_size |}.

End ExtensionGrid.

(** ** The history of an extension: [LocationsPotentialContainer] *)

(** [grid.locations, grid.potential = locs, pots]. *)
Definition set_locations_potential (g : grid) (locs : list (list Z)) (pots : list Z)
  : grid :=
  {| locations := locs; potential := pots; crop_shape := crop_shape g;
     orientation := orientation g; origin := origin g; endpoint := endpoint g;
     batch_size := batch_size g |}.

Definition grid_entries (g : grid) : list (list Z * Z) := zip (locations g) (potential g).

Module LocationsPotentialContainer.

(** The location records and the potentials of a grid. *)
Definition grid_locations (g : grid) : list (list Z) := locations g.
Definition grid_potential (g : grid) : list Z := potential g.

(** The container.  A row of [locations] is one record of the structured
    view of the location array, [potential] is the column of the potentials,
    and the two counters are the entries of [stats]. *)
Record container : Type := {
  locations : list (list Z);
  potential : list Z;
  repeated_locations : list Z;
  total_repeated_locations : Z;
}.

(** [LocationsPotentialContainer(locations=None, potential=None)]. *)
Definition init (locs : option (list (list Z))) (pots : option (list Z)) : container :=
  {| locations := default [] locs; potential := default [] pots;
     repeated_locations := []; total_repeated_locations := 0 |}.

(** [update_grid(grid)], for a grid whose rows have the columns of the
    container; the result is the container and the grid after the call. *)
Definition update_grid (self : container) (g : grid) : result (container * grid) :=
  let grid_locations := grid_locations g in
  let grid_potential := grid_potential g in
  let repeated_locations_mask := in1d grid_locations (locations self) in
  let repeated_potential := in1d grid_potential (potential self) in
  let* repeated_locations_potential :=
    logical_and repeated_locations_mask repeated_potential in
  let* new_locations := bool_index grid_locations (negb <$> repeated_locations_potential) in
  let* new_potential := bool_index grid_potential (negb <$> repeated_locations_potential) in
  let repeated := Z.of_nat (length grid_locations) - Z.of_nat (length new_locations) in
  let stats_list := repeated_locations self ++ [repeated] in
  let stats_total := total_repeated_locations self + repeated in
  let updated := set_locations_potential g in
  if bool_decide (0 < length new_locations)%nat then
    if bool_decide (0 < length (locations self))%nat then
      let repeated_locations_history := in1d (locations self) new_locations in
      let* locs := bool_index (locations self) (negb <$> repeated_locations_history) in
      let* pots := bool_index (potential self) (negb <$> repeated_locations_history) in
      Ok ({| locations := locs ++ new_locations; potential := pots ++ new_potential;
             repeated_locations := stats_list; total_repeated_locations := stats_total |},
          updated new_locations new_potential)
    else
      Ok ({| locations := new_locations; potential := new_potential;
             repeated_locations := stats_list; total_repeated_locations := stats_total |},
          updated new_locations new_potential)
  else
    Ok ({| locations := locations self; potential := potential self;
           repeated_locations := stats_list; total_repeated_locations := stats_total |},
        updated [] []).

(** The (location, potential) pairs of a container and of a grid. *)
Definition entries (self : container) : list (list Z * Z) :=
  zip (locations self) (potential self).

End LocationsPotentialContainer.

(** ** Faults: labelling a mask in chunks, [fault.py] *)

(** [scipy.ndimage.measurements.label] with the full 3 x 3 x 3 structure, as
    the library documents it: the set voxels are split into their
    26-connected components, and the components are numbered from 1 in the
    order in which the scan of the array in C order meets their first
    voxel. *)
Module Scipy.

Definition adjacent (p q : point) : bool :=
  let '(pi, px, ph) := p in
  let '(qi, qx, qh) := q in
  (Z.abs (pi - qi) <=? 1) && (Z.abs (px - qx) <=? 1) && (Z.abs (ph - qh) <=? 1).

(** The voxels of [rest] that are connected to [comp] are moved to it, round
    by round; [length rest] rounds are enough. *)
Fixpoint grow (rounds : nat) (comp rest : list point) : list point * list point :=
  match rounds with
  | O => (comp, rest)
  | S rounds' =>
      let near := filter (fun q => existsb (adjacent q) comp = true) rest in
      let far := filter (fun q => existsb (adjacent q) comp = false) rest in
      match near with
      | [] => (comp, rest)
      | _ :: _ => grow rounds' (comp ++ near) far
      end
  end.

(** The voxels in scan order, each with the number of its component, and the
    number of components; [next] is the first free number. *)
Fixpoint components (rounds : nat) (next : Z) (voxels : list point)
  : list (point * Z) * Z :=
  match rounds, voxels with
  | S rounds', p :: rest =>
      let grown := grow (length rest) [p] rest in
      let others := components rounds' (next + 1) grown.2 in
      (((fun q => (q, next)) <$> grown.1) ++ others.1, others.2)
  | _, _ => ([], next - 1)
  end.

(** [np.where(a)] of a three-dimensional boolean array: the set voxels in
    C order. *)
Definition where3 (a : list (list (list bool))) : list point :=
  mjoin (imap (fun i plane =>
    mjoin (imap (fun x row =>
      mjoin (imap (fun h (b : bool) =>
        if b then [(Z.of_nat i, Z.of_nat x, Z.of_nat h)] else []) row)) plane)) a).

(** The array of labels, 0 on the background, and the number of objects. *)
Definition label (item : list (list (list bool))) : list (list (list Z)) * Z :=
  let voxels := where3 item in
  let numbered := components (length voxels) 1 voxels in
  (imap (fun i plane =>
     imap (fun x row =>
       imap (fun h (b : bool) =>
         if b
         then default 0 (snd <$> head (filter (fun e : point * Z =>
                 e.1 = (Z.of_nat i, Z.of_nat x, Z.of_nat h)) numbered.1))
         else 0) row) plane) item,
   numbered.2).

End Scipy.

Module Fault.

(** A row [(i, x, h, label)] of the array of labelled points. *)
Definition labelled : Type := point * Z.

(** [np.where(chunk_labels)] stacked with [chunk_labels[...] + n_objects]:
    the voxels with a label other than 0, in C order. *)
Definition stack_labels (chunk_labels : list (list (list Z))) (n_objects : Z)
  : list labelled :=
  mjoin (imap (fun i plane =>
    mjoin (imap (fun x row =>
      mjoin (imap (fun h (v : Z) =>
        if v =? 0 then []
        else [((Z.of_nat i, Z.of_nat x, Z.of_nat h), v + n_objects)]) row)) plane))
    chunk_labels).

(** [rows[rows[:, 0] < bound, 3]] and [rows[rows[:, 0] >= bound, 3]]. *)
Definition labels_below (bound : Z) (rows : list labelled) : list Z :=
  snd <$> filter (fun r : labelled => r.1.1.1 < bound) rows.

Definition labels_from (bound : Z) (rows : list labelled) : list Z :=
  snd <$> filter (fun r : labelled => bound <= r.1.1.1) rows.

(** [(a != b).any()] for two one-dimensional arrays.  Arrays of different
    lengths are compared only when one of them has length one; otherwise
    NumPy raises (releases before 1.25 answer with the scalar [True], and
    then [.any()] fails with an [AttributeError]). *)
Definition not_equal_any (a b : list Z) : result bool :=
  if bool_decide (length a = length b)
  then Ok (existsb (fun e : Z * Z => negb (e.1 =? e.2)) (zip a b))
  else if bool_decide (length a = 1%nat)
  then Ok (existsb (fun y => negb (default 0 (a !! 0%nat) =? y)) b)
  else if bool_decide (length b = 1%nat)
  then Ok (existsb (fun x => negb (x =? default 0 (b !! 0%nat))) a)
  else Raise (ValueError "operands could not be broadcast together").

(** A Python dict from labels to labels, in insertion order. *)
Fixpoint dict_set (d : list (Z * Z)) (k v : Z) : list (Z * Z) :=
  match d with
  | [] => [(k, v)]
  | (k', v') :: d' => if k' =? k then (k', v) :: d' else (k', v') :: dict_set d' k v
  end.

(** [{k: v for k, v in zip(ks, vs) if k != v}]. *)
Definition transform_of (ks vs : list Z) : list (Z * Z) :=
  foldl (fun d (kv : Z * Z) => if kv.1 =? kv.2 then d else dict_set d kv.1 kv.2)
        [] (zip ks vs).

(** [for k, v in transform.items(): rows[rows[:, 3] == k, 3] = v]. *)
Definition relabel (rows : list labelled) (k v : Z) : list labelled :=
  (fun r : labelled => if r.2 =? k then (r.1, v) else r) <$> rows.

Definition apply_transform (transform : list (Z * Z)) (rows : list labelled)
  : list labelled :=
  foldl (fun rows (kv : Z * Z) => relabel rows kv.1 kv.2) rows transform.

(** The [while] loop of [from_mask]: [None] when the loop is still running
    after [fuel] passes. *)
Fixpoint reconcile (fuel : nat) (start overlap : Z) (new_labels labels : list labelled)
    (overlapped_labels prev_overlapped_labels : list Z)
  : option (result (list labelled * list labelled)) :=
  match not_equal_any overlapped_labels prev_overlapped_labels with
  | Raise e => Some (Raise e)
  | Ok false => Some (Ok (new_labels, labels))
  | Ok true =>
      match fuel with
      | O => None
      | S fuel' =>
          let transform := transform_of overlapped_labels prev_overlapped_labels in
          let new_labels := apply_transform transform new_labels in
          let overlapped_labels := labels_below overlap new_labels in
          let transform := transform_of prev_overlapped_labels overlapped_labels in
          let labels := apply_transform transform labels in
          let prev_overlapped_labels := labels_from (start - overlap + 1) labels in
          reconcile fuel' start overlap new_labels labels
            overlapped_labels prev_overlapped_labels
      end
  end.

(** The state of the loop over the chunks. *)
Record state : Type := {
  prev_overlapped_labels : option (list Z);
  labels : list labelled;
  n_objects : Z;
}.

(** The body of the loop over the chunks, for the chunk [item] that starts
    at [start]. *)
Definition chunk_step (fuel : nat) (overlap : Z) (s : state)
    (start : Z) (item : list (list (list bool))) : option (result state) :=
  let '(chunk_labels, new_objects) := Scipy.label item in
  let new_labels := stack_labels chunk_labels (n_objects s) in
  let overlapped_labels := labels_below overlap new_labels in
  let reconciled :=
    match prev_overlapped_labels s with
    | Some prev => reconcile fuel start overlap new_labels (labels s) overlapped_labels prev
    | None => Some (Ok (new_labels, labels s))
    end in
  match reconciled with
  | None => None
  | Some (Raise e) => Some (Raise e)
  | Some (Ok (new_labels, labels)) =>
      let new_labels :=
        if start =? 0 then new_labels
        else filter (fun r : labelled => overlap <= r.1.1.1) new_labels in
      let new_labels :=
        (fun r : labelled => ((r.1.1.1 + start, r.1.1.2, r.1.2), r.2)) <$> new_labels in
      let labels := labels ++ new_labels in
      Some (Ok {| prev_overlapped_labels :=
                    Some (labels_from (start + Z.of_nat (length item) - overlap) labels);
                  labels := labels;
                  n_objects := n_objects s + new_objects |})
  end.

Fixpoint chunk_loop (fuel : nat) (overlap : Z) (s : state)
    (chunks : list (Z * list (list (list bool)))) : option (result state) :=
  match chunks with
  | [] => Some (Ok s)
  | (start, item) :: chunks' =>
      match chunk_step fuel overlap s start item with
      | Some (Ok s') => chunk_loop fuel overlap s' chunks'
      | other => other
      end
  end.

(** [range(start, stop, step)]. *)
Definition range (start stop step : Z) : result (list Z) :=
  if step =? 0 then Raise (ValueError "range() arg 3 must not be zero")
  else Ok ((fun k => start + k * step) <$> seqZ 0 (Z.max 0 (- ((start - stop) / step)))).

(** A stable sort by an integer key, ascending. *)
Fixpoint insert_sorted {A} (key : A -> Z) (a : A) (l : list A) : list A :=
  match l with
  | [] => [a]
  | b :: l' => if key b <=? key a then b :: insert_sorted key a l' else a :: b :: l'
  end.

Definition stable_sort {A} (key : A -> Z) (l : list A) : list A :=
  foldl (fun sorted a => insert_sorted key a sorted) [] l.

(** Modelled from the spec: [split_array] of [utils] cuts the points, which
    are sorted by label, into one array for each label (section 4.4: each
    component is the set of points that share a final label). *)
Definition split_array (rows : list labelled) : list (list point) :=
  snd <$> foldr (fun (r : labelled) (groups : list (Z * list point)) =>
                   match groups with
                   | (k, group) :: groups' =>
                       if r.2 =? k then (k, r.1 :: group) :: groups'
                       else (r.2, [r.1]) :: groups
                   | [] => [(r.2, [r.1])]
                   end) [] rows.

Definition ptp (l : list Z) : Z := foldr Z.max (default 0 (head l)) l
                                    - foldr Z.min (default 0 (head l)) l.

(** [faults_sizes] computes [(i_len ** 2 + x_len ** 2) ** 0.5]; the square of
    the size is kept here, which orders the components in the same way. *)
Definition fault_size2 (points : list point) : Z :=
  let i_len := ptp ((fun p : point => p.1.1) <$> points) in
  let x_len := ptp ((fun p : point => p.1.2) <$> points) in
  i_len ^ 2 + x_len ^ 2.

(** [Fault.from_mask(array, chunk_size=chunk_size, threshold=threshold,
    overlap=overlap)] for a mask ([fmt='mask'], no field, no [cube_shape]):
    the components with the squares of their sizes, the largest first.  The
    order of the points of one component is the one of a stable [argsort]. *)
Definition from_mask (fuel : nat) (array : list (list (list bool)))
    (chunk_size : option Z) (threshold : option Z) (overlap : Z)
  : option (result (list (Z * list point))) :=
  let len := Z.of_nat (length array) in
  let chunk_size := match chunk_size with
                    | Some c => if c =? 0 then len else c
                    | None => len
                    end in
  let overlap := if chunk_size =? len then 0 else overlap in
  match range 0 len (chunk_size - overlap) with
  | Raise e => Some (Raise e)
  | Ok starts =>
      let chunks := (fun start => (start, pyslice array start (start + chunk_size)))
                      <$> starts in
      match chunk_loop fuel overlap
              {| prev_overlapped_labels := None; labels := []; n_objects := 0 |} chunks with
      | None => None
      | Some (Raise e) => Some (Raise e)
      | Some (Ok s) =>
          let sorted := stable_sort (fun r : labelled => r.2) (labels s) in
          let groups := split_array sorted in
          let sized := (fun g => (fault_size2 g, g)) <$> groups in
          let ordered := stable_sort (fun e : Z * list point => - e.1) sized in
          Some (Ok (match threshold with
                    | Some t =>
                        if t =? 0 then ordered
                        else filter (fun e : Z * list point => t <= 0 \/ t * t <= e.1) ordered
                    | None => ordered
                    end))
      end
  end.

End Fault.

(** ** BaseGrid: iteration and joining, [grids.py] *)

Module BaseGrid.

(** What [next] gives on a generator: a value, the end of the iteration, or
    an exception raised on the way. *)
Inductive outcome (A : Type) : Type :=
| Yield (a : A)
| StopIteration
| Fail (e : exn).
Arguments Yield {A} a.
Arguments StopIteration {A}.
Arguments Fail {A} e.

(** [make_iterator]: the generator
    [(self.locations[i:i+self.batch_size] for i in range(0, len(self), self.batch_size))].
    Its range is made when the generator is, the locations and the batch
    size are read at each step; so the generator is kept as the starts that
    are still to come. *)
Definition make_iterator (g : grid) : result (list Z) :=
  Fault.range 0 (Z.of_nat (length (locations g))) (batch_size g).

(** [next_batch], that is [next(self.iterator)]: [_iterator] is [None] until
    the first call makes the generator. *)
Definition next_batch (_iterator : option (list Z)) (g : grid)
  : outcome (list (list Z)) * option (list Z) :=
  let step (starts : list Z) : outcome (list (list Z)) * option (list Z) :=
    match starts with
    | [] => (StopIteration, Some [])
    | i :: rest => (Yield (pyslice (locations g) i (i + batch_size g)), Some rest)
    end in
  match _iterator with
  | Some starts => step starts
  | None =>
      match make_iterator g with
      | Ok starts => step starts
      | Raise e => (Fail e, None)
      end
  end.

(** The outcome of the call number [k] (from 0) of [next_batch] on a grid
    that is not changed between the calls. *)
Fixpoint nth_batch (k : nat) (_iterator : option (list Z)) (g : grid)
  : outcome (list (list Z)) :=
  match k with
  | O => (next_batch _iterator g).1
  | S k' => nth_batch k' (next_batch _iterator g).2 g
  end.

(** The class of an instance, for the [isinstance] tests. *)
Inductive grid_class : Type := BaseGridClass | RegularGridClass | ExtensionGridClass.

(** The attributes of a grid that [join] reads.  An [ExtensionGrid] assigns
    neither [orientation] nor [origin] nor [endpoint], which is [None]
    here. *)
Record instance : Type := {
  cls : grid_class;
  field_name : string;
  label_name : string;
  inst_locations : list (list Z);
  inst_batch_size : Z;
  inst_orientation : option Z;
  inst_origin : option (Z * Z * Z);
  inst_endpoint : option (Z * Z * Z);
}.

(** A column of a two-dimensional array. *)
Definition column (k : nat) (rows : list (list Z)) : list Z :=
  (fun row => default 0 (row !! k)) <$> rows.

(** [actual_origin] and [actual_endpoint]. *)
Definition actual_origin (rows : list (list Z)) : result (Z * Z * Z) :=
  let* a := Horizon.np_min (column 3 rows) in
  let* b := Horizon.np_min (column 4 rows) in
  let* c := Horizon.np_min (column 5 rows) in
  Ok (int32 a, int32 b, int32 c).

Definition actual_endpoint (rows : list (list Z)) : result (Z * Z * Z) :=
  let* a := Horizon.np_max (column 6 rows) in
  let* b := Horizon.np_max (column 7 rows) in
  let* c := Horizon.np_max (column 8 rows) in
  Ok (int32 a, int32 b, int32 c).

(** [np.minimum] and [np.maximum] of two triples. *)
Definition minimum3 (a b : Z * Z * Z) : Z * Z * Z :=
  (Z.min a.1.1 b.1.1, Z.min a.1.2 b.1.2, Z.min a.2 b.2).

Definition maximum3 (a b : Z * Z * Z) : Z * Z * Z :=
  (Z.max a.1.1 b.1.1, Z.max a.1.2 b.1.2, Z.max a.2 b.2).

(** An attribute that the instance may not have. *)
Definition getattr {A} (name : string) (v : option A) : result A :=
  match v with
  | Some a => Ok a
  | None => Raise (AttributeError name)
  end.

(** [join] for another instance of [BaseGrid] whose locations have the
    columns of the own ones. *)
Definition join (self other : instance) : result instance :=
  if bool_decide (field_name self <> field_name other)
  then Raise (ValueError "Grids should be for the same field!")
  else
    let locations :=
      fst <$> ExtensionGrid.unique_rows (inst_locations self ++ inst_locations other) in
    let batch_size := Z.min (inst_batch_size self) (inst_batch_size other) in
    let* self_orientation := getattr "orientation" (inst_orientation self) in
    let* other_orientation := getattr "orientation" (inst_orientation other) in
    let orientation :=
      if self_orientation =? other_orientation then self_orientation else 2 in
    let* self_origin :=
      match cls self with
      | RegularGridClass => getattr "origin" (inst_origin self)
      | _ => actual_origin (inst_locations self)
      end in
    let* other_origin :=
      match cls other with
      | RegularGridClass => getattr "origin" (inst_origin other)
      | _ => actual_origin (inst_locations other)
      end in
    let origin := minimum3 self_origin other_origin in
    let* self_endpoint :=
      match cls self with
      | RegularGridClass => getattr "endpoint" (inst_endpoint self)
      | _ => actual_endpoint (inst_locations self)
      end in
    let* other_endpoint :=
      match cls other with
      | RegularGridClass => getattr "endpoint" (inst_endpoint other)
      | _ => actual_endpoint (inst_locations other)
      end in
    let endpoint := maximum3 self_endpoint other_endpoint in
    let label_name :=
      match cls other with
      | ExtensionGridClass => label_name other
      | _ => label_name self
      end in
    Ok {| cls := BaseGridClass; field_name := field_name self; label_name := label_name;
          inst_locations := locations; inst_batch_size := batch_size;
          inst_orientation := Some orientation; inst_origin := Some origin;
          inst_endpoint := Some endpoint |}.

(** A [RegularGrid] and an [ExtensionGrid] as instances. *)
Definition of_regular (name label : string) (g : grid) : instance :=
  {| cls := RegularGridClass; field_name := name; label_name := label;
     inst_locations := locations g; inst_batch_size := batch_size g;
     inst_orientation := Some (orientation g); inst_origin := Some (origin g);
     inst_endpoint := Some (endpoint g) |}.

Definition of_extension (name label : string) (g : grid) : instance :=
  {| cls := ExtensionGridClass; field_name := name; label_name := label;
     inst_locations := locations g; inst_batch_size := batch_size g;
     inst_orientation := None; inst_origin := None; inst_endpoint := None |}.

End BaseGrid.

(** ** LoopedList, [utils/classes.py] *)

Module LoopedList.

Record looped_list (A : Type) : Type := {
  items : list A;
  loop_from : Z;
}.
Arguments items {A} l.
Arguments loop_from {A} l.

(** [list.__getitem__] for an integer. *)
Definition list_getitem {A} (l : list A) (idx : Z) : result A :=
  match norm_index (length l) idx with
  | Some i =>
      match l !! i with
      | Some v => Ok v
      | None => Raise IndexError
      end
  | None => Raise IndexError
  end.

(** [__getitem__]; [%] is the modulo of Python, with the sign of the
    divisor, and a zero divisor is an error. *)
Definition getitem {A} (l : looped_list A) (idx : Z) : result A :=
  let len := Z.of_nat (length (items l)) in
  if len <=? idx then
    let pos := loop_from l + len * (if loop_from l <? 0 then 1 else 0) in
    if pos <? 0 then Raise IndexError
    else if len - pos =? 0 then Raise ZeroDivisionError
    else list_getitem (items l) (pos + (idx - pos) mod (len - pos))
  else list_getitem (items l) idx.

End LoopedList.

(** The lexicographic order of rows, in which [np.unique] with [axis=0]
    returns them. *)
Definition row_order (a b : list Z) : Prop := ExtensionGrid.row_le a b = true.

(** ** Concrete surfaces used in the examples *)

Module Samples.

(** A cube of shape (2, 2, 10) without dead traces. *)
Definition small_field : Horizon.field :=
  {| Horizon.shape := (2, 2, 10); Horizon.zero_traces := [[0; 0]; [0; 0]] |}.

(** Python's default recursion limit. *)
Definition recursion_limit : nat := 1000.

(** The surface with depth 5 at (0, 0) and depth 7 at (1, 1). *)
Definition two_points : list (list Z) := [[0; 0; 5]; [1; 1; 7]].

(** A filtering matrix that removes the cell (1, 1). *)
Definition drop_11 : list (list Z) := [[0; 0]; [0; 1]].

(** The surfaces {(0, 0): 5, (1, 1): 7} and {(1, 1): 7} of [small_field], as
    the constructor builds them from point arrays. *)
Definition surface_a : Horizon.horizon :=
  Eval vm_compute in
    match Horizon.init recursion_limit small_field 3 [[0; 0; 5]; [1; 1; 7]] None with
    | Ok h => h
    | Raise _ => Horizon.blank small_field
    end.


(** A volume of shape (25, 10, 10) and one of shape (50, 60, 40), all traces
    alive. *)
Definition volume_25 : Horizon.field :=
  {| Horizon.shape := (25, 10, 10);
     Horizon.zero_traces := replicate 25 (replicate 10 0) |}.

Definition volume_50_60_40 : Horizon.field :=
  {| Horizon.shape := (50, 60, 40);
     Horizon.zero_traces := replicate 50 (replicate 60 0) |}.

(** A cube of shape (3, 3, 10) without dead traces, the surface with depth 5
    at (0, 1) and (1, 1), and the extension grid built on it upwards with
    crops of shape (3, 3, 2), [stride=1], [threshold=4] and
    [prior_threshold=2]. *)
Definition volume_3 : Horizon.field :=
  {| Horizon.shape := (3, 3, 10); Horizon.zero_traces := replicate 3 (replicate 3 0) |}.

Definition surface_c : Horizon.horizon :=
  Eval vm_compute in
    match Horizon.init recursion_limit volume_3 3 [[0; 1; 5]; [1; 1; 5]] None with
    | Ok h => h
    | Raise _ => Horizon.blank volume_3
    end.

Definition grid_c : grid :=
  Eval vm_compute in
    match ExtensionGrid.init recursion_limit surface_c (3, 3, 2) 1 64 1 4 2 false
            "up" [0%nat] with
    | Ok g => g
    | Raise _ => {| locations := []; potential := []; crop_shape := (0, 0, 0);
                    orientation := 0; origin := (0, 0, 0); endpoint := (0, 0, 0);
                    batch_size := 0 |}
    end.

(** Two locations of an extension grid, and two grids that hold them: the
    first gives them the potentials 5 and 7, the second holds the first
    location again, now with the potential 7. *)
Definition location_a : list Z := [-1; -1; 0; 0; 0; 4; 3; 3; 6].
Definition location_b : list Z := [-1; -1; 0; 1; 0; 4; 4; 3; 6].

Definition grid_of (locs : list (list Z)) (pots : list Z) : grid :=
  {| locations := locs; potential := pots; crop_shape := (3, 3, 2); orientation := 0;
     origin := (0, 0, 0); endpoint := (0, 0, 0); batch_size := 64 |}.

Definition grid_first : grid := grid_of [location_a; location_b] [5; 7].
Definition grid_second : grid := grid_of [location_a] [7].

(** A mask of shape (6, 5, 1) with the voxel (2, 4, 0) and, more than one
    voxel away from it, the voxels (3, 0, 0) and (4, 0, 0). *)
Definition mask_two_seeds : list (list (list bool)) :=
  [ [[false]; [false]; [false]; [false]; [false]];
    [[false]; [false]; [false]; [false]; [false]];
    [[false]; [false]; [false]; [false]; [true]];
    [[true]; [false]; [false]; [false]; [false]];
    [[true]; [false]; [false]; [false]; [false]];
    [[false]; [false]; [false]; [false]; [false]] ].

(** A cube of shape (2, 2, 10) all of whose traces are dead. *)
Definition dead_field : Horizon.field :=
  {| Horizon.shape := (2, 2, 10); Horizon.zero_traces := [[1; 1]; [1; 1]] |}.

(** Two regular grids of the field "cube" as instances, and their join. *)
Definition instance_first : BaseGrid.instance := BaseGrid.of_regular "cube" "a" grid_first.
Definition instance_second : BaseGrid.instance := BaseGrid.of_regular "cube" "b" grid_second.
Definition instance_joined : BaseGrid.instance :=
  {| BaseGrid.cls := BaseGrid.BaseGridClass; BaseGrid.field_name := "cube";
     BaseGrid.label_name := "b"; BaseGrid.inst_locations := [location_a; location_b];
     BaseGrid.inst_batch_size := 64; BaseGrid.inst_orientation := Some 0;
     BaseGrid.inst_origin := Some (0, 0, 0); BaseGrid.inst_endpoint := Some (0, 0, 0) |}.

(** The coverage of a 3 x 3 cube with the cells (0, 1) and (1, 1) covered,
    the full coverage, and twice the candidate that spans the cube. *)
Definition coverage_c : list (list bool) :=
  [[false; true; false]; [false; true; false]; [false; false; false]].
Definition coverage_full : list (list bool) := replicate 3 (replicate 3 true).
Definition candidates_c : list (list Z) := [[0; 0; 0; 4; 3; 3; 6]; [0; 0; 0; 4; 3; 3; 6]].

End Samples.

(* ===================================================================== *)
(** * Properties *)
(* ===================================================================== *)

(** Componentwise equality of coordinate tuples. *)
Ltac tuple_eq :=
  repeat match goal with |- (_, _) = (_, _) => f_equal end; try lia.

(** ** NumPy fragments *)

Lemma int32_id z : fits_int32 z -> int32 z = z.
Proof.
  unfold fits_int32, int32. intros Hz.
  rewrite Z.mod_small by lia. lia.
Qed.

Lemma norm_index_in_range len i :
  0 <= i < Z.of_nat len -> norm_index len i = Some (Z.to_nat i).
Proof.
  intros Hi. unfold norm_index.
  destruct (0 <=? i) eqn:E1; [|lia].
  destruct (i <? Z.of_nat len) eqn:E2; [done|lia].
Qed.

Lemma get2_setitem2 (m m' : matrix Z) r c v i j :
  setitem2 m r c v = Ok m' ->
  0 <= r -> 0 <= c ->
  get2 m' i j =
    if decide (i = Z.to_nat r /\ j = Z.to_nat c) then Some v else get2 m i j.
Proof.
  unfold setitem2, norm_index. intros Hset Hr Hc.
  destruct (0 <=? r) eqn:E1; [|lia].
  destruct (r <? Z.of_nat (length m)) eqn:E2; simpl in Hset;
    [|destruct (- Z.of_nat (length m) <=? r); simpl in Hset;
      try (destruct (r <? 0) eqn:E3; [lia|]); done].
  destruct (m !! Z.to_nat r) as [row|] eqn:Hrow; [|done].
  destruct (0 <=? c) eqn:E4; [|lia].
  destruct (c <? Z.of_nat (length row)) eqn:E5; simpl in Hset;
    [|destruct (- Z.of_nat (length row) <=? c); simpl in Hset;
      try (destruct (c <? 0) eqn:E6; [lia|]); done].
  injection Hset as <-. unfold get2.
  destruct (decide (i = Z.to_nat r)) as [->|Hi].
  - rewrite list_lookup_insert_eq by (apply lookup_lt_Some in Hrow; lia). simpl.
    rewrite Hrow. simpl.
    destruct (decide (j = Z.to_nat c)) as [->|Hj].
    + rewrite list_lookup_insert_eq by lia.
      rewrite decide_True; done.
    + rewrite list_lookup_insert_ne by done.
      rewrite decide_False; [done|]. intros [_ ?]. done.
  - rewrite list_lookup_insert_ne by done.
    rewrite decide_False; [done|]. intros [? _]. done.
Qed.

(** ** Horizon: the two storages *)

Section RoundTrip.
Import Horizon.

Lemma elem_of_row_to_points i j (row : list Z) p :
  p ∈ row_to_points i j row <->
  exists k v, row !! k = Some v /\ v <> FILL_VALUE /\ p = (i, j + Z.of_nat k, v).
Proof.
  revert j. induction row as [|v row IH]; intros j; simpl.
  - split; [intros H; inversion H|intros (k & v & H & _); done].
  - rewrite elem_of_app, IH. split.
    + intros [H|(k & w & Hk & Hw & ->)].
      * destruct (Z.eqb_spec v FILL_VALUE) as [|Hv]; [inversion H|].
        apply list_elem_of_singleton in H as ->.
        exists 0%nat, v. repeat split; [done|]. f_equal. f_equal. lia.
      * exists (S k), w. repeat split; [done..|]. f_equal. f_equal. lia.
    + intros (k & w & Hk & Hw & ->). destruct k as [|k]; simpl in Hk.
      * injection Hk as ->. left.
        destruct (Z.eqb_spec w FILL_VALUE) as [|_]; [done|].
        apply list_elem_of_singleton. f_equal. f_equal. lia.
      * right. exists k, w. repeat split; [done..|]. f_equal. f_equal. lia.
Qed.

Lemma elem_of_rows_to_points i (m : list (list Z)) p :
  p ∈ rows_to_points i m <->
  exists a b v, get2 m a b = Some v /\ v <> FILL_VALUE /\
                p = (i + Z.of_nat a, Z.of_nat b, v).
Proof.
  revert i. induction m as [|row m IH]; intros i; simpl.
  - split; [intros H; inversion H|intros (a & b & v & H & _); done].
  - rewrite elem_of_app, IH, elem_of_row_to_points. split.
    + intros [(k & v & Hk & Hv & ->)|(a & b & v & Hg & Hv & ->)].
      * exists 0%nat, k, v. repeat split; [done..|]. f_equal. f_equal. lia.
      * exists (S a), b, v. repeat split; [done..|]. f_equal. f_equal. lia.
    + intros (a & b & v & Hg & Hv & ->). destruct a as [|a].
      * left. exists b, v. repeat split; [done..|]. f_equal. f_equal. lia.
      * right. exists a, b, v. repeat split; [done..|]. f_equal. f_equal. lia.
Qed.

Lemma NoDup_row_to_points i j (row : list Z) : NoDup (row_to_points i j row).
Proof.
  revert j. induction row as [|v row IH]; intros j; simpl; [constructor|].
  destruct (Z.eqb_spec v FILL_VALUE) as [|_]; simpl; [apply IH|].
  constructor; [|apply IH].
  rewrite elem_of_row_to_points. intros (k & w & _ & _ & [=]). lia.
Qed.

Lemma NoDup_rows_to_points i (m : list (list Z)) : NoDup (rows_to_points i m).
Proof.
  revert i. induction m as [|row m IH]; intros i; simpl; [constructor|].
  apply NoDup_app. split; [apply NoDup_row_to_points|]. split; [|apply IH].
  intros p. rewrite elem_of_row_to_points, elem_of_rows_to_points.
  intros (k & v & _ & _ & ->) (a & b & w & _ & _ & [=]). lia.
Qed.

Lemma setitem2_in_range (m : list (list Z)) k r c v :
  rect k m -> 0 <= r < Z.of_nat (length m) -> 0 <= c < Z.of_nat k ->
  exists m', setitem2 m r c v = Ok m' /\ rect k m' /\ length m' = length m.
Proof.
  intros Hrect Hr Hc. unfold setitem2.
  rewrite norm_index_in_range by done.
  destruct (lookup_lt_is_Some_2 m (Z.to_nat r)) as [row Hrow]; [lia|].
  rewrite Hrow.
  assert (length row = k) as Hlen.
  { eapply (proj1 (Forall_lookup _ _) Hrect); done. }
  rewrite norm_index_in_range by lia.
  eexists. split; [done|]. split; [|by rewrite length_insert].
  apply Forall_insert; [done|]. by rewrite length_insert.
Qed.

Lemma scatter_spec (P : list point) i_min x_min k (m0 : list (list Z)) :
  NoDup (keys P) ->
  rect k m0 ->
  Forall (valid_point i_min x_min (Z.of_nat (length m0)) (Z.of_nat k)) P ->
  exists m, scatter P i_min x_min m0 = Ok m /\ rect k m /\ length m = length m0 /\
    forall a b v, get2 m a b = Some v <->
      (exists i x, (i, x, v) ∈ P /\ a = Z.to_nat (i - i_min) /\ b = Z.to_nat (x - x_min))
      \/ (get2 m0 a b = Some v /\
          forall i x h, (i, x, h) ∈ P ->
            ~ (a = Z.to_nat (i - i_min) /\ b = Z.to_nat (x - x_min))).
Proof.
  revert m0. induction P as [|[[i x] h] P IH]; intros m0 Hnd Hrect Hval.
  - exists m0. repeat split; [done| |].
    + intros H. right. split; [done|]. intros i x h Hin. inversion Hin.
    + intros [(i & x & H & _)|[H _]]; [inversion H|done].
  - simpl in Hnd. apply NoDup_cons in Hnd as [Hfresh Hnd].
    apply Forall_cons in Hval as [Hp Hval].
    destruct Hp as (Hi & Hx & Hh & _ & Hbi & Hbx). simpl in *.
    rewrite !int32_id by done.
    destruct (setitem2_in_range m0 k (i - i_min) (x - x_min) h) as (m1 & Hset & Hrect1 & Hlen1);
      [done|lia|lia|].
    rewrite Hset. simpl.
    destruct (IH m1) as (m & Hsc & Hrectm & Hlenm & Hget); [done|done|by rewrite Hlen1|].
    exists m. split; [done|]. split; [done|]. split; [congruence|].
    intros a b v. rewrite Hget.
    rewrite (get2_setitem2 m0 m1 _ _ _ a b Hset) by lia.
    split.
    + intros [(i' & x' & Hin & -> & ->)|[Hg Hnot]].
      * left. exists i', x'. split; [by right|done].
      * destruct (decide _) as [[-> ->]|Hne].
        -- injection Hg as <-. left. exists i, x. split; [by left|done].
        -- right. split; [done|]. intros i' x' h' Hin.
           apply elem_of_cons in Hin as [[= -> -> ->]|Hin]; [done|by eapply Hnot].
    + intros [(i' & x' & Hin & -> & ->)|[Hg Hnot]].
      * apply elem_of_cons in Hin as [[= -> -> ->]|Hin].
        -- right. rewrite decide_True by done. split; [done|].
           intros i' x' h' Hin [E1 E2].
           apply Hfresh. unfold keys. apply list_elem_of_fmap.
           exists (i', x', h'). split; [|done]. simpl.
           apply (proj1 (Forall_forall _ _) Hval) in Hin.
           destruct Hin as (_ & _ & _ & _ & Hbi' & Hbx'). simpl in *.
           f_equal; lia.
        -- left. exists i', x'. done.
      * right. rewrite decide_False.
        -- split; [done|]. intros i' x' h' Hin. apply (Hnot i' x' h'). by right.
        -- apply (Hnot i x h). by left.
Qed.

(** C1. A point set with pairwise distinct (axis0, axis1) keys, [int32]
    depths other than [FILL_VALUE] and coordinates inside the bounding box
    survives [points_to_matrix] followed by [matrix_to_points] and the shift
    back by [(i_min, x_min)]: the conversion succeeds and the result is a
    permutation of the input. *)
Theorem C1_points_matrix_roundtrip (P : list point) i_min x_min i_length x_length :
  0 <= i_length -> 0 <= x_length ->
  NoDup (keys P) ->
  Forall (valid_point i_min x_min i_length x_length) P ->
  exists m, points_to_matrix P i_min x_min i_length x_length = Ok m /\
            shift_points i_min x_min (matrix_to_points m) ≡ₚ P.
Proof.
  intros Hil Hxl Hnd Hval. unfold points_to_matrix, full.
  destruct (i_length <? 0) eqn:E1; [lia|]. destruct (x_length <? 0) eqn:E2; [lia|].
  simpl.
  set (m0 := replicate (Z.to_nat i_length) (replicate (Z.to_nat x_length) FILL_VALUE)).
  assert (length m0 = Z.to_nat i_length) as Hlen0 by apply length_replicate.
  destruct (scatter_spec P i_min x_min (Z.to_nat x_length) m0) as (m & Hsc & _ & _ & Hget).
  { done. }
  { apply Forall_replicate, length_replicate. }
  { rewrite Hlen0, !Z2Nat.id by lia. done. }
  exists m. split; [done|].
  assert (forall a b v, get2 m0 a b = Some v -> v = FILL_VALUE) as Hfill.
  { intros a b v. unfold get2, m0. intros H.
    apply bind_Some in H as (row & Hrow & Hv).
    apply lookup_replicate in Hrow as [-> _].
    by apply lookup_replicate in Hv as [-> _]. }
  assert (forall p, p ∈ matrix_to_points m <->
            exists i x v, (i, x, v) ∈ P /\ p = (i - i_min, x - x_min, v)) as Hmem.
  { intros p. unfold matrix_to_points. rewrite elem_of_rows_to_points. split.
    - intros (a & b & v & Hg & Hv & ->).
      apply Hget in Hg as [(i & x & Hin & -> & ->)|[Hg _]].
      + exists i, x, v. split; [done|].
        apply (proj1 (Forall_forall _ _) Hval) in Hin.
        destruct Hin as (_ & _ & _ & _ & Hbi & Hbx). simpl in *.
        tuple_eq.
      + by apply Hfill in Hg.
    - intros (i & x & v & Hin & ->).
      pose proof (proj1 (Forall_forall _ _) Hval _ Hin) as (_ & _ & _ & Hv & Hbi & Hbx).
      simpl in *.
      exists (Z.to_nat (i - i_min)), (Z.to_nat (x - x_min)), v.
      split; [|split; [done|tuple_eq]].
      apply Hget. left. exists i, x. done. }
  assert (forall p, p ∈ matrix_to_points m ->
            (int32 (p.1.1 + i_min), int32 (p.1.2 + x_min), int32 (p.2 + 0))
            = (p.1.1 + i_min, p.1.2 + x_min, p.2)) as Hshift.
  { intros p Hp. apply Hmem in Hp as (i & x & v & Hin & ->). simpl.
    apply (proj1 (Forall_forall _ _) Hval) in Hin.
    destruct Hin as (Hi & Hx & Hv & _). simpl in *.
    replace (i - i_min + i_min) with i by lia.
    replace (x - x_min + x_min) with x by lia.
    rewrite Z.add_0_r. by rewrite !int32_id. }
  apply NoDup_Permutation.
  - unfold shift_points. apply NoDup_fmap_2_strong; [|apply NoDup_rows_to_points].
    intros p q Hp Hq. rewrite (Hshift p Hp), (Hshift q Hq).
    destruct p as [[? ?] ?], q as [[? ?] ?]. simpl. intros [=]. tuple_eq.
  - eapply NoDup_fmap_1. exact Hnd.
  - intros q. unfold shift_points. rewrite list_elem_of_fmap. split.
    + intros (p & -> & Hp). rewrite (Hshift p Hp).
      apply Hmem in Hp as (i & x & v & Hin & ->). simpl.
      by replace (i - i_min + i_min) with i by lia;
         replace (x - x_min + x_min) with x by lia.
    + intros Hq. destruct q as [[i x] v].
      assert ((i - i_min, x - x_min, v) ∈ matrix_to_points m) as Hp.
      { apply Hmem. by exists i, x, v. }
      exists (i - i_min, x - x_min, v). split; [|done].
      rewrite (Hshift _ Hp). simpl. tuple_eq.
Qed.

Lemma C1_points_matrix_roundtrip_witness :
  exists m, points_to_matrix [(3, 4, 100); (3, 5, 101); (4, 4, 102)] 3 4 2 2 = Ok m /\
            shift_points 3 4 (matrix_to_points m) ≡ₚ [(3, 4, 100); (3, 5, 101); (4, 4, 102)].
Proof.
  apply C1_points_matrix_roundtrip; [lia|lia| |].
  - apply (bool_decide_unpack _). vm_compute. exact I.
  - repeat (apply Forall_cons_2;
              [unfold valid_point, fits_int32, FILL_VALUE; simpl; lia|]).
    apply Forall_nil_2.
Defined.
End RoundTrip.

(** ** Horizon: empty surfaces *)

Section EmptySurface.
Import Samples.

Lemma points_blank_recursion limit f :
  Horizon.points limit (Horizon.blank f) = Raise RecursionError /\
  Horizon.matrix limit (Horizon.blank f) = Raise RecursionError.
Proof.
  induction limit as [|limit [IHp IHm]]; [done|].
  split; simpl; [rewrite IHm|rewrite IHp]; done.
Qed.

(** C10 fails on the code.  A surface built from a length-0 point array is
    constructed without error, but reading its [matrix] raises [TypeError]
    (the bounding box was never set); and on an instance whose two storages
    are both unset, [points] and [matrix] call each other until the
    interpreter gives up. *)
Lemma C10_counterexample :
  exists h, Horizon.init recursion_limit small_field 3 [] None = Ok h /\
    Horizon.matrix recursion_limit h
      = Raise (TypeError "'NoneType' object cannot be interpreted as an integer") /\
    Horizon.points recursion_limit (Horizon.blank small_field) = Raise RecursionError.
Proof.
  eexists. split; [vm_compute; reflexivity|].
  split; [vm_compute; reflexivity|]. apply points_blank_recursion.
Qed.

(** C10, amended.  Reading [points] of a surface constructed from a length-0
    point array returns the empty array and raises nothing. *)
Theorem C10_empty_points_access (limit : nat) (f : Horizon.field) :
  (0 < limit)%nat ->
  exists h, Horizon.init limit f 3 [] None = Ok h /\
            Horizon.points limit h = Ok (Some [], h).
Proof.
  intros Hl. destruct limit as [|limit]; [lia|].
  destruct f as [[[n0 n1] n2] zt].
  eexists. split; reflexivity.
Qed.

Lemma C10_empty_points_access_witness :
  exists h, Horizon.init recursion_limit small_field 3 [] None = Ok h /\
            Horizon.points recursion_limit h = Ok (Some [], h).
Proof.
  apply C10_empty_points_access. unfold recursion_limit. lia.
Defined.
End EmptySurface.

(** ** Horizon: cache invalidation *)

Section CacheInvalidation.
Import Samples.

Lemma getters_keep_cache limit :
  (forall h r h', Horizon.points limit h = Ok (r, h') -> Horizon.cache h' = Horizon.cache h) /\
  (forall h r h', Horizon.matrix limit h = Ok (r, h') -> Horizon.cache h' = Horizon.cache h).
Proof.
  induction limit as [|limit [IHp IHm]]; [split; intros; done|].
  split; intros h r h' H; simpl in H.
  - destruct (Horizon._points h); [by injection H as <- <-|].
    destruct (Horizon.matrix limit h) as [[om h1]|] eqn:E; [|done]. simpl in H.
    apply IHm in E. destruct om as [m|]; [|by injection H as <- <-].
    destruct (Horizon.i_min h1), (Horizon.x_min h1); try done.
    by injection H as <- <-.
  - destruct (Horizon._matrix h); [by injection H as <- <-|].
    destruct (Horizon.points limit h) as [[op h1]|] eqn:E; [|done]. simpl in H.
    apply IHp in E. destruct op as [pts|]; [|by injection H as <- <-].
    destruct (Horizon.i_min h1), (Horizon.x_min h1), (Horizon.i_length h1),
      (Horizon.x_length h1); try done.
    destruct (Horizon.points_to_matrix _ _ _ _ _); [|done]. simpl in H.
    by injection H as <- <-.
Qed.

Lemma reset_storage_keeps_cache limit st h h' :
  Horizon.reset_storage limit st h = Ok h' -> Horizon.cache h' = Horizon.cache h.
Proof.
  unfold Horizon.reset_storage. destruct st as [[]|]; intros H.
  - match type of H with
    | rbind (Horizon.points limit ?h0) _ = _ =>
        destruct (Horizon.points limit h0) as [[op h1]|] eqn:E; [|done]
    end.
    apply (proj1 (getters_keep_cache limit)) in E. simpl in *.
    destruct op as [[|p pts]|]; [by injection H as <-| |done].
    simpl in H. by injection H as <-.
  - by injection H as <-.
  - by injection H as <-.
Qed.

(** [apply_to_points], and with it the filter of [Horizon], leaves the
    attribute cache empty ... *)
Lemma apply_to_points_clears_cache limit f h h' :
  Horizon.apply_to_points limit f h = Ok h' -> Horizon.cache h' = [].
Proof.
  unfold Horizon.apply_to_points. intros H.
  destruct (Horizon.points_array limit h) as [r|]; [|done]. cbn [rbind] in H.
  destruct (f r.1); [|done]. cbn [rbind] in H.
  destruct (Horizon.reset_storage _ _ _); [|done]. cbn [rbind] in H.
  by injection H as <-.
Qed.

(** ... while [thin_out] never touches it, whatever it removes. *)
Lemma thin_out_keeps_cache limit factor threshold h h' :
  Horizon.thin_out limit factor threshold h = Ok h' ->
  Horizon.cache h' = Horizon.cache h.
Proof.
  unfold Horizon.thin_out, Horizon.points_array. intros H.
  destruct (Horizon.points limit h) as [[op h1]|] eqn:E; [|done].
  apply (proj1 (getters_keep_cache limit)) in E. cbn [rbind fst snd] in H.
  destruct op as [pts|]; [|done]. cbn [rbind fst snd] in H.
  destruct (Horizon.frequent_lines _ _ _) as [lines_i|]; [|done]. cbn [rbind] in H.
  destruct (Horizon.frequent_lines _ _ _) as [lines_x|]; [|done]. cbn [rbind] in H.
  apply reset_storage_keeps_cache in H. by rewrite H.
Qed.

(** C3 fails on the code.  On the surface with depths at (0, 0) and (1, 1)
    whose [presence_matrix] has been read once, [thin_out] with [factor=2]
    and [threshold=0] keeps the lines 0 only: it removes the point (1, 1) and
    resets the matrix, but assigns [self.points] by hand and never calls
    [reset_cache], so the cached [presence_matrix] still shows the removed
    cell.  [Horizon.filter], which goes through [apply_to_points], removes
    the same point and leaves an empty cache. *)
Theorem C3_thin_out_leaves_stale_cache :
  (let* h0 := Horizon.init recursion_limit small_field 3 two_points None in
   let* r1 := Horizon.presence_matrix recursion_limit h0 in
   let* h2 := Horizon.thin_out recursion_limit (Horizon.factor_int 2) 0 r1.2 in
   let* r2 := Horizon.presence_matrix recursion_limit h2 in
   let* fresh := Horizon.full_binary_matrix recursion_limit h2 in
   Ok (r1.1, Horizon._points h2, Horizon._matrix h2, r2.1, fresh.1))
  = Ok ([[true; false]; [false; true]], Some [(0, 0, 5)], None,
        [[true; false]; [false; true]], [[true; false]; [false; false]])
  /\
  (let* h0 := Horizon.init recursion_limit small_field 3 two_points None in
   let* r1 := Horizon.presence_matrix recursion_limit h0 in
   let* h3 := Horizon.filter recursion_limit (Some drop_11) r1.2 in
   let* r3 := Horizon.presence_matrix recursion_limit h3 in
   Ok (Horizon._points h3, Horizon.cache h3, r3.1))
  = Ok (Some [(0, 0, 5)], [], [[true; false]; [false; false]]).
Proof.
  split; vm_compute; reflexivity.
Qed.
End CacheInvalidation.

(** ** Horizon: subtraction *)

Section Subtraction.
Import Samples.


























End Subtraction.

(** ** RegularGrid *)

Section RegularGridFacts.

Lemma elem_of_uniq x l : x ∈ uniq l <-> x ∈ l.
Proof.
  induction l as [|a [|b l] IH]; [done|done|].
  change (uniq (a :: b :: l)) with (if a =? b then uniq (b :: l) else a :: uniq (b :: l)).
  destruct (Z.eqb_spec a b) as [->|Hne].
  - rewrite IH. rewrite !elem_of_cons. tauto.
  - rewrite elem_of_cons, IH. rewrite !elem_of_cons. tauto.
Qed.

Lemma elem_of_sort x l : x ∈ sort l <-> x ∈ l.
Proof. unfold sort. by rewrite merge_sort_Permutation. Qed.

Lemma elem_of__arange start stop stride limit l v :
  RegularGrid._arange start stop stride limit = Ok l -> v ∈ l ->
  exists w, v = clip w 0 limit.
Proof.
  unfold RegularGrid._arange. destruct (arange start stop stride) as [grid|]; [|done].
  cbn [rbind]. intros [= <-]. unfold unique.
  rewrite elem_of_sort, elem_of_uniq, elem_of_sort, list_elem_of_fmap.
  intros (w & -> & _). by exists w.
Qed.

Lemma clip_bounds w limit : 0 <= limit -> 0 <= clip w 0 limit <= limit.
Proof. unfold clip. lia. Qed.

(** Where the points of [_make_locations] come from. *)
Lemma elem_of_make_locations f ranges strides cs threshold fid lid o rows row :
  RegularGrid._make_locations f ranges strides cs threshold fid lid o = Ok rows ->
  row ∈ rows ->
  exists wi wx wh,
    row = RegularGrid.make_row fid lid o cs
            (clip wi 0 ((Horizon.shape f).1.1 - cs.1.1),
             clip wx 0 ((Horizon.shape f).1.2 - cs.1.2),
             clip wh 0 ((Horizon.shape f).2 - cs.2)).
Proof.
  unfold RegularGrid._make_locations.
  destruct (Horizon.shape f) as [[n0 n1] n2], cs as [[c0 c1] c2]. simpl.
  destruct (RegularGrid._arange _ _ _ (n0 - c0)) as [i_grid|] eqn:Ei; [|done].
  destruct (RegularGrid._arange _ _ _ (n1 - c1)) as [x_grid|] eqn:Ex; [|done].
  destruct (RegularGrid._arange _ _ _ (n2 - c2)) as [h_grid|] eqn:Eh; [|done].
  cbn [rbind].
  match goal with |- match ?pts with _ => _ end = _ -> _ => set (points := pts) end.
  intros Hrows Hin.
  assert (rows = RegularGrid.make_row fid lid o (c0, c1, c2) <$> points) as ->
    by (destruct points; [done|by injection Hrows]).
  apply list_elem_of_fmap in Hin as ([[i x] h] & -> & Hp).
  unfold points in Hp.
  apply list_elem_of_bind in Hp as (i' & Hp & Hi).
  apply list_elem_of_bind in Hp as (x' & Hp & Hx).
  destruct (_ <? _); [|inversion Hp].
  apply list_elem_of_fmap in Hp as (h' & [= -> -> ->] & Hh).
  destruct (elem_of__arange _ _ _ _ _ _ Ei Hi) as (wi & ->).
  destruct (elem_of__arange _ _ _ _ _ _ Ex Hx) as (wx & ->).
  destruct (elem_of__arange _ _ _ _ _ _ Eh Hh) as (wh & ->).
  by exists wi, wx, wh.
Qed.

(** C7. For a crop shape that fits into the volume (after the permutation
    by [orientation]) every location that a [RegularGrid] emits starts at a
    non-negative coordinate and stops inside the volume on each axis,
    whatever the ranges, the strides and the threshold are. *)
Theorem C7_regular_grid_locations_inside_volume
    f ranges crop o strides overlap overlap_factor threshold bs fid lid g row :
  let cs := if o =? 0 then crop else swap01 crop in
  let n := Horizon.shape f in
  0 <= cs.1.1 <= n.1.1 -> 0 <= cs.1.2 <= n.1.2 -> 0 <= cs.2 <= n.2 ->
  fits_int32 n.1.1 -> fits_int32 n.1.2 -> fits_int32 n.2 ->
  RegularGrid.init f ranges crop o strides overlap overlap_factor threshold bs fid lid None
    = Ok g ->
  row ∈ locations g ->
  exists i x h,
    row = [int32 fid; int32 lid; int32 o; i; x; h; i + cs.1.1; x + cs.1.2; h + cs.2] /\
    0 <= i /\ 0 <= x /\ 0 <= h /\
    i + cs.1.1 <= n.1.1 /\ x + cs.1.2 <= n.1.2 /\ h + cs.2 <= n.2.
Proof.
  intros cs n H0 H1 H2 F0 F1 F2 Hinit Hrow.
  unfold RegularGrid.init in Hinit. fold cs in Hinit.
  destruct (RegularGrid.make_strides cs _ _ _) as [st|]; [|done]. cbn [rbind] in Hinit.
  destruct (RegularGrid._make_locations _ _ _ _ _ _ _ _) as [rows|] eqn:E; [|done].
  cbn [rbind] in Hinit. injection Hinit as <-. simpl in Hrow.
  destruct (elem_of_make_locations _ _ _ _ _ _ _ _ _ _ E Hrow) as (wi & wx & wh & ->).
  fold n. unfold fits_int32 in *.
  pose proof (clip_bounds wi (n.1.1 - cs.1.1)). pose proof (clip_bounds wx (n.1.2 - cs.1.2)).
  pose proof (clip_bounds wh (n.2 - cs.2)).
  eexists _, _, _. unfold RegularGrid.make_row. simpl.
  rewrite !(int32_id (clip _ _ _)) by (unfold fits_int32; lia).
  rewrite !(int32_id (clip _ _ _ + _)) by (unfold fits_int32; lia).
  split; [reflexivity|]. lia.
Qed.

(** *** Tiling *)

Lemma fmap_seqZ_prog o c (k : nat) :
  (fun a => o + a * c) <$> seqZ 0 (Z.of_nat k) = prog o c k.
Proof.
  revert o. induction k as [|k IH]; intros o; [done|].
  rewrite seqZ_cons by lia. simpl. f_equal; [lia|].
  replace (Z.pred (Z.of_nat (S k))) with (Z.of_nat k) by lia.
  rewrite <- IH. change (Z.succ 0) with (1 + 0). rewrite <- fmap_add_seqZ.
  rewrite <- list_fmap_compose. apply list_fmap_ext. intros _ a _. simpl. lia.
Qed.

Lemma elem_of_prog a o c k :
  a ∈ prog o c k <-> exists j, (j < k)%nat /\ a = o + Z.of_nat j * c.
Proof.
  revert o. induction k as [|k IH]; intros o; simpl.
  - split; [intros H; inversion H|intros (j & ? & _); lia].
  - rewrite elem_of_cons, IH. split.
    + intros [->|(j & Hj & ->)]; [exists 0%nat; lia|exists (S j); lia].
    + intros ([|j] & Hj & ->); [left; lia|right; exists j; lia].
Qed.

Lemma Sorted_prog o c k : 0 < c -> Sorted Z.lt (prog o c k).
Proof.
  intros Hc. revert o. induction k as [|k IH]; intros o; simpl; [constructor|].
  constructor; [apply IH|]. destruct k; simpl; constructor. lia.
Qed.

Lemma uniq_Sorted_lt l : Sorted Z.lt l -> uniq l = l.
Proof.
  induction 1 as [|x l Hs IH Hhd]; [done|].
  destruct l as [|y l]; [done|].
  change (uniq (x :: y :: l)) with (if x =? y then uniq (y :: l) else x :: uniq (y :: l)).
  inversion Hhd; subst. destruct (Z.eqb_spec x y); [lia|]. by rewrite IH.
Qed.

Lemma Sorted_lt_le l : Sorted Z.lt l -> Sorted Z.le l.
Proof.
  induction 1 as [|x l Hs IH Hhd]; constructor; [done|].
  destruct Hhd; constructor. lia.
Qed.

Lemma sort_Sorted_lt l : Sorted Z.lt l -> sort l = l.
Proof.
  intros Hs. unfold sort. apply (Sorted_unique Z.le).
  - apply Sorted_merge_sort. apply _.
  - by apply Sorted_lt_le.
  - apply merge_sort_Permutation.
Qed.

(** On a range that lies inside the volume and is a multiple of the crop,
    [_arange] with the crop as stride is the plain progression. *)
Lemma _arange_exact o c (k : nat) n :
  0 < c -> 0 <= o -> o + Z.of_nat k * c <= n -> fits_int32 n ->
  RegularGrid._arange o (o + Z.of_nat k * c) c (n - c) = Ok (prog o c k).
Proof.
  intros Hc Ho Hn Hfit. unfold RegularGrid._arange, arange.
  destruct (Z.eqb_spec c 0); [lia|]. cbn [rbind]. f_equal.
  replace (o - (o + Z.of_nat k * c)) with (- Z.of_nat k * c) by lia.
  rewrite Z.div_mul by lia.
  replace (Z.max 0 (- - Z.of_nat k)) with (Z.of_nat k) by lia.
  rewrite <- list_fmap_compose.
  assert ((fun v => clip v 0 (n - c)) ∘ (fun k0 => int32 (o + k0 * c)) <$> seqZ 0 (Z.of_nat k)
          = prog o c k) as ->.
  { rewrite <- fmap_seqZ_prog. apply list_fmap_ext. intros j a Ha.
    apply list_elem_of_lookup_2, elem_of_seqZ in Ha. simpl.
    unfold fits_int32 in *.
    assert (0 <= a * c /\ a * c + c <= Z.of_nat k * c) by nia.
    rewrite int32_id by (unfold fits_int32; lia). unfold clip. lia. }
  unfold unique. pose proof (Sorted_prog o c k Hc) as Hs.
  by rewrite (sort_Sorted_lt _ Hs), (uniq_Sorted_lt _ Hs), (sort_Sorted_lt _ Hs).
Qed.

Lemma length_filter_fmap_bind {A B C} (f : B -> C)
    (P : C -> Prop) `{!forall c, Decision (P c)}
    (Q : A -> Prop) `{!forall a, Decision (Q a)}
    (g : A -> list B) (l : list A) (n : nat) :
  (forall a, a ∈ l -> Q a -> length (filter P (f <$> g a)) = n) ->
  (forall a, a ∈ l -> ~ Q a -> length (filter P (f <$> g a)) = 0%nat) ->
  length (filter P (f <$> (l ≫= g))) = (n * length (filter Q l))%nat.
Proof.
  induction l as [|a l IH]; intros Hy Hn; [simpl; lia|].
  rewrite bind_cons, fmap_app, filter_app, length_app, filter_cons.
  rewrite IH;
    [|intros b Hb Hq; apply Hy; [by right|done]
     |intros b Hb Hq; apply Hn; [by right|done]].
  destruct (decide (Q a)) as [Hq|Hq].
  - rewrite (Hy a); [simpl; lia|by left|done].
  - rewrite (Hn a); [lia|by left|done].
Qed.

Lemma length_filter_all {A} (P : A -> Prop) `{!forall a, Decision (P a)} (l : list A) :
  (forall a, a ∈ l -> P a) -> length (filter P l) = length l.
Proof.
  induction l as [|a l IH]; intros Hall; [done|].
  rewrite filter_cons, decide_True by (apply Hall; by left).
  simpl. rewrite IH; [done|]. intros. apply Hall. by right.
Qed.

Lemma length_filter_none {A} (P : A -> Prop) `{!forall a, Decision (P a)} (l : list A) :
  (forall a, a ∈ l -> ~ P a) -> length (filter P l) = 0%nat.
Proof.
  induction l as [|a l IH]; intros Hall; [done|].
  rewrite filter_cons, decide_False by (apply Hall; by left).
  apply IH. intros. apply Hall. by right.
Qed.

(** A point of the range lies in exactly one window of the progression. *)
Lemma count_prog p o c k :
  0 < c ->
  length (filter (fun s => s <= p < s + c) (prog o c k))
  = if decide (o <= p < o + Z.of_nat k * c) then 1%nat else 0%nat.
Proof.
  intros Hc. revert o. induction k as [|k IH]; intros o.
  - simpl. destruct (decide _); [lia|done].
  - simpl prog. rewrite filter_cons. specialize (IH (o + c)).
    destruct (decide (o <= p < o + c)); simpl; rewrite IH;
      destruct (decide (o + c <= p < _)), (decide (o <= p < _)); try done; nia.
Qed.

Lemma length_bind_const {A B} (g : A -> list B) (l : list A) (n : nat) :
  (forall a, a ∈ l -> length (g a) = n) -> length (l ≫= g) = (n * length l)%nat.
Proof.
  induction l as [|a l IH]; intros H; [simpl; lia|].
  rewrite bind_cons, length_app, IH, (H a); [simpl; lia|by left|].
  intros b Hb. apply H. by right.
Qed.

Lemma length_prog o c k : length (prog o c k) = k.
Proof. revert o. induction k as [|k IH]; intros o; simpl; [done|by rewrite IH]. Qed.

Lemma bind_ext_elem {A B} (g g' : A -> list B) (l : list A) :
  (forall a, a ∈ l -> g a = g' a) -> l ≫= g = l ≫= g'.
Proof.
  induction l as [|a l IH]; intros H; [done|].
  rewrite !bind_cons, (H a), IH; [done| |by left]. intros b Hb. apply H. by right.
Qed.

Lemma footprint_make_row fid lid o c0 c1 c2 a b h i x :
  fits_int32 a -> fits_int32 (a + c0) -> fits_int32 b -> fits_int32 (b + c1) ->
  footprint_contains (RegularGrid.make_row fid lid o (c0, c1, c2) (a, b, h)) i x = true
  <-> a <= i < a + c0 /\ b <= x < b + c1.
Proof.
  intros Fa Fa' Fb Fb'. unfold RegularGrid.make_row, footprint_contains. simpl.
  rewrite !(int32_id a), !(int32_id b), !(int32_id (a + c0)), !(int32_id (b + c1)) by done.
  rewrite !andb_true_iff, !Z.leb_le, !Z.ltb_lt. lia.
Qed.

Section Tiling.
Context (f : Horizon.field) (o0 o1 : Z) (k0 k1 : nat) (hr : Z * Z)
        (c0 c1 c2 : Z) (fid lid o : Z) (hs : list Z).
Let n := Horizon.shape f.
Let e0 := o0 + Z.of_nat k0 * c0.
Let e1 := o1 + Z.of_nat k1 * c1.
Let tiles : list point :=
  i ← prog o0 c0 k0; x ← prog o1 c1 k1; (fun h => (i, x, h)) <$> hs.

Hypothesis Hc0 : 0 < c0.
Hypothesis Hc1 : 0 < c1.
Hypothesis Ho0 : 0 <= o0.
Hypothesis Ho1 : 0 <= o1.
Hypothesis He0 : e0 <= n.1.1.
Hypothesis He1 : e1 <= n.1.2.
Hypothesis Hn0 : fits_int32 n.1.1.
Hypothesis Hn1 : fits_int32 n.1.2.
Hypothesis Hk0 : (0 < k0)%nat.
Hypothesis Hk1 : (0 < k1)%nat.
Hypothesis Hhs : RegularGrid._arange hr.1 hr.2 c2 (n.2 - c2) = Ok hs.
Hypothesis Hne : hs <> [].
Hypothesis Halive :
  Forall (fun a => Forall (fun b =>
            0 < RegularGrid.alive_traces (Horizon.zero_traces f) c0 c1 a b)
          (prog o1 c1 k1)) (prog o0 c0 k0).

Lemma prog_bounds a s c k e :
  0 < c -> e = s + Z.of_nat k * c -> a ∈ prog s c k -> s <= a /\ a + c <= e.
Proof. intros Hc -> (j & Hj & ->)%elem_of_prog. nia. Qed.

Lemma make_locations_tiles :
  RegularGrid._make_locations f ((o0, e0), (o1, e1), hr) (c0, c1, c2) (c0, c1, c2)
    0 fid lid o
  = Ok (RegularGrid.make_row fid lid o (c0, c1, c2) <$> tiles).
Proof.
  unfold RegularGrid._make_locations. subst n e0 e1.
  destruct (Horizon.shape f) as [[n0 n1] n2] eqn:En. simpl in *.
  rewrite !_arange_exact by done. cbn [rbind]. rewrite Hhs. cbn [rbind].
  match goal with |- match ?pts with _ => _ end = _ => assert (pts = tiles) as -> end.
  { unfold tiles. apply bind_ext_elem. intros a Ha. apply bind_ext_elem. intros b Hb.
    pose proof (proj1 (Forall_forall _ _) (proj1 (Forall_forall _ _) Halive a Ha) b Hb) as Hal.
    simpl in Hal.
    destruct (Z.ltb_spec 0 (RegularGrid.alive_traces (Horizon.zero_traces f) c0 c1 a b));
      [done|lia]. }
  destruct tiles as [|t ts] eqn:Et; [|done]. exfalso.
  unfold tiles in Et. destruct k0 as [|k0']; [lia|]. destruct k1 as [|k1']; [lia|].
  destruct hs; [done|]. simpl in Et. done.
Qed.

Lemma elem_of_tiles a b h :
  (a, b, h) ∈ tiles <-> a ∈ prog o0 c0 k0 /\ b ∈ prog o1 c1 k1 /\ h ∈ hs.
Proof.
  unfold tiles. rewrite list_elem_of_bind. split.
  - intros (a' & Hin & Ha). apply list_elem_of_bind in Hin as (b' & Hin & Hb).
    apply list_elem_of_fmap in Hin as (h' & [= -> -> ->] & Hh). done.
  - intros (Ha & Hb & Hh). exists a. split; [|done].
    apply list_elem_of_bind. exists b. split; [|done].
    apply list_elem_of_fmap. by exists h.
Qed.

Lemma tile_fits a b :
  a ∈ prog o0 c0 k0 -> b ∈ prog o1 c1 k1 ->
  fits_int32 a /\ fits_int32 (a + c0) /\ fits_int32 b /\ fits_int32 (b + c1).
Proof.
  intros Ha%(prog_bounds _ _ _ _ e0) Hb%(prog_bounds _ _ _ _ e1); try done.
  unfold fits_int32 in *. lia.
Qed.

Lemma tiles_cover_once i x :
  o0 <= i < e0 -> o1 <= x < e1 ->
  cover_count (RegularGrid.make_row fid lid o (c0, c1, c2) <$> tiles) i x = length hs.
Proof.
  intros Hi Hx. unfold cover_count, tiles.
  rewrite (length_filter_fmap_bind _ _ (fun s => s <= i < s + c0) _ _ (length hs)).
  - rewrite count_prog by done. fold e0. rewrite decide_True by done. lia.
  - intros a Ha Hq.
    rewrite (length_filter_fmap_bind _ _ (fun s => s <= x < s + c1) _ _ (length hs)).
    + rewrite count_prog by done. fold e1. rewrite decide_True by done. lia.
    + intros b Hb Hq'. rewrite length_filter_all; [by rewrite !length_fmap|].
      intros row (t & -> & (h & -> & _)%list_elem_of_fmap)%list_elem_of_fmap.
      destruct (tile_fits a b Ha Hb) as (? & ? & ? & ?).
      by apply footprint_make_row.
    + intros b Hb Hq'. apply length_filter_none.
      intros row (t & -> & (h & -> & _)%list_elem_of_fmap)%list_elem_of_fmap.
      destruct (tile_fits a b Ha Hb) as (? & ? & ? & ?).
      rewrite footprint_make_row by done. tauto.
  - intros a Ha Hq. apply length_filter_none.
    intros row (t & -> & Ht)%list_elem_of_fmap.
    apply list_elem_of_bind in Ht as (b & (h & -> & _)%list_elem_of_fmap & Hb).
    destruct (tile_fits a b Ha Hb) as (? & ? & ? & ?).
    rewrite footprint_make_row by done. tauto.
Qed.

Lemma tiles_cover_nothing_else i x :
  ~ (o0 <= i < e0 /\ o1 <= x < e1) ->
  cover_count (RegularGrid.make_row fid lid o (c0, c1, c2) <$> tiles) i x = 0%nat.
Proof.
  intros Hout. unfold cover_count. apply length_filter_none.
  intros row (t & -> & Ht)%list_elem_of_fmap. destruct t as [[a b] h].
  apply elem_of_tiles in Ht as (Ha & Hb & _).
  destruct (tile_fits a b Ha Hb) as (? & ? & ? & ?).
  rewrite footprint_make_row by done.
  apply (prog_bounds _ _ _ _ e0) in Ha; [|done..].
  apply (prog_bounds _ _ _ _ e1) in Hb; [|done..]. lia.
Qed.

Lemma length_tiles : length tiles = (k0 * k1 * length hs)%nat.
Proof.
  unfold tiles. rewrite (length_bind_const _ _ (k1 * length hs)), length_prog; [lia|].
  intros a _. rewrite (length_bind_const _ _ (length hs)), length_prog; [lia|].
  intros b _. by rewrite length_fmap.
Qed.
End Tiling.

(** C5 fails on the code as stated: in a volume of shape (25, 10, 10) with
    crops and strides of (10, 10, 10) the last start on axis 0 is clipped
    from 20 to 15, so the footprints [10, 20) and [15, 25) overlap and the
    trace (15, 0) lies in two of them. *)
Lemma C5_counterexample :
  exists g,
    RegularGrid.init Samples.volume_25 ((0, 25), (0, 10), (0, 10)) (10, 10, 10) 0
      (Some (10, 10, 10)) None None 0 64 (-1) (-1) None = Ok g /\
    cover_count (locations g) 15 0 = 2%nat.
Proof. eexists. split; vm_compute; reflexivity. Qed.

(** C5, amended.  With threshold 0 and strides equal to the crop shape, when
    the ranges on axis 0 and axis 1 start at a non-negative coordinate, end
    inside the volume and span [k0] and [k1] crops exactly, and every one of
    these crops holds a live trace, the grid has [k0 * k1] locations for
    each depth start, every trace of the range lies in the footprint of
    exactly one location per depth start, and no trace outside the range is
    covered. *)
Theorem C5_regular_grid_tiles_range
    f o0 o1 (k0 k1 : nat) hr crop o strides bs fid lid hs :
  let cs := if o =? 0 then crop else swap01 crop in
  let n := Horizon.shape f in
  let e0 := o0 + Z.of_nat k0 * cs.1.1 in
  let e1 := o1 + Z.of_nat k1 * cs.1.2 in
  strides = None \/ strides = Some crop ->
  0 < cs.1.1 -> 0 < cs.1.2 -> 0 <= o0 -> 0 <= o1 ->
  e0 <= n.1.1 -> e1 <= n.1.2 -> fits_int32 n.1.1 -> fits_int32 n.1.2 ->
  (0 < k0)%nat -> (0 < k1)%nat ->
  RegularGrid._arange hr.1 hr.2 cs.2 (n.2 - cs.2) = Ok hs -> hs <> [] ->
  Forall (fun a => Forall (fun b =>
            0 < RegularGrid.alive_traces (Horizon.zero_traces f) cs.1.1 cs.1.2 a b)
          (prog o1 cs.1.2 k1)) (prog o0 cs.1.1 k0) ->
  exists g,
    RegularGrid.init f ((o0, e0), (o1, e1), hr) crop o strides None None
      0 bs fid lid None = Ok g /\
    length (locations g) = (k0 * k1 * length hs)%nat /\
    (forall i x, o0 <= i < e0 -> o1 <= x < e1 ->
       cover_count (locations g) i x = length hs) /\
    (forall i x, ~ (o0 <= i < e0 /\ o1 <= x < e1) ->
       cover_count (locations g) i x = 0%nat).
Proof.
  intros cs n e0 e1 Hst Hc0 Hc1 Ho0 Ho1 He0 He1 Hn0 Hn1 Hk0 Hk1 Hhs Hne Halive.
  unfold RegularGrid.init. fold cs.
  assert (RegularGrid.make_strides cs (if o =? 0 then strides else swap01 <$> strides)
            None None = Ok cs) as ->.
  { destruct Hst as [->| ->]; [by destruct (o =? 0)|].
    unfold cs. by destruct (o =? 0). }
  cbn [rbind]. destruct cs as [[c0 c1] c2] eqn:Ecs. simpl in *.
  subst e0 e1 n.
  rewrite (make_locations_tiles f o0 o1 k0 k1 hr c0 c1 c2 fid lid o hs) by done.
  cbn [rbind]. eexists. split; [reflexivity|]. cbn [locations].
  split; [rewrite length_fmap; by apply length_tiles|]. split.
  - intros i x Hi Hx. by apply (tiles_cover_once f).
  - intros i x Hout. by apply (tiles_cover_nothing_else f).
Qed.

Lemma C5_regular_grid_tiles_range_witness :
  exists g,
    RegularGrid.init Samples.volume_50_60_40 ((0, 50), (0, 60), (0, 40)) (10, 10, 40) 0
      (Some (10, 10, 40)) None None 0 64 (-1) (-1) None = Ok g /\
    length (locations g) = 30%nat /\
    (forall i x, 0 <= i < 50 -> 0 <= x < 60 -> cover_count (locations g) i x = 1%nat) /\
    (forall i x, ~ (0 <= i < 50 /\ 0 <= x < 60) -> cover_count (locations g) i x = 0%nat).
Proof.
  apply (C5_regular_grid_tiles_range Samples.volume_50_60_40 0 0 5 6 (0, 40)
           (10, 10, 40) 0 (Some (10, 10, 40)) 64 (-1) (-1) [0]).
  - by right.
  - reflexivity.
  - reflexivity.
  - reflexivity.
  - reflexivity.
  - vm_compute. discriminate.
  - vm_compute. discriminate.
  - vm_compute. intuition discriminate.
  - vm_compute. intuition discriminate.
  - lia.
  - lia.
  - vm_compute. reflexivity.
  - discriminate.
  - apply (bool_decide_unpack _). vm_compute. exact I.
Defined.

Lemma C7_regular_grid_locations_inside_volume_witness :
  exists i x h,
    [-1; -1; 0; 15; 0; 0; 25; 10; 10]
    = [int32 (-1); int32 (-1); int32 0; i; x; h; i + 10; x + 10; h + 10] /\
    0 <= i /\ 0 <= x /\ 0 <= h /\ i + 10 <= 25 /\ x + 10 <= 10 /\ h + 10 <= 10.
Proof.
  eapply (C7_regular_grid_locations_inside_volume
            Samples.volume_25 ((0, 25), (0, 10), (0, 10)) (10, 10, 10) 0
            None None None 0 64 (-1) (-1)).
  1-6: vm_compute; intuition discriminate.
  - vm_compute. reflexivity.
  - apply list_elem_of_In. vm_compute. tauto.
Defined.
End RegularGridFacts.

(** ** Configuration errors *)

Section Configuration.

(** C9. A [RegularGrid] given more than one of [strides], [overlap] and
    [overlap_factor] fails with the configuration error of [__init__],
    whatever the field, the ranges and the other arguments are, so before
    any location is made; and an [ExtensionGrid] given a [mode] outside the
    listed ones fails with its configuration error in the same way. *)
Theorem C9_configuration_errors
    f ranges crop o strides overlap overlap_factor threshold bs fid lid locs
    limit h cs stride top pthreshold prior_threshold randomize mode permutation :
  (is_Some strides /\ is_Some overlap) \/ (is_Some strides /\ is_Some overlap_factor)
    \/ (is_Some overlap /\ is_Some overlap_factor) ->
  mode ∉ ExtensionGrid.recognized_modes ->
  RegularGrid.init f ranges crop o strides overlap overlap_factor threshold bs fid lid locs
    = Raise (ValueError "Only one of `strides`, `overlap` or `overlap_factor` should be specified!")
  /\ ExtensionGrid.init limit h cs stride bs top pthreshold prior_threshold randomize
       mode permutation
    = Raise (ValueError "Provided wrong `mode` argument, for possible options look at the docstring.").
Proof.
  intros Hgiven Hmode. split.
  - unfold RegularGrid.init, RegularGrid.make_strides.
    destruct strides, overlap, overlap_factor, (o =? 0); simpl; try reflexivity;
      destruct Hgiven as [[[? ?] [? ?]]|[[[? ?] [? ?]]|[[? ?] [? ?]]]]; done.
  - unfold ExtensionGrid.init, ExtensionGrid.directions_of.
    unfold ExtensionGrid.recognized_modes, ExtensionGrid.allowed_directions in *.
    rewrite !bool_decide_eq_false_2; [done|..];
      first [ intros ->; apply Hmode, list_elem_of_In; simpl; tauto
            | intros Hin; apply Hmode;
              repeat (apply elem_of_cons in Hin as [->|Hin];
                      [apply list_elem_of_In; simpl; tauto|]);
              inversion Hin ].
Qed.

Lemma C9_configuration_errors_witness :
  RegularGrid.init Samples.volume_25 ((0, 25), (0, 10), (0, 10)) (10, 10, 10) 0
      (Some (5, 5, 5)) (Some (2, 2, 2)) None 0 64 (-1) (-1) None
    = Raise (ValueError "Only one of `strides`, `overlap` or `overlap_factor` should be specified!")
  /\ ExtensionGrid.init Samples.recursion_limit Samples.surface_a (1, 2, 2) 1 64 1 4 8 true
       "diagonal" [0%nat]
    = Raise (ValueError "Provided wrong `mode` argument, for possible options look at the docstring.").
Proof.
  apply C9_configuration_errors.
  - left. split; eexists; reflexivity.
  - unfold ExtensionGrid.recognized_modes. apply (bool_decide_unpack _). vm_compute. exact I.
Defined.
End Configuration.

(** ** ExtensionGrid: the potential of a candidate *)

Section Potential.

Lemma compute_potential_loop_length locs cov area stride pt upd pr ps cov' :
  compute_potential_loop locs cov area stride pt upd pr = Ok (ps, cov') ->
  length ps = length locs.
Proof.
  revert cov pr ps cov'. induction locs as [|row locs IH]; intros cov pr ps cov' H.
  - by injection H as <- <-.
  - simpl in H.
    repeat match type of H with
    | (if ?c then _ else _) = _ => destruct c
    | match ?o with Some _ => _ | None => _ end = _ => destruct o
    end; try done;
    match type of H with
    | rbind ?r _ = _ => destruct r as [[ps' c']|] eqn:E; [|done]
    end;
    cbn [rbind fst snd] in H; injection H as <- <-; simpl; f_equal; by eapply IH.
Qed.

(** *** The selection of locations *)

Lemma pick_cons {A} (l : list A) k idx :
  ExtensionGrid.pick l (k :: idx)
  = match l !! k with
    | Some x => x :: ExtensionGrid.pick l idx
    | None => ExtensionGrid.pick l idx
    end.
Proof. reflexivity. Qed.

Lemma pick_lookup_aligned {A B} (l1 : list A) (l2 : list B) idx t a b :
  length l1 = length l2 ->
  ExtensionGrid.pick l1 idx !! t = Some a -> ExtensionGrid.pick l2 idx !! t = Some b ->
  exists k, l1 !! k = Some a /\ l2 !! k = Some b.
Proof.
  intros Hlen. revert t. induction idx as [|k idx IH]; intros t H1 H2; [done|].
  rewrite pick_cons in H1. rewrite pick_cons in H2.
  destruct (l1 !! k) as [a0|] eqn:E1.
  - destruct (lookup_lt_is_Some_2 l2 k) as [b0 E2].
    { apply lookup_lt_Some in E1. lia. }
    rewrite E2 in H2. destruct t as [|t]; simpl in *.
    + injection H1 as <-. injection H2 as <-. by exists k.
    + by eapply IH.
  - assert (l2 !! k = None) as E2.
    { apply lookup_ge_None. apply lookup_ge_None in E1. lia. }
    rewrite E2 in H2. by eapply IH.
Qed.

Lemma length_pick_aligned {A B} (l1 : list A) (l2 : list B) idx :
  length l1 = length l2 ->
  length (ExtensionGrid.pick l1 idx) = length (ExtensionGrid.pick l2 idx).
Proof.
  intros Hlen. induction idx as [|k idx IH]; [done|].
  rewrite !pick_cons.
  destruct (l1 !! k) as [a0|] eqn:E1.
  - destruct (lookup_lt_is_Some_2 l2 k) as [b0 E2].
    { apply lookup_lt_Some in E1. lia. }
    rewrite E2. simpl. by rewrite IH.
  - assert (l2 !! k = None) as ->; [|done].
    apply lookup_ge_None. apply lookup_ge_None in E1. lia.
Qed.

Lemma pick_lookup_valid {A} (l : list A) idx t :
  Forall (fun k => (k < length l)%nat) idx ->
  ExtensionGrid.pick l idx !! t = idx !! t ≫= (fun k => l !! k).
Proof.
  intros Hv. revert t. induction Hv as [|k idx Hk Hv IH]; intros t; [done|].
  rewrite pick_cons. destruct (lookup_lt_is_Some_2 l k Hk) as [x E]. rewrite E.
  destruct t as [|t]; simpl; [done|apply IH].
Qed.

Lemma elem_of_unique_rows rows row k :
  (row, k) ∈ ExtensionGrid.unique_rows rows -> rows !! k = Some row.
Proof.
  unfold ExtensionGrid.unique_rows. rewrite merge_sort_Permutation.
  intros [_ Hin]%list_elem_of_filter.
  apply elem_of_lookup_imap in Hin as (i & x & [= -> ->] & Hx). done.
Qed.

(** Every location that the selection keeps carries a potential above the
    threshold, and both come from one row of the buffer. *)
Lemma select_locations_origin mode top threshold n depth c2 buffer pots locs ps j loc p :
  length buffer = length pots ->
  ExtensionGrid.select_locations mode top threshold n depth c2 buffer pots = Ok (locs, ps) ->
  locs !! j = Some loc -> ps !! j = Some p ->
  threshold < p /\
  exists k row, buffer !! k = Some row /\ pots !! k = Some p /\
                loc = ExtensionGrid.finish_row depth c2 row.
Proof.
  intros Hlen. unfold ExtensionGrid.select_locations.
  destruct (ExtensionGrid.select_indices mode top n pots) as [indices|]; [|done].
  cbn [rbind].
  set (potential' := ExtensionGrid.pick pots indices).
  set (buffer' := ExtensionGrid.pick buffer indices).
  set (uq := ExtensionGrid.unique_rows buffer').
  set (kept := filter _ _).
  intros [= <- <-] Hloc Hp.
  rewrite !list_lookup_fmap in Hloc. rewrite list_lookup_fmap in Hp.
  destruct (kept !! j) as [[row p']|] eqn:Hkept; [|done].
  simpl in Hloc, Hp. injection Hloc as <-. injection Hp as ->.
  apply list_elem_of_lookup_2 in Hkept.
  apply list_elem_of_filter in Hkept as [Hthr Hzip]. simpl in Hthr.
  split; [done|].
  apply list_elem_of_lookup in Hzip as [t Ht].
  apply lookup_zip_with_Some in Ht as (row' & p'' & [= <- <-] & Hb & Hpt).
  rewrite list_lookup_fmap in Hb.
  destruct (uq !! t) as [[row'' idx]|] eqn:Huq; [|done].
  simpl in Hb. injection Hb as ->.
  assert (Forall (fun k => (k < length potential')%nat) (snd <$> uq)) as Hvalid.
  { apply Forall_forall. intros i ([r i'] & -> & Hin)%list_elem_of_fmap. simpl.
    apply elem_of_unique_rows, lookup_lt_Some in Hin.
    unfold potential'. by rewrite <- (length_pick_aligned buffer pots). }
  rewrite (pick_lookup_valid _ _ _ Hvalid), list_lookup_fmap, Huq in Hpt. simpl in Hpt.
  apply list_elem_of_lookup_2, elem_of_unique_rows in Huq.
  destruct (pick_lookup_aligned buffer pots indices idx row p Hlen Huq Hpt) as (k & ? & ?).
  by exists k, row.
Qed.

Lemma candidate_orientation d n0 n1 cs stride p :
  ExtensionGrid.candidate d n0 n1 cs stride p !! 0%nat = Some 0 \/
  ExtensionGrid.candidate d n0 n1 cs stride p !! 0%nat = Some 1.
Proof.
  unfold ExtensionGrid.candidate. destruct cs as [[c0 c1] c2], p as [[i x] h].
  repeat destruct (bool_decide _); simpl; auto.
Qed.

Lemma candidates_orientation limit h cs stride dirs shuffle buffer row :
  ExtensionGrid.candidates limit h cs stride dirs shuffle = Ok buffer ->
  row ∈ buffer ->
  row !! 0%nat = Some 0 \/ row !! 0%nat = Some 1.
Proof.
  unfold ExtensionGrid.candidates.
  destruct (Horizon.shape _) as [[n0 n1] n2].
  destruct (Horizon.binary_matrix limit h) as [bm|]; [|done]. cbn [rbind].
  destruct (Horizon.matrix_array limit bm.2) as [m|]; [|done]. cbn [rbind].
  destruct (Horizon.i_min m.2), (Horizon.x_min m.2); try done.
  destruct (foldr _ _ _) as [points|]; [|done]. cbn [rbind].
  intros [= <-] Hin.
  apply list_elem_of_bind in Hin as (p & Hin & _).
  apply list_elem_of_fmap in Hin as (d & -> & _).
  apply candidate_orientation.
Qed.

(** C2 fails on the code.  On the surface with depths at (0, 1) and (1, 1)
    of a 3 x 3 cube, built upwards with crops of shape (3, 3, 2), [stride=1],
    [threshold=4] and [prior_threshold=2], the candidate of the point (0, 1)
    spans the whole cube.  Each of the four stride-wide bands along the
    sides of its footprint (first and last column, first and last row) holds
    fewer than 2 covered cells, yet the candidate is given the potential 7
    and is selected: for the second band [compute_potential] takes
    [sliced[:-stride]], all rows but the last, which hold the two covered
    cells, where the last rows, [sliced[-stride:]], hold none. *)
Theorem C2_candidate_below_prior_threshold_selected :
  exists g fm cov,
    ExtensionGrid.init Samples.recursion_limit Samples.surface_c (3, 3, 2) 1 64 1 4 2
      false "up" [0%nat] = Ok g /\
    Horizon.full_matrix Samples.recursion_limit Samples.surface_c = Ok fm /\
    ExtensionGrid.initial_coverage (Horizon.zero_traces Samples.volume_3) fm.1 = Ok cov /\
    locations g = [[-1; -1; 0; 0; 0; 4; 3; 3; 6]] /\ potential g = [7] /\
    footprint cov [0; 0; 0; 4; 3; 3; 6] = cov /\
    count_true (slice2 cov 0 3 0 1) = 0 /\
    count_true (slice2 cov 0 3 2 3) = 0 /\
    count_true (slice2 cov 0 1 0 3) = 1 /\
    count_true (slice2 cov 2 3 0 3) = 0 /\
    count_true (pyslice cov 0 (- 1)) = 2 /\
    count_true (pyslice cov (- 1) 3) = 0.
Proof.
  do 3 eexists. repeat split; vm_compute; reflexivity.
Qed.
End Potential.

(** ** LocationsPotentialContainer: what an update does *)

Section Container.

Lemma logical_and_pairs {A B} (l : list (A * B)) (P : A -> bool) (Q : B -> bool) :
  logical_and (P <$> l.*1) (Q <$> l.*2) = Ok ((fun e => P e.1 && Q e.2) <$> l).
Proof.
  unfold logical_and. rewrite bool_decide_eq_true_2 by by rewrite !length_fmap.
  f_equal. induction l as [|e l IH]; [done|]. csimpl. by f_equal.
Qed.

Lemma bool_index_pairs {A B} (l : list (A * B)) (f : A * B -> bool) :
  bool_index (l.*1) (f <$> l) = Ok ((filter (fun e => f e = true) l).*1) /\
  bool_index (l.*2) (f <$> l) = Ok ((filter (fun e => f e = true) l).*2).
Proof.
  unfold bool_index. rewrite !bool_decide_eq_true_2 by by rewrite !length_fmap.
  split; f_equal.
  - induction l as [|e l IH]; [done|]. csimpl. rewrite !filter_cons. cbn [snd].
    destruct (decide (f e = true)); csimpl; by f_equal.
  - induction l as [|e l IH]; [done|]. csimpl. rewrite !filter_cons. cbn [snd].
    destruct (decide (f e = true)); csimpl; by f_equal.
Qed.

Lemma zip_fst_snd_eq {A B} (a : list A) (b : list B) :
  length a = length b -> a = (zip a b).*1 /\ b = (zip a b).*2.
Proof. intros H. split; [rewrite fst_zip|rewrite snd_zip]; done || lia. Qed.

(** What [update_grid] does on the (location, potential) pairs: the grid
    keeps the pairs whose location is not stored or whose potential is not
    the potential of any stored entry; the container drops the entries at the
    locations the grid keeps, and appends the pairs the grid keeps. *)
Lemma update_grid_entries c g :
  length (locations g) = length (potential g) ->
  length (LocationsPotentialContainer.locations c)
    = length (LocationsPotentialContainer.potential c) ->
  exists c' g',
    LocationsPotentialContainer.update_grid c g = Ok (c', g') /\
    grid_entries g'
      = filter (fun e => ~ (e.1 ∈ LocationsPotentialContainer.locations c
                            /\ e.2 ∈ LocationsPotentialContainer.potential c))
               (grid_entries g) /\
    LocationsPotentialContainer.entries c'
      = filter (fun e => e.1 ∉ (grid_entries g').*1) (LocationsPotentialContainer.entries c)
        ++ grid_entries g' /\
    length (locations g') = length (potential g') /\
    length (LocationsPotentialContainer.locations c')
      = length (LocationsPotentialContainer.potential c').
Proof.
  destruct g as [gl gp cs o og en bs], c as [cl cp rl tr].
  unfold grid_entries, LocationsPotentialContainer.entries,
    LocationsPotentialContainer.update_grid, set_locations_potential,
    LocationsPotentialContainer.grid_locations, LocationsPotentialContainer.grid_potential.
  cbn [locations potential LocationsPotentialContainer.locations
       LocationsPotentialContainer.potential crop_shape orientation origin endpoint
       batch_size LocationsPotentialContainer.repeated_locations
       LocationsPotentialContainer.total_repeated_locations].
  intros Hg Hc.
  destruct (zip_fst_snd_eq gl gp Hg) as [Egl Egp].
  destruct (zip_fst_snd_eq cl cp Hc) as [Ecl Ecp].
  remember (zip gl gp) as l eqn:El. remember (zip cl cp) as k eqn:Ek.
  clear El Ek Hg Hc. subst gl gp cl cp. unfold in1d.
  rewrite logical_and_pairs. cbn [rbind]. rewrite <- list_fmap_compose.
  match goal with
  | |- context [bool_index (l.*1) (?f <$> l)] =>
      destruct (bool_index_pairs l f) as [-> ->]
  end.
  cbn [rbind].
  set (new := filter _ l).
  assert (Enew : new = filter (fun e : list Z * Z => ~ (e.1 ∈ k.*1 /\ e.2 ∈ k.*2)) l).
  { apply list_filter_iff. intros e. unfold compose.
    rewrite negb_true_iff, andb_false_iff, !bool_decide_eq_false.
    destruct (decide (e.1 ∈ k.*1)); tauto. }
  clearbody new.
  assert (Hzip : forall m : list (list Z * Z), zip (m.*1) (m.*2) = m)
    by (intros m; apply zip_fst_snd).
  case_bool_decide as Hn.
  - case_bool_decide as Hk.
    + rewrite <- !list_fmap_compose.
      match goal with
      | |- context [bool_index (k.*1) (?f <$> k)] =>
          destruct (bool_index_pairs k f) as [-> ->]
      end.
      cbn [rbind]. do 2 eexists. split; [reflexivity|].
      cbn [locations potential LocationsPotentialContainer.locations
           LocationsPotentialContainer.potential].
      rewrite !Hzip. split; [exact Enew|].
      rewrite zip_with_app by by rewrite !length_fmap.
      rewrite !Hzip, !length_app, !length_fmap. split; [|done].
      f_equal. apply list_filter_iff. intros e. unfold compose.
      by rewrite negb_true_iff, bool_decide_eq_false.
    + do 2 eexists. split; [reflexivity|].
      cbn [locations potential LocationsPotentialContainer.locations
           LocationsPotentialContainer.potential].
      rewrite !Hzip, !length_fmap. split; [exact Enew|]. split; [|done].
      destruct k; [done|]. simpl in Hk. lia.
  - do 2 eexists. split; [reflexivity|].
    cbn [locations potential LocationsPotentialContainer.locations
         LocationsPotentialContainer.potential].
    destruct new; [|simpl in Hn; lia]. simpl. split; [exact Enew|].
    rewrite Hzip, app_nil_r, !length_fmap. split; [|done].
    clear. induction k as [|e k IH]; [done|].
    rewrite filter_cons_True; [by f_equal|]. apply not_elem_of_nil.
Qed.

(** So a container with one entry per location keeps this property when the
    rows of the grid are distinct. *)
Lemma update_grid_keeps_distinct c g c' g' :
  length (locations g) = length (potential g) ->
  length (LocationsPotentialContainer.locations c)
    = length (LocationsPotentialContainer.potential c) ->
  NoDup (locations g) ->
  NoDup (LocationsPotentialContainer.locations c) ->
  LocationsPotentialContainer.update_grid c g = Ok (c', g') ->
  NoDup (LocationsPotentialContainer.locations c').
Proof.
  intros Hg Hc Dg Dc Hup.
  destruct (update_grid_entries c g Hg Hc) as (c1 & g1 & E & Eg & Ec & Lg & Lc).
  rewrite E in Hup. injection Hup as <- <-.
  destruct (zip_fst_snd_eq _ _ Lc) as [-> _].
  fold (LocationsPotentialContainer.entries c1). rewrite Ec, fmap_app.
  destruct (zip_fst_snd_eq _ _ Hg) as [Eg1 _]. fold (grid_entries g) in Eg1.
  destruct (zip_fst_snd_eq _ _ Hc) as [Ec1 _].
  fold (LocationsPotentialContainer.entries c) in Ec1.
  apply NoDup_app. split; [|split].
  - eapply sublist_NoDup; [exact Dc|]. rewrite Ec1.
    apply fmap_sublist, sublist_filter.
  - intros x Hx. apply list_elem_of_fmap in Hx as (e & -> & He).
    by apply list_elem_of_filter in He as [He _].
  - eapply sublist_NoDup; [exact Dg|]. rewrite Eg, Eg1.
    apply fmap_sublist, sublist_filter.
Qed.

(** C6 fails on the code.  A container that has seen the grid with the
    entries (a, 5) and (b, 7) is given a grid that holds the location [a]
    with the new potential 7.  The pair (a, 7) is not stored, yet it is
    removed from the grid and the container keeps (a, 5): the location and
    the potential are looked up apart, and 7 is the stored potential of [b].
    With the new potential 9, which no stored entry has, the pair stays in
    the grid and replaces (a, 5). *)
Theorem C6_update_grid_drops_changed_potential :
  (let* r1 := LocationsPotentialContainer.update_grid
                (LocationsPotentialContainer.init None None) Samples.grid_first in
   let* r2 := LocationsPotentialContainer.update_grid r1.1 Samples.grid_second in
   Ok (LocationsPotentialContainer.entries r1.1, grid_entries r1.2,
       LocationsPotentialContainer.entries r2.1, grid_entries r2.2))
  = Ok ([(Samples.location_a, 5); (Samples.location_b, 7)],
        [(Samples.location_a, 5); (Samples.location_b, 7)],
        [(Samples.location_a, 5); (Samples.location_b, 7)],
        [])
  /\
  ((Samples.location_a, 7) ∉ [(Samples.location_a, 5); (Samples.location_b, 7)])
  /\
  (let* r1 := LocationsPotentialContainer.update_grid
                (LocationsPotentialContainer.init None None) Samples.grid_first in
   let* r2 := LocationsPotentialContainer.update_grid r1.1
                (Samples.grid_of [Samples.location_a] [9]) in
   Ok (LocationsPotentialContainer.entries r2.1, grid_entries r2.2))
  = Ok ([(Samples.location_b, 7); (Samples.location_a, 9)], [(Samples.location_a, 9)]).
Proof.
  split; [vm_compute; reflexivity|]. split; [|vm_compute; reflexivity].
  intros H. repeat (apply elem_of_cons in H as [H|H]; [discriminate H|]).
  inversion H.
Qed.

End Container.

(** ** Faults: labelling in chunks *)

Section ChunkedLabelling.

Lemma not_equal_any_mismatch a b :
  length a <> length b -> length a <> 1%nat -> length b <> 1%nat ->
  Fault.not_equal_any a b
    = Raise (ValueError "operands could not be broadcast together").
Proof.
  intros Hab Ha Hb. unfold Fault.not_equal_any.
  by rewrite !bool_decide_eq_false_2.
Qed.

(** The comparison at the head of the [while] loop fails, whatever the
    number of passes allowed, when the two arrays cannot be broadcast. *)
Lemma reconcile_mismatch fuel start overlap new_labels labels ov prev :
  length ov <> length prev -> length ov <> 1%nat -> length prev <> 1%nat ->
  Fault.reconcile fuel start overlap new_labels labels ov prev
    = Some (Raise (ValueError "operands could not be broadcast together")).
Proof.
  intros Hab Ha Hb. destruct fuel; simpl; by rewrite not_equal_any_mismatch.
Qed.

(** With [overlap=1] the bound [start - overlap + 1] of the loop is the
    start of the chunk, the first row that the two passes share. *)
Lemma labels_from_overlap_1 start rows :
  Fault.labels_from (start - 1 + 1) rows = Fault.labels_from start rows.
Proof. by replace (start - 1 + 1) with start by lia. Qed.

(** C4 fails on the code.  The mask of shape (6, 5, 1) holds the seed
    {(2, 4, 0)} and, more than one voxel away, the seed {(3, 0, 0),
    (4, 0, 0)}.  Labelled in one pass, and in two chunks with
    [chunk_size=5, overlap=1], it gives the two seeds.  With [chunk_size=5,
    overlap=2] the chunks start at 0 and 3 and the second seed lies in the
    rows 3 and 4 they share; after the first chunk the labels of these rows
    are [2, 2]; the first pass of the loop renames the label 3 of the second
    chunk to 2 and then reads the processed labels from the row
    [start - overlap + 1 = 2] on, which gives [1, 2, 2]; the comparison of
    [2, 2] with [1, 2, 2] raises, whatever the number of passes allowed. *)
Theorem C4_from_mask_raises_with_overlap_two :
  (forall fuel, Fault.from_mask fuel Samples.mask_two_seeds None None 1
     = Some (Ok [(1, [(3, 0, 0); (4, 0, 0)]); (0, [(2, 4, 0)])])) /\
  (forall fuel, Fault.from_mask (S fuel) Samples.mask_two_seeds (Some 5) None 1
     = Some (Ok [(1, [(3, 0, 0); (4, 0, 0)]); (0, [(2, 4, 0)])])) /\
  Fault.range 0 6 (5 - 2) = Ok [0; 3] /\
  (forall fuel,
     Fault.chunk_step fuel 2
       {| Fault.prev_overlapped_labels := None; Fault.labels := []; Fault.n_objects := 0 |}
       0 (pyslice Samples.mask_two_seeds 0 5)
     = Some (Ok {| Fault.prev_overlapped_labels := Some [2; 2];
                   Fault.labels := [((2, 4, 0), 1); ((3, 0, 0), 2); ((4, 0, 0), 2)];
                   Fault.n_objects := 2 |})) /\
  Fault.labels_from (3 - 2 + 1) [((2, 4, 0), 1); ((3, 0, 0), 2); ((4, 0, 0), 2)]
    = [1; 2; 2] /\
  (forall fuel, exists e,
     Fault.from_mask (S fuel) Samples.mask_two_seeds (Some 5) None 2 = Some (Raise e)).
Proof.
  split; [intros fuel; vm_compute; reflexivity|].
  split; [intros fuel; destruct fuel; vm_compute; reflexivity|].
  split; [vm_compute; reflexivity|].
  split; [intros fuel; vm_compute; reflexivity|].
  split; [vm_compute; reflexivity|].
  intros fuel. eexists. destruct fuel; vm_compute; reflexivity.
Qed.

End ChunkedLabelling.

(** ** LocationsPotentialContainer: invariants of [update_grid] *)

Section ContainerInvariants.

(** A container that holds one entry per location, and as many potentials
    as locations, stays so after [update_grid] with a grid of distinct rows;
    the rows left in the grid are distinct too. *)
Theorem update_grid_one_entry_per_location c g c' g' :
  length (locations g) = length (potential g) ->
  length (LocationsPotentialContainer.locations c)
    = length (LocationsPotentialContainer.potential c) ->
  NoDup (locations g) ->
  NoDup (LocationsPotentialContainer.locations c) ->
  LocationsPotentialContainer.update_grid c g = Ok (c', g') ->
  NoDup (LocationsPotentialContainer.locations c') /\
  length (LocationsPotentialContainer.locations c')
    = length (LocationsPotentialContainer.potential c') /\
  NoDup (locations g') /\
  length (locations g') = length (potential g').
Proof.
  intros Hg Hc Dg Dc Hup.
  split; [by eapply update_grid_keeps_distinct|].
  destruct (update_grid_entries c g Hg Hc) as (c1 & g1 & E & Eg & Ec & Lg & Lc).
  rewrite E in Hup. injection Hup as <- <-.
  split; [done|]. split; [|done].
  destruct (zip_fst_snd_eq _ _ Lg) as [E1 _]. fold (grid_entries g1) in E1.
  rewrite E1, Eg.
  eapply sublist_NoDup; [exact Dg|].
  destruct (zip_fst_snd_eq _ _ Hg) as [Eg1 _]. fold (grid_entries g) in Eg1.
  rewrite Eg1. apply fmap_sublist, sublist_filter.
Qed.

Lemma update_grid_one_entry_per_location_witness :
  exists c' g',
    LocationsPotentialContainer.update_grid
      (LocationsPotentialContainer.init None None) Samples.grid_first = Ok (c', g') /\
    NoDup (LocationsPotentialContainer.locations c') /\
    length (LocationsPotentialContainer.locations c')
      = length (LocationsPotentialContainer.potential c') /\
    NoDup (locations g') /\
    length (locations g') = length (potential g').
Proof.
  do 2 eexists. split; [vm_compute; reflexivity|].
  eapply (update_grid_one_entry_per_location
            (LocationsPotentialContainer.init None None) Samples.grid_first).
  - reflexivity.
  - reflexivity.
  - apply (bool_decide_unpack _). vm_compute. exact I.
  - apply NoDup_nil_2.
  - vm_compute. reflexivity.
Defined.

(** The rows that [update_grid] has left in a grid are all stored by then:
    a second call on the same grid object empties it and leaves the entries
    of the container as they are. *)
Theorem update_grid_again_consumes_grid c g c1 g1 :
  length (locations g) = length (potential g) ->
  length (LocationsPotentialContainer.locations c)
    = length (LocationsPotentialContainer.potential c) ->
  LocationsPotentialContainer.update_grid c g = Ok (c1, g1) ->
  exists c2 g2,
    LocationsPotentialContainer.update_grid c1 g1 = Ok (c2, g2) /\
    locations g2 = [] /\ potential g2 = [] /\
    LocationsPotentialContainer.entries c2 = LocationsPotentialContainer.entries c1.
Proof.
  intros Hg Hc Hup.
  destruct (update_grid_entries c g Hg Hc) as (c1' & g1' & E & Eg & Ec & Lg & Lc).
  rewrite E in Hup. injection Hup as <- <-.
  destruct (update_grid_entries c1' g1' Lg Lc) as (c2 & g2 & E2 & Eg2 & Ec2 & Lg2 & Lc2).
  exists c2, g2. split; [done|].
  assert (Hnil : grid_entries g2 = []).
  { rewrite Eg2. apply length_zero_iff_nil, length_filter_none.
    intros e He Hnot. apply Hnot.
    destruct (zip_fst_snd_eq _ _ Lc) as [Hl Hp].
    fold (LocationsPotentialContainer.entries c1') in Hl, Hp. rewrite Hl, Hp, Ec.
    split; apply list_elem_of_fmap; exists e; (split; [done|]);
      apply elem_of_app; by right. }
  assert (Hl : locations g2 = []).
  { destruct (zip_fst_snd_eq _ _ Lg2) as [E1 _]. fold (grid_entries g2) in E1.
    by rewrite E1, Hnil. }
  split; [done|]. split.
  { apply length_zero_iff_nil. rewrite <- Lg2, Hl. done. }
  rewrite Ec2, Hnil, app_nil_r. simpl.
  generalize (LocationsPotentialContainer.entries c1'). clear.
  induction l as [|e l IH]; [done|].
  rewrite filter_cons_True; [by f_equal|]. apply not_elem_of_nil.
Qed.

Lemma update_grid_again_consumes_grid_witness :
  exists c1 g1 c2 g2,
    LocationsPotentialContainer.update_grid
      (LocationsPotentialContainer.init None None) Samples.grid_first = Ok (c1, g1) /\
    LocationsPotentialContainer.update_grid c1 g1 = Ok (c2, g2) /\
    locations g2 = [] /\ potential g2 = [] /\
    LocationsPotentialContainer.entries c2 = LocationsPotentialContainer.entries c1.
Proof.
  do 2 eexists.
  destruct (update_grid_again_consumes_grid
              (LocationsPotentialContainer.init None None) Samples.grid_first
              _ _ eq_refl eq_refl eq_refl) as (c2 & g2 & H).
  exists c2, g2. split; [reflexivity|exact H].
Defined.

(** A row of the grid at a location that the container has not stored stays
    in the grid and is stored with its potential; and for every location
    that stays in the grid, the container afterwards holds no other entries
    at this location than the ones of the grid. *)
Theorem update_grid_stores_new_locations c g c' g' :
  length (locations g) = length (potential g) ->
  length (LocationsPotentialContainer.locations c)
    = length (LocationsPotentialContainer.potential c) ->
  LocationsPotentialContainer.update_grid c g = Ok (c', g') ->
  (forall l p, (l, p) ∈ grid_entries g ->
     l ∉ LocationsPotentialContainer.locations c ->
     (l, p) ∈ grid_entries g' /\ (l, p) ∈ LocationsPotentialContainer.entries c') /\
  (forall l p q, (l, p) ∈ grid_entries g' ->
     (l, q) ∈ LocationsPotentialContainer.entries c' -> (l, q) ∈ grid_entries g').
Proof.
  intros Hg Hc Hup.
  destruct (update_grid_entries c g Hg Hc) as (c1 & g1 & E & Eg & Ec & Lg & Lc).
  rewrite E in Hup. injection Hup as <- <-. split.
  - intros l p Hin Hnew.
    assert (Hkept : (l, p) ∈ grid_entries g1).
    { rewrite Eg. apply list_elem_of_filter. split; [|done]. simpl. tauto. }
    split; [done|]. rewrite Ec. apply elem_of_app. by right.
  - intros l p q Hp Hq. rewrite Ec in Hq.
    apply elem_of_app in Hq as [Hq|Hq]; [|done].
    apply list_elem_of_filter in Hq as [Hq _]. exfalso. apply Hq. simpl.
    apply list_elem_of_fmap. by exists (l, p).
Qed.

Lemma update_grid_stores_new_locations_witness :
  exists c' g',
    LocationsPotentialContainer.update_grid
      (LocationsPotentialContainer.init None None) Samples.grid_first = Ok (c', g') /\
    (forall l p, (l, p) ∈ grid_entries Samples.grid_first ->
       l ∉ LocationsPotentialContainer.locations (LocationsPotentialContainer.init None None) ->
       (l, p) ∈ grid_entries g' /\ (l, p) ∈ LocationsPotentialContainer.entries c') /\
    (forall l p q, (l, p) ∈ grid_entries g' ->
       (l, q) ∈ LocationsPotentialContainer.entries c' -> (l, q) ∈ grid_entries g').
Proof.
  do 2 eexists. split; [vm_compute; reflexivity|].
  apply (update_grid_stores_new_locations
           (LocationsPotentialContainer.init None None) Samples.grid_first);
    reflexivity.
Defined.

(** A grid with a different number of locations and potentials is rejected:
    the two masks cannot be combined, or do not fit the array they index. *)
Theorem update_grid_length_mismatch c g :
  length (locations g) <> length (potential g) ->
  LocationsPotentialContainer.update_grid c g = Raise IndexError \/
  LocationsPotentialContainer.update_grid c g
    = Raise (ValueError "operands could not be broadcast together").
Proof.
  intros Hne. destruct g as [gl gp cs o og en bs], c as [cl cp rl tr].
  unfold LocationsPotentialContainer.update_grid,
    LocationsPotentialContainer.grid_locations, LocationsPotentialContainer.grid_potential.
  cbn [locations potential LocationsPotentialContainer.locations
       LocationsPotentialContainer.potential] in *.
  unfold logical_and, in1d. rewrite !length_fmap.
  rewrite bool_decide_eq_false_2 by done.
  destruct (decide (length gl = 1%nat)) as [H1|H1].
  - rewrite bool_decide_eq_true_2 by done. cbn [rbind]. left.
    unfold bool_index at 1. rewrite !length_fmap.
    rewrite bool_decide_eq_false_2 by congruence. done.
  - rewrite bool_decide_eq_false_2 by done.
    destruct (decide (length gp = 1%nat)) as [H2|H2].
    + rewrite bool_decide_eq_true_2 by done. cbn [rbind]. left.
      unfold bool_index at 1. rewrite !length_fmap.
      rewrite bool_decide_eq_true_2 by done. cbn [rbind].
      unfold bool_index at 1. rewrite !length_fmap.
      rewrite bool_decide_eq_false_2 by done. done.
    + rewrite bool_decide_eq_false_2 by done. by right.
Qed.

Lemma update_grid_length_mismatch_witness :
  LocationsPotentialContainer.update_grid (LocationsPotentialContainer.init None None)
    (Samples.grid_of [Samples.location_a; Samples.location_b] [5]) = Raise IndexError \/
  LocationsPotentialContainer.update_grid (LocationsPotentialContainer.init None None)
    (Samples.grid_of [Samples.location_a; Samples.location_b] [5])
    = Raise (ValueError "operands could not be broadcast together").
Proof.
  apply update_grid_length_mismatch. simpl. lia.
Defined.

End ContainerInvariants.

(** ** Horizon: the two conversions between points and matrix *)

Section StorageConversions.

Lemma get2_Some_bounds {A} k (m : list (list A)) a b v :
  rect k m -> get2 m a b = Some v -> (a < length m)%nat /\ (b < k)%nat.
Proof.
  unfold get2, rect. intros Hrect Hget.
  destruct (m !! a) as [row|] eqn:Hrow; [|done]. simpl in Hget.
  split; [by eapply lookup_lt_Some|].
  rewrite <- (proj1 (Forall_forall _ _) Hrect row (list_elem_of_lookup_2 _ _ _ Hrow)).
  by eapply lookup_lt_Some.
Qed.

Lemma get2_rect_is_Some {A} k (m : list (list A)) a b :
  rect k m -> (a < length m)%nat -> (b < k)%nat -> is_Some (get2 m a b).
Proof.
  unfold get2, rect. intros Hrect Ha Hb.
  destruct (lookup_lt_is_Some_2 m a Ha) as [row Hrow]. rewrite Hrow. simpl.
  apply lookup_lt_is_Some_2.
  by rewrite (proj1 (Forall_forall _ _) Hrect row) by by eapply list_elem_of_lookup_2.
Qed.

Lemma matrix_ext {A} k (m m' : list (list A)) :
  rect k m -> rect k m' -> length m = length m' ->
  (forall a b, get2 m a b = get2 m' a b) -> m = m'.
Proof.
  intros Hr Hr' Hlen Hget. apply list_eq. intros a.
  destruct (m !! a) as [row|] eqn:Hrow.
  - destruct (lookup_lt_is_Some_2 m' a) as [row' Hrow'];
      [rewrite <- Hlen; by eapply lookup_lt_Some|].
    rewrite Hrow'. f_equal. apply list_eq. intros b.
    specialize (Hget a b). unfold get2 in Hget. by rewrite Hrow, Hrow' in Hget.
  - symmetry. apply lookup_ge_None. rewrite <- Hlen. by apply lookup_ge_None.
Qed.

Lemma get2_replicate {A} (n k a b : nat) (v : A) :
  (a < n)%nat -> (b < k)%nat -> get2 (replicate n (replicate k v)) a b = Some v.
Proof.
  intros Ha Hb. unfold get2. rewrite lookup_replicate_2 by done. simpl.
  by rewrite lookup_replicate_2.
Qed.

Lemma rect_replicate {A} (n k : nat) (v : A) : rect k (replicate n (replicate k v)).
Proof.
  unfold rect. apply Forall_forall. intros row Hin.
  apply elem_of_replicate in Hin as [-> _]. apply length_replicate.
Qed.

(** The cells of a matrix that [scatter] has written: each holds the depth
    of the last point that addresses it, and its old value if there is
    none. *)
Lemma scatter_cells (P : list point) i_min x_min k (m0 : list (list Z)) :
  rect k m0 ->
  Forall (Horizon.valid_point i_min x_min (Z.of_nat (length m0)) (Z.of_nat k)) P ->
  exists m, Horizon.scatter P i_min x_min m0 = Ok m /\ rect k m /\ length m = length m0 /\
    forall a b,
      get2 m a b =
        match last (filter (fun p : point => a = Z.to_nat (p.1.1 - i_min)
                                             /\ b = Z.to_nat (p.1.2 - x_min)) P) with
        | Some p => Some p.2
        | None => get2 m0 a b
        end.
Proof.
  revert m0. induction P as [|[[i x] h] P IH]; intros m0 Hrect Hval.
  - exists m0. by repeat split.
  - apply Forall_cons in Hval as [Hp Hval].
    destruct Hp as (Hi & Hx & Hh & _ & Hbi & Hbx). simpl in *.
    rewrite !int32_id by done.
    destruct (setitem2_in_range m0 k (i - i_min) (x - x_min) h)
      as (m1 & Hset & Hrect1 & Hlen1); [done|lia|lia|].
    rewrite Hset. simpl.
    destruct (IH m1) as (m & Hsc & Hrectm & Hlenm & Hget); [done|by rewrite Hlen1|].
    exists m. split; [done|]. split; [done|]. split; [congruence|].
    intros a b. rewrite Hget, filter_cons. simpl.
    rewrite (get2_setitem2 m0 m1 _ _ _ a b Hset) by lia.
    destruct (decide (a = Z.to_nat (i - i_min) /\ b = Z.to_nat (x - x_min))) as [E|E].
    + destruct (filter _ P) as [|q l] eqn:Hf; [done|].
      rewrite last_cons_cons. destruct (last (q :: l)) eqn:El; [done|].
      by apply last_None in El.
    + done.
Qed.

(** [points_to_matrix] on points inside the box, which may address a cell
    more than once: the matrix has the shape asked for; a cell that no point
    addresses holds [FILL_VALUE], and any other cell holds the depth of one
    of the points that address it. *)
Theorem points_to_matrix_cells (P : list point) i_min x_min i_length x_length :
  0 <= i_length -> 0 <= x_length ->
  Forall (Horizon.valid_point i_min x_min i_length x_length) P ->
  exists m, Horizon.points_to_matrix P i_min x_min i_length x_length = Ok m /\
    length m = Z.to_nat i_length /\ rect (Z.to_nat x_length) m /\
    forall a b, (a < Z.to_nat i_length)%nat -> (b < Z.to_nat x_length)%nat ->
      (get2 m a b = Some Horizon.FILL_VALUE /\
       forall p, p ∈ P ->
         ~ (a = Z.to_nat (p.1.1 - i_min) /\ b = Z.to_nat (p.1.2 - x_min)))
      \/ (exists p, p ∈ P /\ a = Z.to_nat (p.1.1 - i_min) /\ b = Z.to_nat (p.1.2 - x_min)
                     /\ get2 m a b = Some p.2).
Proof.
  intros Hil Hxl Hval. unfold Horizon.points_to_matrix, full.
  destruct (i_length <? 0) eqn:E1; [lia|]. destruct (x_length <? 0) eqn:E2; [lia|].
  cbn [orb rbind].
  set (m0 := replicate (Z.to_nat i_length) (replicate (Z.to_nat x_length) Horizon.FILL_VALUE)).
  destruct (scatter_cells P i_min x_min (Z.to_nat x_length) m0)
    as (m & Hsc & Hrect & Hlen & Hget).
  - apply rect_replicate.
  - unfold m0. rewrite length_replicate, !Z2Nat.id by lia. exact Hval.
  - exists m. split; [done|]. split; [by rewrite Hlen; apply length_replicate|].
    split; [done|]. intros a b Ha Hb. rewrite Hget.
    destruct (last _) as [p|] eqn:El.
    + right. exists p. apply last_Some_elem_of in El.
      apply list_elem_of_filter in El as [[-> ->] Hin]. done.
    + left. split; [by apply get2_replicate|]. intros p Hin Hat.
      apply last_None in El.
      assert (Hp : p ∈ filter (fun p : point => a = Z.to_nat (p.1.1 - i_min)
                                             /\ b = Z.to_nat (p.1.2 - x_min)) P)
        by by apply list_elem_of_filter.
      rewrite El in Hp. inversion Hp.
Qed.

Lemma points_to_matrix_cells_witness :
  exists m, Horizon.points_to_matrix [(3, 4, 100); (3, 5, 101); (3, 4, 102)] 3 4 2 2 = Ok m /\
    length m = Z.to_nat 2 /\ rect (Z.to_nat 2) m /\
    forall a b, (a < Z.to_nat 2)%nat -> (b < Z.to_nat 2)%nat ->
      (get2 m a b = Some Horizon.FILL_VALUE /\
       forall p, p ∈ [(3, 4, 100); (3, 5, 101); (3, 4, 102)] ->
         ~ (a = Z.to_nat (p.1.1 - 3) /\ b = Z.to_nat (p.1.2 - 4)))
      \/ (exists p, p ∈ [(3, 4, 100); (3, 5, 101); (3, 4, 102)]
                     /\ a = Z.to_nat (p.1.1 - 3) /\ b = Z.to_nat (p.1.2 - 4)
                     /\ get2 m a b = Some p.2).
Proof.
  apply points_to_matrix_cells; [lia|lia|].
  repeat (apply Forall_cons_2;
          [unfold Horizon.valid_point, fits_int32, Horizon.FILL_VALUE; simpl; lia|]).
  apply Forall_nil_2.
Defined.

Lemma NoDup_keys_matrix_to_points (m : list (list Z)) :
  NoDup (Horizon.keys (Horizon.matrix_to_points m)).
Proof.
  unfold Horizon.keys, Horizon.matrix_to_points.
  apply NoDup_fmap_2_strong; [|apply NoDup_rows_to_points].
  intros p q Hp Hq Hk.
  apply elem_of_rows_to_points in Hp as (a & b & v & Hv & _ & ->).
  apply elem_of_rows_to_points in Hq as (a' & b' & v' & Hv' & _ & ->).
  simpl in Hk. injection Hk as Ha Hb.
  assert (a = a') as <- by lia. assert (b = b') as <- by lia.
  rewrite Hv in Hv'. by injection Hv' as <-.
Qed.

(** The converse of the round trip of C1: a rectangular matrix of [int32]
    values, with fewer than 2^31 rows and columns, is given back by
    [matrix_to_points] followed by [points_to_matrix] with the origin (0, 0)
    and the shape of the matrix. *)
Theorem matrix_points_matrix_roundtrip (m : list (list Z)) (k : nat) :
  rect k m ->
  Forall (Forall fits_int32) m ->
  fits_int32 (nrows m) -> fits_int32 (Z.of_nat k) ->
  Horizon.points_to_matrix (Horizon.matrix_to_points m) 0 0 (nrows m) (Z.of_nat k) = Ok m.
Proof.
  intros Hrect Hfits Hn Hk. unfold Horizon.points_to_matrix, full, nrows in *.
  assert ((Z.of_nat (length m) <? 0) = false) as -> by (apply Z.ltb_ge; apply Nat2Z.is_nonneg).
  assert ((Z.of_nat k <? 0) = false) as -> by (apply Z.ltb_ge; apply Nat2Z.is_nonneg).
  cbn [orb rbind]. rewrite !Nat2Z.id.
  set (m0 := replicate (length m) (replicate k Horizon.FILL_VALUE)).
  assert (Hcell : forall a b v, get2 m a b = Some v -> fits_int32 v).
  { intros a b v Hget. unfold get2 in Hget.
    destruct (m !! a) as [row|] eqn:Hrow; [|done]. simpl in Hget.
    eapply (proj1 (Forall_forall _ _)); [|by eapply list_elem_of_lookup_2].
    eapply (proj1 (Forall_forall _ _) Hfits). by eapply list_elem_of_lookup_2. }
  destruct (scatter_spec (Horizon.matrix_to_points m) 0 0 k m0)
    as (m' & Hsc & Hrect' & Hlen' & Hget).
  - apply NoDup_keys_matrix_to_points.
  - apply rect_replicate.
  - unfold m0. rewrite length_replicate. apply Forall_forall. intros p Hp.
    apply elem_of_rows_to_points in Hp as (a & b & v & Hv & Hne & ->).
    destruct (get2_Some_bounds k m a b v Hrect Hv) as [Ha Hb].
    unfold Horizon.valid_point, fits_int32 in *. simpl.
    specialize (Hcell a b v Hv). unfold fits_int32 in Hcell. lia.
  - rewrite Hsc. f_equal. unfold m0 in Hlen'. rewrite length_replicate in Hlen'.
    apply (matrix_ext k); [done|done|done|]. intros a b.
    destruct (get2 m a b) as [v0|] eqn:Hv0.
    + destruct (get2_Some_bounds k m a b v0 Hrect Hv0) as [Ha Hb].
      apply Hget. destruct (decide (v0 = Horizon.FILL_VALUE)) as [->|Hne].
      * right. split; [by apply get2_replicate|].
        intros i x h Hin [-> ->].
        apply elem_of_rows_to_points in Hin as (a' & b' & v' & Hv' & Hne' & [= -> -> ->]).
        rewrite !Z.sub_0_r, !Z.add_0_l, !Nat2Z.id in Hv0. congruence.
      * left. exists (Z.of_nat a), (Z.of_nat b). split; [|lia].
        apply elem_of_rows_to_points. exists a, b, v0. by rewrite Z.add_0_l.
    + destruct (get2 m' a b) as [v|] eqn:Hv; [|done]. exfalso.
      apply Hget in Hv as [(i & x & Hin & -> & ->)|[Hv _]].
      * apply elem_of_rows_to_points in Hin as (a' & b' & v' & Hv' & Hne' & [= -> -> ->]).
        rewrite !Z.sub_0_r, !Z.add_0_l, !Nat2Z.id in Hv0. congruence.
      * destruct (get2_Some_bounds k m0 a b v (rect_replicate _ _ _) Hv) as [Ha Hb].
        unfold m0 in Ha. rewrite length_replicate in Ha.
        destruct (get2_rect_is_Some k m a b Hrect Ha Hb) as [? ?]. congruence.
Qed.

Lemma matrix_points_matrix_roundtrip_witness :
  Horizon.points_to_matrix
    (Horizon.matrix_to_points [[5; Horizon.FILL_VALUE]; [Horizon.FILL_VALUE; 7]])
    0 0 (nrows [[5; Horizon.FILL_VALUE]; [Horizon.FILL_VALUE; 7]]) (Z.of_nat 2)
  = Ok [[5; Horizon.FILL_VALUE]; [Horizon.FILL_VALUE; 7]].
Proof.
  apply matrix_points_matrix_roundtrip.
  - repeat (apply Forall_cons_2; [reflexivity|]). apply Forall_nil_2.
  - repeat (apply Forall_cons_2;
            [repeat (apply Forall_cons_2;
                     [unfold fits_int32, Horizon.FILL_VALUE; lia|]); apply Forall_nil_2|]).
    apply Forall_nil_2.
  - unfold fits_int32, nrows. simpl. lia.
  - unfold fits_int32. simpl. lia.
Defined.




End StorageConversions.

(** ** Horizon: bounding box, filter and self-subtraction *)

Section HorizonState.

Lemma int32_fits z : fits_int32 (int32 z).
Proof.
  unfold fits_int32, int32.
  pose proof (Z.mod_pos_bound (z + 2 ^ 31) (2 ^ 32)). lia.
Qed.

Lemma int32_idem z : int32 (int32 z) = int32 z.
Proof. apply int32_id, int32_fits. Qed.

Lemma foldr_min_spec v (l : list Z) :
  foldr Z.min v l ∈ v :: l /\ Forall (fun x => foldr Z.min v l <= x) (v :: l).
Proof.
  induction l as [|y l [IHin IHle]]; simpl.
  - split; [by left|]. apply Forall_cons_2; [lia|apply Forall_nil_2].
  - apply Forall_cons in IHle as [Hv Hl]. split.
    + destruct (Z.min_spec y (foldr Z.min v l)) as [[_ ->]|[_ ->]].
      * right. by left.
      * apply elem_of_cons in IHin as [->|Hin]; [by left|]. right. by right.
    + apply Forall_cons_2; [lia|]. apply Forall_cons_2; [lia|].
      eapply Forall_impl; [exact Hl|]. simpl. intros. lia.
Qed.

Lemma foldr_max_spec v (l : list Z) :
  foldr Z.max v l ∈ v :: l /\ Forall (fun x => x <= foldr Z.max v l) (v :: l).
Proof.
  induction l as [|y l [IHin IHle]]; simpl.
  - split; [by left|]. apply Forall_cons_2; [lia|apply Forall_nil_2].
  - apply Forall_cons in IHle as [Hv Hl]. split.
    + destruct (Z.max_spec y (foldr Z.max v l)) as [[_ ->]|[_ ->]].
      * apply elem_of_cons in IHin as [->|Hin]; [by left|]. right. by right.
      * right. by left.
    + apply Forall_cons_2; [lia|]. apply Forall_cons_2; [lia|].
      eapply Forall_impl; [exact Hl|]. simpl. intros. lia.
Qed.

(** [reset_storage('matrix')] on an instance whose points are set: the
    points stay, the matrix and the lazy statistics are dropped, the cache is
    not touched, and for a non-empty point array the bounding box is
    computed from the points. *)
Lemma reset_storage_matrix_spec limit h pts :
  Horizon._points h = Some pts ->
  exists h',
    Horizon.reset_storage (S limit) (Some Horizon.matrix_storage) h = Ok h' /\
    Horizon._points h' = Some pts /\ Horizon._matrix h' = None /\
    Horizon.cache h' = Horizon.cache h /\ Horizon.field_of h' = Horizon.field_of h /\
    match pts with
    | [] =>
        Horizon.i_min h' = Horizon.i_min h /\ Horizon.i_max h' = Horizon.i_max h /\
        Horizon.x_min h' = Horizon.x_min h /\ Horizon.x_max h' = Horizon.x_max h /\
        Horizon.i_length h' = Horizon.i_length h /\
        Horizon.x_length h' = Horizon.x_length h /\
        Horizon.bbox h' = Horizon.bbox h /\
        Horizon._h_min h' = None /\ Horizon._h_max h' = None
    | p :: l =>
        let imin := foldr Z.min p.1.1 ((fun q : point => q.1.1) <$> l) in
        let imax := foldr Z.max p.1.1 ((fun q : point => q.1.1) <$> l) in
        let xmin := foldr Z.min p.1.2 ((fun q : point => q.1.2) <$> l) in
        let xmax := foldr Z.max p.1.2 ((fun q : point => q.1.2) <$> l) in
        let hmin := foldr Z.min p.2 ((fun q : point => q.2) <$> l) in
        let hmax := foldr Z.max p.2 ((fun q : point => q.2) <$> l) in
        Horizon.i_min h' = Some imin /\ Horizon.i_max h' = Some imax /\
        Horizon.x_min h' = Some xmin /\ Horizon.x_max h' = Some xmax /\
        Horizon.i_length h' = Some (imax - imin + 1) /\
        Horizon.x_length h' = Some (xmax - xmin + 1) /\
        Horizon.bbox h' = Some [(imin, imax); (xmin, xmax); (int32 hmin, int32 hmax)] /\
        Horizon._h_min h' = Some (int32 hmin) /\ Horizon._h_max h' = Some (int32 hmax)
    end.
Proof.
  destruct h. simpl. intros ->.
  destruct pts as [|p l]; eexists; (split; [reflexivity|]); simpl; repeat split.
Qed.

(** The points of a cube of the [int32] range are not changed by the cast. *)
Lemma astype_int32_inside (n0 n1 n2 : Z) (pts : list point) :
  n0 <= 2 ^ 31 -> n1 <= 2 ^ 31 -> n2 <= 2 ^ 31 ->
  Horizon.astype_int32
    (filter (fun p : point =>
               0 <= p.1.1 /\ 0 <= p.1.2 /\ 0 <= p.2 /\
               p.1.1 < n0 /\ p.1.2 < n1 /\ p.2 < n2) pts)
  = filter (fun p : point =>
              0 <= p.1.1 /\ 0 <= p.1.2 /\ 0 <= p.2 /\
              p.1.1 < n0 /\ p.1.2 < n1 /\ p.2 < n2) pts.
Proof.
  intros H0 H1 H2. unfold Horizon.astype_int32.
  rewrite <- (list_fmap_id (filter _ pts)) at 2.
  apply list_fmap_ext. intros k [[i x] d] Hk.
  apply list_elem_of_lookup_2, list_elem_of_filter in Hk as [Hin _]. simpl in *.
  rewrite !int32_id by (unfold fits_int32; lia). done.
Qed.

(** A horizon made from an array of points in a cube whose shape is in the
    [int32] range: the stored points are the rows that lie in the cube; for
    a non-empty array the bounding box is the smallest box that holds them
    (each bound is reached by a point), the lengths are the extents of the
    box, and the depth statistics are the smallest and the largest depth. *)
Theorem init_from_points_bounding_box limit f rows h :
  (Horizon.shape f).1.1 <= 2 ^ 31 -> (Horizon.shape f).1.2 <= 2 ^ 31 ->
  (Horizon.shape f).2 <= 2 ^ 31 ->
  Horizon.init limit f 3 rows None = Ok h ->
  exists pts,
    pts = filter (fun p : point =>
                    0 <= p.1.1 /\ 0 <= p.1.2 /\ 0 <= p.2 /\
                    p.1.1 < (Horizon.shape f).1.1 /\ p.1.2 < (Horizon.shape f).1.2
                    /\ p.2 < (Horizon.shape f).2)
                 (Horizon.row_point <$> rows) /\
    Horizon._points h = Some pts /\ Horizon._matrix h = None /\
    (pts <> [] ->
     exists a b c d lo hi,
       Horizon.i_min h = Some a /\ Horizon.i_max h = Some b /\
       Horizon.x_min h = Some c /\ Horizon.x_max h = Some d /\
       Horizon.i_length h = Some (b - a + 1) /\ Horizon.x_length h = Some (d - c + 1) /\
       Horizon._h_min h = Some lo /\ Horizon._h_max h = Some hi /\
       Forall (fun p : point => a <= p.1.1 <= b /\ c <= p.1.2 <= d /\ lo <= p.2 <= hi) pts /\
       (exists p, p ∈ pts /\ p.1.1 = a) /\ (exists p, p ∈ pts /\ p.1.1 = b) /\
       (exists p, p ∈ pts /\ p.1.2 = c) /\ (exists p, p ∈ pts /\ p.1.2 = d) /\
       (exists p, p ∈ pts /\ p.2 = lo) /\ (exists p, p ∈ pts /\ p.2 = hi)).
Proof.
  unfold Horizon.init. rewrite Z.eqb_refl. unfold Horizon.from_points.
  destruct f as [[[n0 n1] n2] zt]. cbn [Horizon.shape Horizon.field_of Horizon.blank fst snd].
  intros Hn0 Hn1 Hn2. rewrite astype_int32_inside by done.
  set (pts := filter _ _). intros Hinit.
  destruct limit as [|limit]; [done|].
  destruct (reset_storage_matrix_spec limit
              (Horizon.set__points (Some pts)
                 (Horizon.blank {| Horizon.shape := (n0, n1, n2); Horizon.zero_traces := zt |}))
              pts eq_refl) as (h' & Hr & Hp & Hm & _ & _ & Hbox).
  rewrite Hr in Hinit. injection Hinit as <-.
  exists pts. split; [done|]. split; [done|]. split; [done|].
  intros Hne. destruct pts as [|p l] eqn:Epts; [done|].
  destruct Hbox as (Hi0 & Hi1 & Hx0 & Hx1 & Hil & Hxl & _ & Hh0 & Hh1).
  set (imin := foldr Z.min p.1.1 ((fun q : point => q.1.1) <$> l)) in *.
  set (imax := foldr Z.max p.1.1 ((fun q : point => q.1.1) <$> l)) in *.
  set (xmin := foldr Z.min p.1.2 ((fun q : point => q.1.2) <$> l)) in *.
  set (xmax := foldr Z.max p.1.2 ((fun q : point => q.1.2) <$> l)) in *.
  set (hmin := foldr Z.min p.2 ((fun q : point => q.2) <$> l)) in *.
  set (hmax := foldr Z.max p.2 ((fun q : point => q.2) <$> l)) in *.
  destruct (foldr_min_spec p.1.1 ((fun q : point => q.1.1) <$> l)) as [Ia Fa].
  destruct (foldr_max_spec p.1.1 ((fun q : point => q.1.1) <$> l)) as [Ib Fb].
  destruct (foldr_min_spec p.1.2 ((fun q : point => q.1.2) <$> l)) as [Ic Fc].
  destruct (foldr_max_spec p.1.2 ((fun q : point => q.1.2) <$> l)) as [Id Fd].
  destruct (foldr_min_spec p.2 ((fun q : point => q.2) <$> l)) as [Ilo Flo].
  destruct (foldr_max_spec p.2 ((fun q : point => q.2) <$> l)) as [Ihi Fhi].
  fold imin in Ia, Fa. fold imax in Ib, Fb. fold xmin in Ic, Fc. fold xmax in Id, Fd.
  fold hmin in Ilo, Flo. fold hmax in Ihi, Fhi.
  change (p.1.1 :: ((fun q : point => q.1.1) <$> l))
    with ((fun q : point => q.1.1) <$> p :: l) in *.
  change (p.1.2 :: ((fun q : point => q.1.2) <$> l))
    with ((fun q : point => q.1.2) <$> p :: l) in *.
  change (p.2 :: ((fun q : point => q.2) <$> l))
    with ((fun q : point => q.2) <$> p :: l) in *.
  assert (Hcast : forall q, q ∈ p :: l -> int32 q.2 = q.2).
  { intros q Hq. rewrite <- Epts in Hq.
    apply list_elem_of_filter in Hq as [Hq _].
    apply int32_id. unfold fits_int32. lia. }
  assert (Hlo : int32 hmin = hmin).
  { apply list_elem_of_fmap in Ilo as (q & -> & Hq). by apply Hcast. }
  assert (Hhi : int32 hmax = hmax).
  { apply list_elem_of_fmap in Ihi as (q & -> & Hq). by apply Hcast. }
  exists imin, imax, xmin, xmax, hmin, hmax.
  rewrite Hlo in Hh0. rewrite Hhi in Hh1.
  repeat (split; [done|]).
  split.
  { apply Forall_forall. intros q Hq.
    assert (Mi : q.1.1 ∈ (fun q : point => q.1.1) <$> p :: l)
      by (apply list_elem_of_fmap; by exists q).
    assert (Mx : q.1.2 ∈ (fun q : point => q.1.2) <$> p :: l)
      by (apply list_elem_of_fmap; by exists q).
    assert (Mh : q.2 ∈ (fun q : point => q.2) <$> p :: l)
      by (apply list_elem_of_fmap; by exists q).
    pose proof (proj1 (Forall_forall _ _) Fa q.1.1 Mi) as H1.
    pose proof (proj1 (Forall_forall _ _) Fb q.1.1 Mi) as H2.
    pose proof (proj1 (Forall_forall _ _) Fc q.1.2 Mx) as H3.
    pose proof (proj1 (Forall_forall _ _) Fd q.1.2 Mx) as H4.
    pose proof (proj1 (Forall_forall _ _) Flo q.2 Mh) as H5.
    pose proof (proj1 (Forall_forall _ _) Fhi q.2 Mh) as H6.
    simpl in H1, H2, H3, H4, H5, H6. lia. }
  apply list_elem_of_fmap in Ia as (qa & Ha & Hqa).
  apply list_elem_of_fmap in Ib as (qb & Hb & Hqb).
  apply list_elem_of_fmap in Ic as (qc & Hc & Hqc).
  apply list_elem_of_fmap in Id as (qd & Hd & Hqd).
  apply list_elem_of_fmap in Ilo as (ql & Hl & Hql).
  apply list_elem_of_fmap in Ihi as (qh & Hh & Hqh).
  repeat match goal with |- _ /\ _ => split end;
    [by exists qa|by exists qb|by exists qc|by exists qd|by exists ql|by exists qh].
Qed.


Lemma init_from_points_bounding_box_witness :
  exists pts,
    pts = filter (fun p : point =>
                    0 <= p.1.1 /\ 0 <= p.1.2 /\ 0 <= p.2 /\
                    p.1.1 < (Horizon.shape Samples.small_field).1.1
                    /\ p.1.2 < (Horizon.shape Samples.small_field).1.2
                    /\ p.2 < (Horizon.shape Samples.small_field).2)
                 (Horizon.row_point <$> [[0; 0; 5]; [1; 1; 7]]) /\
    Horizon._points Samples.surface_a = Some pts /\
    Horizon._matrix Samples.surface_a = None /\
    (pts <> [] ->
     exists a b c d lo hi,
       Horizon.i_min Samples.surface_a = Some a /\ Horizon.i_max Samples.surface_a = Some b /\
       Horizon.x_min Samples.surface_a = Some c /\ Horizon.x_max Samples.surface_a = Some d /\
       Horizon.i_length Samples.surface_a = Some (b - a + 1) /\
       Horizon.x_length Samples.surface_a = Some (d - c + 1) /\
       Horizon._h_min Samples.surface_a = Some lo /\
       Horizon._h_max Samples.surface_a = Some hi /\
       Forall (fun p : point => a <= p.1.1 <= b /\ c <= p.1.2 <= d /\ lo <= p.2 <= hi) pts /\
       (exists p, p ∈ pts /\ p.1.1 = a) /\ (exists p, p ∈ pts /\ p.1.1 = b) /\
       (exists p, p ∈ pts /\ p.1.2 = c) /\ (exists p, p ∈ pts /\ p.1.2 = d) /\
       (exists p, p ∈ pts /\ p.2 = lo) /\ (exists p, p ∈ pts /\ p.2 = hi)).
Proof.
  apply (init_from_points_bounding_box Samples.recursion_limit);
    [simpl; lia..|vm_compute; reflexivity].
Defined.

Lemma points_array_post limit h pts h1 :
  Horizon.points_array limit h = Ok (pts, h1) ->
  Horizon._points h1 = Some pts /\ (0 < limit)%nat.
Proof.
  unfold Horizon.points_array. intros H.
  destruct limit as [|limit]; [done|]. split; [|lia].
  simpl in H. destruct (Horizon._points h) as [p|] eqn:Hp.
  - simpl in H. injection H as <- <-. done.
  - destruct (Horizon.matrix limit h) as [[om h2]|]; [|done]. simpl in H.
    destruct om as [m|]; [|done].
    destruct (Horizon.i_min h2), (Horizon.x_min h2); try done.
    simpl in H. injection H as <- <-. by destruct h2.
Qed.

Lemma keep_unmasked_spec (fm : list (list Z)) k (pts : list point) :
  rect k fm ->
  Forall (fun p : point => 0 <= p.1.1 < nrows fm /\ 0 <= p.1.2 < Z.of_nat k) pts ->
  Horizon.keep_unmasked fm pts
  = Ok (filter (fun p : point =>
                  get2 fm (Z.to_nat p.1.1) (Z.to_nat p.1.2) = Some 0) pts).
Proof.
  intros Hrect. induction pts as [|p pts IH]; intros Hin; [done|].
  apply Forall_cons in Hin as [[Hi Hx] Hin]. unfold nrows in Hi.
  simpl. unfold getitem2. rewrite norm_index_in_range by done.
  destruct (lookup_lt_is_Some_2 fm (Z.to_nat p.1.1)) as [row Hrow]; [lia|].
  rewrite Hrow.
  assert (Hlen : length row = k).
  { apply (proj1 (Forall_forall _ _) Hrect). by eapply list_elem_of_lookup_2. }
  rewrite Hlen, norm_index_in_range by done.
  destruct (lookup_lt_is_Some_2 row (Z.to_nat p.1.2)) as [v Hv]; [lia|].
  rewrite Hv. cbn [rbind]. rewrite IH by done. cbn [rbind].
  rewrite filter_cons. unfold get2. rewrite Hrow. simpl. rewrite Hv.
  destruct (Z.eqb_spec v 0) as [->|Hne].
  - by rewrite decide_True.
  - rewrite decide_False; [done|]. intros [= ?]. done.
Qed.

(** [Horizon.filter_points] keeps, in their order, the points at which the
    filtering matrix is 0 and drops any other point, whatever the non-zero
    value is; the matrix storage is dropped and the attribute cache is left
    empty. *)
Theorem filter_points_keeps_zero_cells limit (fm : list (list Z)) k h pts h1 :
  Horizon.points_array limit h = Ok (pts, h1) ->
  rect k fm ->
  Forall (fun p : point => 0 <= p.1.1 < nrows fm /\ 0 <= p.1.2 < Z.of_nat k) pts ->
  exists h',
    Horizon.filter_points limit (Some fm) h = Ok h' /\
    Horizon._points h'
      = Some (filter (fun p : point =>
                        get2 fm (Z.to_nat p.1.1) (Z.to_nat p.1.2) = Some 0) pts) /\
    Horizon._matrix h' = None /\
    Horizon.cache h' = [].
Proof.
  intros Hpts Hrect Hin.
  destruct (points_array_post _ _ _ _ Hpts) as [_ Hlim].
  destruct limit as [|limit]; [lia|].
  unfold Horizon.filter_points, Horizon.apply_to_points.
  cbn [default id]. rewrite Hpts. cbn [rbind fst snd].
  rewrite (keep_unmasked_spec fm k pts Hrect Hin). cbn [rbind].
  set (kept := filter _ pts).
  destruct (reset_storage_matrix_spec limit (Horizon.set__points (Some kept) h1) kept)
    as (h' & Hr & Hp & Hm & _); [by destruct h1|].
  rewrite Hr. cbn [rbind]. eexists. split; [reflexivity|].
  unfold Horizon.reset_cache. destruct h'. simpl in *. done.
Qed.

Lemma filter_points_keeps_zero_cells_witness :
  exists h',
    Horizon.filter_points Samples.recursion_limit (Some [[0; 2]; [0; 1]]) Samples.surface_a
      = Ok h' /\
    Horizon._points h'
      = Some (filter (fun p : point =>
                        get2 [[0; 2]; [0; 1]] (Z.to_nat p.1.1) (Z.to_nat p.1.2) = Some 0)
                     [(0, 0, 5); (1, 1, 7)]) /\
    Horizon._matrix h' = None /\
    Horizon.cache h' = [].
Proof.
  apply (filter_points_keeps_zero_cells Samples.recursion_limit [[0; 2]; [0; 1]] 2
           Samples.surface_a [(0, 0, 5); (1, 1, 7)] Samples.surface_a).
  - vm_compute. reflexivity.
  - repeat (apply Forall_cons_2; [reflexivity|]). apply Forall_nil_2.
  - repeat (apply Forall_cons_2; [unfold nrows; simpl; lia|]). apply Forall_nil_2.
Defined.





End HorizonState.

(** ** RegularGrid: the starts of the crops *)

Section RegularGridStarts.

Lemma uniq_head y l : exists t, uniq (y :: l) = y :: t.
Proof.
  revert y. induction l as [|z l IH]; intros y; [by exists []|].
  change (uniq (y :: z :: l)) with (if y =? z then uniq (z :: l) else y :: uniq (z :: l)).
  destruct (Z.eqb_spec y z) as [->|Hne]; [apply IH|by eexists].
Qed.

Lemma uniq_Sorted_le l : Sorted Z.le l -> Sorted Z.lt (uniq l).
Proof.
  induction 1 as [|y l Hs IH Hhd]; [constructor|].
  destruct l as [|z l]; [repeat constructor|].
  change (uniq (y :: z :: l)) with (if y =? z then uniq (z :: l) else y :: uniq (z :: l)).
  destruct (Z.eqb_spec y z) as [->|Hne]; [done|].
  constructor; [done|].
  destruct (uniq_head z l) as [t ->]. constructor.
  apply HdRel_inv in Hhd. lia.
Qed.

(** The starts that [_arange] gives are strictly increasing, hence pairwise
    distinct, and lie between 0 and the limit. *)
Theorem _arange_increasing_within_limit start stop stride limit l :
  0 <= limit ->
  RegularGrid._arange start stop stride limit = Ok l ->
  Sorted Z.lt l /\ Forall (fun v => 0 <= v <= limit) l.
Proof.
  intros Hlim Hl. split.
  - unfold RegularGrid._arange in Hl.
    destruct (arange start stop stride) as [grid|]; [|done].
    cbn [rbind] in Hl. injection Hl as <-. unfold unique.
    rewrite sort_Sorted_lt; apply uniq_Sorted_le; apply Sorted_merge_sort; apply _.
  - apply Forall_forall. intros v Hv.
    destruct (elem_of__arange _ _ _ _ _ _ Hl Hv) as (w & ->). by apply clip_bounds.
Qed.

Lemma _arange_increasing_within_limit_witness :
  Sorted Z.lt [0; 10; 15] /\ Forall (fun v => 0 <= v <= 15) [0; 10; 15].
Proof.
  apply (_arange_increasing_within_limit 0 25 10 15); [lia|].
  vm_compute. reflexivity.
Defined.

(** When the range comes within one stride of the limit or goes beyond it,
    the limit itself is one of the starts, the last one: the last crop ends
    at the end of the volume. *)
Theorem _arange_reaches_limit start stop stride limit l :
  0 < stride -> start < stop -> 0 <= limit <= stop - stride ->
  fits_int32 start -> fits_int32 stop ->
  RegularGrid._arange start stop stride limit = Ok l ->
  last l = Some limit.
Proof.
  intros Hs Hlt Hlim Hfs Hfe Hl.
  destruct (_arange_increasing_within_limit _ _ _ _ _ (proj1 Hlim) Hl) as [Hsorted Hall].
  assert (Hin : limit ∈ l).
  { unfold RegularGrid._arange, arange in Hl.
    destruct (Z.eqb_spec stride 0) as [|_]; [lia|].
    cbn [rbind] in Hl. injection Hl as <-. unfold unique.
    rewrite elem_of_sort, elem_of_uniq, elem_of_sort, list_elem_of_fmap.
    set (n := - ((start - stop) / stride)).
    assert (Hn : start + (n - 1) * stride < stop <= start + n * stride).
    { unfold n.
      pose proof (Z.mul_div_le (start - stop) stride Hs).
      pose proof (Z.mul_succ_div_gt (start - stop) stride Hs). nia. }
    assert (0 < n) by nia.
    exists (int32 (start + (n - 1) * stride)). split.
    - unfold fits_int32 in *. rewrite int32_id by (unfold fits_int32; nia).
      unfold clip. lia.
    - apply list_elem_of_fmap. exists (n - 1). split; [done|].
      apply elem_of_seqZ. lia. }
  clear Hl. induction l as [|a l IH]; [inversion Hin|].
  destruct l as [|b l]; [by apply list_elem_of_singleton in Hin as ->|].
  rewrite last_cons_cons. apply IH.
  - by apply Sorted_inv in Hsorted as [? _].
  - by apply Forall_cons in Hall as [_ ?].
  - apply elem_of_cons in Hin as [->|Hin]; [|done]. exfalso.
    apply Sorted_inv in Hsorted as [_ Hhd]. apply HdRel_inv in Hhd.
    apply Forall_cons in Hall as [_ Hall]. apply Forall_cons in Hall as [Hb _]. lia.
Qed.

Lemma _arange_reaches_limit_witness : last [0; 10; 15] = Some 15.
Proof.
  apply (_arange_reaches_limit 0 25 10 15); unfold fits_int32; try lia.
  vm_compute. reflexivity.
Defined.

(** Every location of a [RegularGrid] that makes its own locations has more
    non-dead traces in its footprint than the threshold: it is the row of a
    point [(i, x, h)] whose crop passes the test of [_make_locations]. *)
Theorem regular_grid_locations_pass_threshold
    f ranges crop o strides overlap overlap_factor threshold bs fid lid g row :
  let cs := if o =? 0 then crop else swap01 crop in
  RegularGrid.init f ranges crop o strides overlap overlap_factor threshold bs fid lid None
    = Ok g ->
  row ∈ locations g ->
  exists i x h,
    row = RegularGrid.make_row fid lid o cs (i, x, h) /\
    threshold < RegularGrid.alive_traces (Horizon.zero_traces f) cs.1.1 cs.1.2 i x.
Proof.
  intros cs. unfold RegularGrid.init. fold cs.
  destruct (RegularGrid.make_strides _ _ _ _) as [s|]; [|done]. cbn [rbind].
  destruct (RegularGrid._make_locations _ _ _ _ _ _ _ _) as [rows|] eqn:Hrows; [|done].
  cbn [rbind]. intros [= <-]. cbn [locations]. revert Hrows.
  unfold RegularGrid._make_locations.
  destruct (Horizon.shape f) as [[n0 n1] n2], cs as [[c0 c1] c2]. simpl.
  destruct (RegularGrid._arange _ _ _ (n0 - c0)) as [i_grid|]; [|done].
  destruct (RegularGrid._arange _ _ _ (n1 - c1)) as [x_grid|]; [|done].
  destruct (RegularGrid._arange _ _ _ (n2 - c2)) as [h_grid|]; [|done].
  cbn [rbind].
  match goal with |- match ?pts with _ => _ end = _ -> _ => set (points := pts) end.
  intros Hrows Hin.
  assert (rows = RegularGrid.make_row fid lid o (c0, c1, c2) <$> points) as ->
    by (destruct points; [done|by injection Hrows]).
  apply list_elem_of_fmap in Hin as ([[i x] h] & -> & Hp).
  unfold points in Hp.
  apply list_elem_of_bind in Hp as (i' & Hp & Hi).
  apply list_elem_of_bind in Hp as (x' & Hp & Hx).
  destruct (Z.ltb_spec threshold
              (RegularGrid.alive_traces (Horizon.zero_traces f) c0 c1 i' x')) as [Hlt|];
    [|inversion Hp].
  apply list_elem_of_fmap in Hp as (h' & [= -> -> ->] & Hh).
  by exists i', x', h'.
Qed.

Lemma regular_grid_locations_pass_threshold_witness :
  exists i x h,
    [-1; -1; 0; 15; 0; 0; 25; 10; 10]
      = RegularGrid.make_row (-1) (-1) 0 (10, 10, 10) (i, x, h) /\
    0 < RegularGrid.alive_traces (Horizon.zero_traces Samples.volume_25) 10 10 i x.
Proof.
  eapply (regular_grid_locations_pass_threshold Samples.volume_25
            ((0, 25), (0, 10), (0, 10)) (10, 10, 10) 0 (Some (10, 10, 10)) None None
            0 64 (-1) (-1)).
  - vm_compute. reflexivity.
  - apply list_elem_of_In. simpl. tauto.
Defined.

(** A [RegularGrid] none of whose crops has more non-dead traces than the
    threshold is not empty: its construction raises [ValueError], the empty
    array of points not fitting the three columns of the buffer. *)
Theorem regular_grid_without_live_crop_raises
    f ranges crop o strides overlap overlap_factor threshold bs fid lid s :
  let cs := if o =? 0 then crop else swap01 crop in
  RegularGrid.make_strides cs (if o =? 0 then strides else swap01 <$> strides)
    overlap overlap_factor = Ok s ->
  s.1.1 <> 0 -> s.1.2 <> 0 -> s.2 <> 0 ->
  (forall i x, RegularGrid.alive_traces (Horizon.zero_traces f) cs.1.1 cs.1.2 i x
               <= threshold) ->
  exists msg,
    RegularGrid.init f ranges crop o strides overlap overlap_factor threshold bs fid lid None
    = Raise (ValueError msg).
Proof.
  intros cs Hs H0 H1 H2 Hdead. unfold RegularGrid.init. fold cs. rewrite Hs.
  cbn [rbind]. unfold RegularGrid._make_locations.
  destruct (Horizon.shape f) as [[n0 n1] n2], cs as [[c0 c1] c2], s as [[s0 s1] s2].
  simpl in *. unfold RegularGrid._arange, arange.
  destruct (Z.eqb_spec s0 0) as [|_]; [done|].
  destruct (Z.eqb_spec s1 0) as [|_]; [done|].
  destruct (Z.eqb_spec s2 0) as [|_]; [done|].
  cbn [rbind].
  match goal with |- context [match ?pts with [] => _ | _ :: _ => _ end] =>
    assert (pts = []) as ->
  end; [|by eexists].
  apply length_zero_iff_nil.
  rewrite (length_bind_const _ _ 0); [lia|]. intros i _.
  rewrite (length_bind_const _ _ 0); [lia|]. intros x _.
  destruct (Z.ltb_spec threshold
              (RegularGrid.alive_traces (Horizon.zero_traces f) c0 c1 i x)) as [Hlt|];
    [|done].
  specialize (Hdead i x). lia.
Qed.


Lemma msum_all_ones (m : list (list Z)) :
  Forall (Forall (fun v => v = 1)) m -> msum m = msize m.
Proof.
  unfold msum, msize. induction 1 as [|row m Hrow Hm IH]; [done|].
  simpl. rewrite length_app, Nat2Z.inj_add, <- IH. f_equal.
  clear -Hrow. induction Hrow as [|v row -> _ IH]; [done|]. simpl. lia.
Qed.

Lemma alive_traces_all_dead (zt : list (list Z)) c0 c1 i x :
  Forall (Forall (fun v => v = 1)) zt -> RegularGrid.alive_traces zt c0 c1 i x = 0.
Proof.
  intros Hdead. unfold RegularGrid.alive_traces. rewrite msum_all_ones; [lia|].
  unfold slice2, pyslice. apply Forall_fmap, Forall_take, Forall_drop.
  eapply Forall_impl; [exact Hdead|]. intros row Hrow. simpl.
  by apply Forall_take, Forall_drop.
Qed.

Lemma regular_grid_without_live_crop_raises_witness :
  exists msg,
    RegularGrid.init Samples.dead_field ((0, 2), (0, 2), (0, 10)) (1, 1, 2) 0
      None None None 0 64 (-1) (-1) None
    = Raise (ValueError msg).
Proof.
  apply (regular_grid_without_live_crop_raises Samples.dead_field ((0, 2), (0, 2), (0, 10))
           (1, 1, 2) 0 None None None 0 64 (-1) (-1) (1, 1, 2)).
  - reflexivity.
  - simpl. lia.
  - simpl. lia.
  - simpl. lia.
  - intros i x. rewrite alive_traces_all_dead; [lia|].
    repeat (apply Forall_cons_2;
            [repeat (apply Forall_cons_2; [reflexivity|]); apply Forall_nil_2|]).
    apply Forall_nil_2.
Defined.

End RegularGridStarts.

(** ** BaseGrid: the batches of an iteration *)

Section Batches.

Lemma range_batches (n bs : Z) :
  0 < bs -> 0 <= n ->
  Fault.range 0 n bs = Ok ((fun k => k * bs) <$> seqZ 0 ((n + bs - 1) / bs)).
Proof.
  intros Hbs Hn. unfold Fault.range.
  destruct (Z.eqb_spec bs 0) as [|_]; [lia|]. f_equal.
  assert (- ((0 - n) / bs) = (n + bs - 1) / bs) as ->.
  { pose proof (Z.mul_div_le (0 - n) bs Hbs).
    pose proof (Z.mul_succ_div_gt (0 - n) bs Hbs).
    pose proof (Z.mul_div_le (n + bs - 1) bs Hbs).
    pose proof (Z.mul_succ_div_gt (n + bs - 1) bs Hbs). nia. }
  rewrite Z.max_r by (apply Z.div_pos; lia).
  apply list_fmap_ext. intros _ k _. lia.
Qed.

Lemma nth_batch_from_starts k (starts : list Z) g :
  BaseGrid.nth_batch k (Some starts) g
  = match starts !! k with
    | Some i => BaseGrid.Yield (pyslice (locations g) i (i + batch_size g))
    | None => BaseGrid.StopIteration
    end.
Proof.
  revert starts. induction k as [|k IH]; intros [|i rest]; simpl; try done;
    by rewrite IH.
Qed.

Lemma pyslice_nonneg {A} (l : list A) (a b : Z) :
  0 <= a <= b -> pyslice l a b = take (Z.to_nat (b - a)) (drop (Z.to_nat a) l).
Proof.
  intros Hab. unfold pyslice, slice_bound.
  set (n := Z.of_nat (length l)).
  destruct (Z.ltb_spec a 0) as [|_]; [lia|]. destruct (Z.ltb_spec b 0) as [|_]; [lia|].
  destruct (Z.le_gt_cases a n) as [Han|Han].
  - rewrite (Z.min_l a) by lia.
    destruct (Z.le_gt_cases b n) as [Hbn|Hbn].
    + by rewrite (Z.min_l b) by lia.
    + rewrite (Z.min_r b) by lia.
      rewrite !take_ge; [done|rewrite length_drop; lia|rewrite length_drop; lia].
  - rewrite !(Z.min_r _ n) by lia.
    rewrite !drop_ge by lia. by rewrite !take_nil.
Qed.

Lemma take_add {A} (n m : nat) (l : list A) :
  take (n + m) l = take n l ++ take m (drop n l).
Proof.
  revert l. induction n as [|n IH]; intros [|x l]; simpl; try done.
  - by rewrite take_nil.
  - by rewrite IH.
Qed.

Lemma concat_batches {A} (b : nat) (l : list A) (q : nat) :
  concat ((fun k => take b (drop (k * b) l)) <$> seq 0 q) = take (q * b) l.
Proof.
  induction q as [|q IH]; [done|].
  rewrite seq_S, fmap_app, concat_app, IH. simpl. rewrite app_nil_r.
  rewrite (Nat.add_comm b). by rewrite take_add.
Qed.

(** Iterating a grid whose batch size is positive: the call number [k] of
    [next_batch] gives the rows from [k * batch_size] on, at most
    [batch_size] of them, as long as this start lies before the end of the
    locations; every later call raises [StopIteration], the iterator being
    made once. *)
Theorem next_batch_sequence g (k : nat) :
  0 < batch_size g ->
  BaseGrid.nth_batch k None g
  = if decide (Z.of_nat k * batch_size g < Z.of_nat (length (locations g)))
    then BaseGrid.Yield (take (Z.to_nat (batch_size g))
                           (drop (k * Z.to_nat (batch_size g)) (locations g)))
    else BaseGrid.StopIteration.
Proof.
  intros Hbs.
  set (n := Z.of_nat (length (locations g))). set (bs := batch_size g) in *.
  assert (Hrange := range_batches n bs Hbs (Nat2Z.is_nonneg _)).
  assert (Hcount : forall j : Z, 0 <= j -> (j < (n + bs - 1) / bs <-> j * bs < n)).
  { intros j Hj.
    pose proof (Z.mul_div_le (n + bs - 1) bs Hbs).
    pose proof (Z.mul_succ_div_gt (n + bs - 1) bs Hbs). split; nia. }
  assert (Hnth : BaseGrid.nth_batch k None g
                 = BaseGrid.nth_batch k
                     (Some ((fun j => j * bs) <$> seqZ 0 ((n + bs - 1) / bs))) g).
  { destruct k; simpl; unfold BaseGrid.make_iterator; fold n bs; by rewrite Hrange. }
  rewrite Hnth, nth_batch_from_starts, list_lookup_fmap.
  destruct (decide (Z.of_nat k * bs < n)) as [Hlt|Hge].
  - rewrite lookup_seqZ_lt by (apply Hcount; lia). simpl. f_equal. fold bs.
    rewrite pyslice_nonneg by lia. f_equal; [lia|]. f_equal. lia.
  - rewrite lookup_seqZ_ge; [done|].
    destruct (Z.lt_ge_cases (Z.of_nat k) ((n + bs - 1) / bs)) as [Hk|Hk]; [|lia].
    apply Hcount in Hk; lia.
Qed.

Lemma next_batch_sequence_witness :
  BaseGrid.nth_batch 1 None (Samples.grid_of [Samples.location_a; Samples.location_b] [5; 7])
  = if decide (Z.of_nat 1 * 64 < Z.of_nat 2)
    then BaseGrid.Yield (take (Z.to_nat 64) (drop (1 * Z.to_nat 64)
                           [Samples.location_a; Samples.location_b]))
    else BaseGrid.StopIteration.
Proof.
  apply (next_batch_sequence
           (Samples.grid_of [Samples.location_a; Samples.location_b] [5; 7]) 1).
  simpl. lia.
Defined.

(** The batches of an iteration, put together, are the locations: no row is
    lost or met twice. *)
Theorem batches_cover_locations g starts :
  0 < batch_size g ->
  BaseGrid.make_iterator g = Ok starts ->
  concat ((fun i => pyslice (locations g) i (i + batch_size g)) <$> starts) = locations g.
Proof.
  intros Hbs. unfold BaseGrid.make_iterator.
  rewrite range_batches by lia. intros [= <-].
  set (bs := batch_size g) in *. set (l := locations g).
  set (q := (Z.of_nat (length l) + bs - 1) / bs).
  assert (Hq : 0 <= q /\ Z.of_nat (length l) <= q * bs).
  { unfold q. pose proof (Z.mul_succ_div_gt (Z.of_nat (length l) + bs - 1) bs Hbs).
    split; [apply Z.div_pos; lia|nia]. }
  unfold seqZ. rewrite <- !list_fmap_compose.
  rewrite (list_fmap_ext _ (fun k => take (Z.to_nat bs) (drop (k * Z.to_nat bs) l))
             (seq 0 (Z.to_nat q))).
  - rewrite concat_batches. apply take_ge. nia.
  - intros _ k _. simpl. rewrite pyslice_nonneg by lia. f_equal; [lia|]. f_equal. lia.
Qed.

Lemma batches_cover_locations_witness :
  concat ((fun i => pyslice [Samples.location_a; Samples.location_b] i (i + 1))
            <$> [0; 1])
  = [Samples.location_a; Samples.location_b].
Proof.
  apply (batches_cover_locations
           {| locations := [Samples.location_a; Samples.location_b]; potential := [];
              crop_shape := (3, 3, 2); orientation := 0; origin := (0, 0, 0);
              endpoint := (0, 0, 0); batch_size := 1 |} [0; 1]).
  - simpl. lia.
  - vm_compute. reflexivity.
Defined.

(** With a batch size of 0 no batch is ever produced: each call fails on the
    range of the generator, which is made anew at each call; with a negative
    batch size the first call already raises [StopIteration]. *)
Theorem next_batch_without_positive_batch_size g (k : nat) :
  batch_size g <= 0 ->
  BaseGrid.nth_batch k None g
  = if decide (batch_size g = 0)
    then BaseGrid.Fail (ValueError "range() arg 3 must not be zero")
    else BaseGrid.StopIteration.
Proof.
  intros Hbs. destruct (decide (batch_size g = 0)) as [E|E].
  - assert (Hraise : BaseGrid.make_iterator g
                     = Raise (ValueError "range() arg 3 must not be zero")).
    { unfold BaseGrid.make_iterator, Fault.range. by rewrite E. }
    induction k as [|k IH]; simpl; rewrite Hraise; simpl; [done|exact IH].
  - assert (Hstarts : BaseGrid.make_iterator g = Ok []).
    { unfold BaseGrid.make_iterator, Fault.range.
      destruct (Z.eqb_spec (batch_size g) 0) as [|_]; [done|]. f_equal.
      rewrite Z.max_l; [done|].
      assert (0 <= (0 - Z.of_nat (length (locations g))) / batch_size g); [|lia].
      rewrite <- (Z.div_opp_opp (0 - Z.of_nat (length (locations g)))) by done.
      apply Z.div_pos; lia. }
    destruct k; simpl; rewrite Hstarts; simpl; [done|].
    rewrite nth_batch_from_starts. by rewrite lookup_nil.
Qed.

Lemma next_batch_without_positive_batch_size_witness :
  BaseGrid.nth_batch 3 None
    {| locations := [Samples.location_a]; potential := []; crop_shape := (3, 3, 2);
       orientation := 0; origin := (0, 0, 0); endpoint := (0, 0, 0); batch_size := 0 |}
  = if decide (0 = 0)
    then BaseGrid.Fail (ValueError "range() arg 3 must not be zero")
    else BaseGrid.StopIteration.
Proof.
  apply (next_batch_without_positive_batch_size
           {| locations := [Samples.location_a]; potential := []; crop_shape := (3, 3, 2);
              orientation := 0; origin := (0, 0, 0); endpoint := (0, 0, 0);
              batch_size := 0 |} 3).
  simpl. lia.
Defined.

End Batches.

(** ** LoopedList *)

Section Looping.

(** A list of length [len] that loops from a position [pos] inside of it:
    every index from [len] on is answered, by the item at
    [pos + (idx - pos) mod (len - pos)], a position between [pos] and the
    end; and from [pos] on the answers repeat with the period [len - pos]. *)
Theorem looped_list_getitem {A} (l : LoopedList.looped_list A) (idx : Z) :
  let len := Z.of_nat (length (LoopedList.items l)) in
  let pos := if LoopedList.loop_from l <? 0 then LoopedList.loop_from l + len
             else LoopedList.loop_from l in
  0 <= pos < len -> pos <= idx ->
  let k := if idx <? len then idx else pos + (idx - pos) mod (len - pos) in
  pos <= k < len /\
  (exists v, LoopedList.items l !! Z.to_nat k = Some v /\ LoopedList.getitem l idx = Ok v) /\
  LoopedList.getitem l (idx + (len - pos)) = LoopedList.getitem l idx.
Proof.
  intros len pos Hpos Hidx k.
  assert (Hposeq : LoopedList.loop_from l
                   + len * (if LoopedList.loop_from l <? 0 then 1 else 0) = pos).
  { unfold pos. destruct (LoopedList.loop_from l <? 0); lia. }
  assert (Hk : pos <= k < len).
  { unfold k. destruct (Z.ltb_spec idx len); [lia|].
    pose proof (Z.mod_pos_bound (idx - pos) (len - pos)). lia. }
  assert (Hget : forall j, 0 <= j < len ->
            exists v, LoopedList.items l !! Z.to_nat j = Some v /\
                      LoopedList.list_getitem (LoopedList.items l) j = Ok v).
  { intros j Hj. unfold LoopedList.list_getitem.
    rewrite norm_index_in_range by (fold len; lia).
    destruct (lookup_lt_is_Some_2 (LoopedList.items l) (Z.to_nat j)) as [v Hv];
      [unfold len in Hj; lia|].
    exists v. by rewrite Hv. }
  assert (Heval : forall j, pos <= j ->
            LoopedList.getitem l j
            = LoopedList.list_getitem (LoopedList.items l)
                (if j <? len then j else pos + (j - pos) mod (len - pos))).
  { intros j Hj. unfold LoopedList.getitem. fold len. rewrite Hposeq.
    destruct (Z.leb_spec len j), (Z.ltb_spec j len); try lia; [|done].
    destruct (Z.ltb_spec pos 0); [lia|].
    destruct (Z.eqb_spec (len - pos) 0); [lia|]. done. }
  split; [done|]. split.
  - rewrite (Heval idx Hidx). fold k. apply Hget. lia.
  - rewrite (Heval idx Hidx), (Heval (idx + (len - pos))) by lia. f_equal.
    destruct (Z.ltb_spec (idx + (len - pos)) len); [lia|].
    replace (idx + (len - pos) - pos) with ((idx - pos) + 1 * (len - pos)) by lia.
    rewrite Z.mod_add by lia.
    destruct (Z.ltb_spec idx len); [|done].
    rewrite Z.mod_small by lia. lia.
Qed.

Lemma looped_list_getitem_witness :
  let l := {| LoopedList.items := [1; 2; 3; 4]; LoopedList.loop_from := 2 |} in
  let len := Z.of_nat (length (LoopedList.items l)) in
  let pos := if LoopedList.loop_from l <? 0 then LoopedList.loop_from l + len
             else LoopedList.loop_from l in
  let k := if 7 <? len then 7 else pos + (7 - pos) mod (len - pos) in
  pos <= k < len /\
  (exists v, LoopedList.items l !! Z.to_nat k = Some v /\ LoopedList.getitem l 7 = Ok v) /\
  LoopedList.getitem l (7 + (len - pos)) = LoopedList.getitem l 7.
Proof.
  apply (looped_list_getitem
           {| LoopedList.items := [1; 2; 3; 4]; LoopedList.loop_from := 2 |} 7).
  - simpl. lia.
  - simpl. lia.
Defined.

(** Outside of this range of [loop_from] no index from [len] on is ever
    answered: a position before the start of the list is an [IndexError], a
    position at its end a division by zero, and a position beyond the end
    an index that the list does not have. *)
Theorem looped_list_getitem_bad_loop {A} (l : LoopedList.looped_list A) (idx : Z) :
  let len := Z.of_nat (length (LoopedList.items l)) in
  ~ (- len <= LoopedList.loop_from l < len) -> len <= idx ->
  LoopedList.getitem l idx
  = if decide (LoopedList.loop_from l = len) then Raise ZeroDivisionError
    else Raise IndexError.
Proof.
  intros len Hbad Hidx. unfold LoopedList.getitem. fold len.
  destruct (Z.leb_spec len idx); [|lia].
  destruct (Z.ltb_spec (LoopedList.loop_from l) 0) as [Hneg|Hnn].
  - rewrite decide_False by lia.
    destruct (Z.ltb_spec (LoopedList.loop_from l + len * 1) 0); [done|lia].
  - rewrite Z.mul_0_r, Z.add_0_r.
    destruct (Z.ltb_spec (LoopedList.loop_from l) 0); [lia|].
    destruct (decide (LoopedList.loop_from l = len)) as [E|E].
    + rewrite E, Z.sub_diag. done.
    + destruct (Z.eqb_spec (len - LoopedList.loop_from l) 0); [lia|].
      unfold LoopedList.list_getitem, norm_index. fold len.
      pose proof (Z.mod_neg_bound (idx - LoopedList.loop_from l)
                    (len - LoopedList.loop_from l) ltac:(lia)).
      set (r := (idx - LoopedList.loop_from l) mod (len - LoopedList.loop_from l)) in *.
      destruct (Z.leb_spec 0 (LoopedList.loop_from l + r)); [|lia].
      destruct (Z.ltb_spec (LoopedList.loop_from l + r) len); [lia|]. simpl.
      destruct (Z.leb_spec (- len) (LoopedList.loop_from l + r));
        destruct (Z.ltb_spec (LoopedList.loop_from l + r) 0); try lia; done.
Qed.

Lemma looped_list_getitem_bad_loop_witness :
  LoopedList.getitem {| LoopedList.items := [1; 2; 3]; LoopedList.loop_from := 3 |} 5
  = if decide (3 = Z.of_nat (length [1; 2; 3])) then Raise ZeroDivisionError
    else Raise IndexError.
Proof.
  apply (looped_list_getitem_bad_loop
           {| LoopedList.items := [1; 2; 3]; LoopedList.loop_from := 3 |} 5).
  - simpl. lia.
  - simpl. lia.
Defined.

End Looping.

(** ** BaseGrid: joining two grids *)

Section Joining.

Lemma row_le_total a b : ExtensionGrid.row_le a b = true \/ ExtensionGrid.row_le b a = true.
Proof.
  revert b. induction a as [|x a IH]; intros [|y b]; simpl; auto.
  destruct (Z.ltb_spec x y), (Z.ltb_spec y x), (Z.eqb_spec x y), (Z.eqb_spec y x);
    simpl; auto; try lia.
Qed.

Lemma row_le_trans a b c :
  ExtensionGrid.row_le a b = true -> ExtensionGrid.row_le b c = true ->
  ExtensionGrid.row_le a c = true.
Proof.
  revert b c. induction a as [|x a IH]; intros [|y b] [|z c]; simpl; try done.
  destruct (Z.ltb_spec x y), (Z.ltb_spec y z), (Z.ltb_spec x z),
    (Z.eqb_spec x y), (Z.eqb_spec y z), (Z.eqb_spec x z); simpl; try done; try lia.
  apply IH.
Qed.

Lemma row_le_antisym a b :
  ExtensionGrid.row_le a b = true -> ExtensionGrid.row_le b a = true -> a = b.
Proof.
  revert b. induction a as [|x a IH]; intros [|y b]; simpl; try done.
  destruct (Z.ltb_spec x y), (Z.ltb_spec y x), (Z.eqb_spec x y), (Z.eqb_spec y x);
    simpl; try done; try lia.
  intros H1 H2. subst. f_equal. by apply IH.
Qed.

#[local] Instance row_order_trans : Transitive row_order.
Proof. intros a b c. apply row_le_trans. Qed.

#[local] Instance row_order_antisym : AntiSymm (=) row_order.
Proof. intros a b. apply row_le_antisym. Qed.

#[local] Instance row_before_total : Total ExtensionGrid.row_before.
Proof. intros a b. apply row_le_total. Qed.

Lemma NoDup_imap_pair {A} (l : list A) : NoDup (imap (fun k row => (row, k)) l).
Proof.
  apply NoDup_alt. intros i j [r k] Hi Hj.
  rewrite list_lookup_imap in Hi, Hj.
  destruct (l !! i); [|done]. destruct (l !! j); [|done].
  simpl in *. congruence.
Qed.

(** The rows that [np.unique(rows, axis=0)] gives: the rows of the array,
    each once, in the lexicographic order. *)
Lemma unique_rows_spec (rows : list (list Z)) :
  let u := fst <$> ExtensionGrid.unique_rows rows in
  (forall row, row ∈ u <-> row ∈ rows) /\ NoDup u /\ Sorted row_order u.
Proof.
  unfold ExtensionGrid.unique_rows. cbn zeta.
  set (firsts := filter _ (imap (fun k row => (row, k)) rows)).
  assert (Hin : forall row, row ∈ fst <$> firsts <-> row ∈ rows).
  { intros row. split.
    - intros ([r k] & -> & He)%list_elem_of_fmap.
      apply list_elem_of_filter in He as [_ He].
      apply elem_of_lookup_imap in He as (i & y & [= -> ->] & Hy).
      by eapply list_elem_of_lookup_2.
    - intros Hrow.
      destruct (list_find_elem_of (fun r => r = row) rows row Hrow eq_refl) as [[k r] Hf].
      pose proof Hf as Hf'. apply list_find_Some in Hf' as (Hk & -> & _).
      apply list_elem_of_fmap. exists (row, k). split; [done|].
      apply list_elem_of_filter. split; [simpl; by rewrite Hf|].
      by apply elem_of_lookup_imap_2 with (f := fun k row => (row, k)). }
  assert (Hnd : NoDup (fst <$> firsts)).
  { apply NoDup_fmap_2_strong; [|apply NoDup_filter, NoDup_imap_pair].
    intros [r1 k1] [r2 k2] H1 H2 E. simpl in E. subst r2.
    apply list_elem_of_filter in H1 as [H1 _], H2 as [H2 _]. simpl in *.
    destruct (list_find _ rows) as [[k r]|]; simpl in *; congruence. }
  split; [|split].
  - intros row. rewrite merge_sort_Permutation. apply Hin.
  - by rewrite merge_sort_Permutation.
  - apply (Sorted_fmap _ ExtensionGrid.row_before row_order); [done|].
    apply Sorted_merge_sort. apply _.
Qed.

Lemma unique_rows_app_comm (a b : list (list Z)) :
  fst <$> ExtensionGrid.unique_rows (a ++ b) = fst <$> ExtensionGrid.unique_rows (b ++ a).
Proof.
  destruct (unique_rows_spec (a ++ b)) as (Hin1 & Hnd1 & Hs1).
  destruct (unique_rows_spec (b ++ a)) as (Hin2 & Hnd2 & Hs2).
  apply (Sorted_unique row_order); [done|done|].
  apply NoDup_Permutation; [done|done|].
  intros row. rewrite Hin1, Hin2, !elem_of_app. tauto.
Qed.

(** The grid that [join] makes holds each row of the two grids once, in the
    lexicographic order of the rows; its batch size is the smaller of the
    two, its orientation the common one, or 2. *)
Theorem join_locations self other joined :
  BaseGrid.join self other = Ok joined ->
  (forall row, row ∈ BaseGrid.inst_locations joined
               <-> row ∈ BaseGrid.inst_locations self \/ row ∈ BaseGrid.inst_locations other) /\
  NoDup (BaseGrid.inst_locations joined) /\
  Sorted row_order (BaseGrid.inst_locations joined) /\
  BaseGrid.inst_batch_size joined
    = Z.min (BaseGrid.inst_batch_size self) (BaseGrid.inst_batch_size other) /\
  (exists o1 o2, BaseGrid.inst_orientation self = Some o1 /\
                 BaseGrid.inst_orientation other = Some o2 /\
                 BaseGrid.inst_orientation joined = Some (if o1 =? o2 then o1 else 2)) /\
  BaseGrid.cls joined = BaseGrid.BaseGridClass.
Proof.
  unfold BaseGrid.join. case_bool_decide; [done|].
  destruct (BaseGrid.inst_orientation self) as [o1|]; [|done].
  destruct (BaseGrid.inst_orientation other) as [o2|]; [|done].
  cbn [BaseGrid.getattr rbind].
  destruct (match BaseGrid.cls self with
            | BaseGrid.RegularGridClass => _ | _ => _ end) as [so|]; [|done].
  cbn [rbind].
  destruct (match BaseGrid.cls other with
            | BaseGrid.RegularGridClass => _ | _ => _ end) as [oo|]; [|done].
  cbn [rbind].
  destruct (match BaseGrid.cls self with
            | BaseGrid.RegularGridClass => _ | _ => _ end) as [se|]; [|done].
  cbn [rbind].
  destruct (match BaseGrid.cls other with
            | BaseGrid.RegularGridClass => _ | _ => _ end) as [oe|]; [|done].
  cbn [rbind]. intros [= <-]. cbn.
  destruct (unique_rows_spec (BaseGrid.inst_locations self ++ BaseGrid.inst_locations other))
    as (Hin & Hnd & Hs).
  split; [intros row; by rewrite Hin, elem_of_app|].
  split; [done|]. split; [done|]. split; [done|]. split; [|done].
  by exists o1, o2.
Qed.

Lemma join_locations_witness :
  (forall row, row ∈ BaseGrid.inst_locations Samples.instance_joined
               <-> row ∈ BaseGrid.inst_locations Samples.instance_second
                   \/ row ∈ BaseGrid.inst_locations Samples.instance_first) /\
  NoDup (BaseGrid.inst_locations Samples.instance_joined) /\
  Sorted row_order (BaseGrid.inst_locations Samples.instance_joined) /\
  BaseGrid.inst_batch_size Samples.instance_joined
    = Z.min (BaseGrid.inst_batch_size Samples.instance_second)
            (BaseGrid.inst_batch_size Samples.instance_first) /\
  (exists o1 o2, BaseGrid.inst_orientation Samples.instance_second = Some o1 /\
                 BaseGrid.inst_orientation Samples.instance_first = Some o2 /\
                 BaseGrid.inst_orientation Samples.instance_joined
                 = Some (if o1 =? o2 then o1 else 2)) /\
  BaseGrid.cls Samples.instance_joined = BaseGrid.BaseGridClass.
Proof.
  apply (join_locations Samples.instance_second Samples.instance_first).
  vm_compute. reflexivity.
Defined.

(** [join] does not depend on the order of the two grids, but for the name
    of the label: when it succeeds one way it succeeds the other way, with
    the same locations, batch size, orientation, origin and endpoint. *)
Theorem join_commutes self other joined :
  BaseGrid.join self other = Ok joined ->
  exists joined',
    BaseGrid.join other self = Ok joined' /\
    BaseGrid.inst_locations joined' = BaseGrid.inst_locations joined /\
    BaseGrid.inst_batch_size joined' = BaseGrid.inst_batch_size joined /\
    BaseGrid.inst_orientation joined' = BaseGrid.inst_orientation joined /\
    BaseGrid.inst_origin joined' = BaseGrid.inst_origin joined /\
    BaseGrid.inst_endpoint joined' = BaseGrid.inst_endpoint joined /\
    BaseGrid.field_name joined' = BaseGrid.field_name joined.
Proof.
  unfold BaseGrid.join. case_bool_decide as Hname; [done|].
  rewrite bool_decide_eq_false_2 by (intros E; apply E; congruence).
  destruct (BaseGrid.inst_orientation self) as [o1|]; [|done].
  destruct (BaseGrid.inst_orientation other) as [o2|]; [|done].
  cbn [BaseGrid.getattr rbind].
  destruct (match BaseGrid.cls self with
            | BaseGrid.RegularGridClass => _ | _ => _ end) as [so|]; [|done].
  cbn [rbind].
  destruct (match BaseGrid.cls other with
            | BaseGrid.RegularGridClass => _ | _ => _ end) as [oo|]; [|done].
  cbn [rbind].
  destruct (match BaseGrid.cls self with
            | BaseGrid.RegularGridClass => _ | _ => _ end) as [se|]; [|done].
  cbn [rbind].
  destruct (match BaseGrid.cls other with
            | BaseGrid.RegularGridClass => _ | _ => _ end) as [oe|]; [|done].
  cbn [rbind]. intros [= <-]. eexists. split; [reflexivity|]. cbn.
  split; [apply unique_rows_app_comm|]. split; [lia|].
  split.
  { f_equal. destruct (Z.eqb_spec o1 o2) as [->|Hne]; [by rewrite Z.eqb_refl|].
    destruct (Z.eqb_spec o2 o1); [congruence|done]. }
  split; [unfold BaseGrid.minimum3; do 2 f_equal; [f_equal|]; lia|].
  split; [unfold BaseGrid.maximum3; do 2 f_equal; [f_equal|]; lia|].
  congruence.
Qed.

Lemma join_commutes_witness :
  exists joined',
    BaseGrid.join Samples.instance_first Samples.instance_second = Ok joined' /\
    BaseGrid.inst_locations joined' = BaseGrid.inst_locations Samples.instance_joined /\
    BaseGrid.inst_batch_size joined' = BaseGrid.inst_batch_size Samples.instance_joined /\
    BaseGrid.inst_orientation joined' = BaseGrid.inst_orientation Samples.instance_joined /\
    BaseGrid.inst_origin joined' = BaseGrid.inst_origin Samples.instance_joined /\
    BaseGrid.inst_endpoint joined' = BaseGrid.inst_endpoint Samples.instance_joined /\
    BaseGrid.field_name joined' = BaseGrid.field_name Samples.instance_joined.
Proof.
  apply (join_commutes Samples.instance_second Samples.instance_first).
  vm_compute. reflexivity.
Defined.

(** An [ExtensionGrid] cannot be joined: it has no [orientation], and the
    comparison of the orientations raises [AttributeError] whichever side it
    is on. *)
Theorem join_with_extension_grid_raises (this : BaseGrid.instance) name label g :
  BaseGrid.field_name this = name ->
  (exists msg, BaseGrid.join this (BaseGrid.of_extension name label g)
               = Raise (AttributeError msg)) /\
  (exists msg, BaseGrid.join (BaseGrid.of_extension name label g) this
               = Raise (AttributeError msg)).
Proof.
  intros <-. unfold BaseGrid.join. cbn [BaseGrid.field_name BaseGrid.of_extension].
  rewrite bool_decide_eq_false_2 by (intros E; by apply E).
  cbn [BaseGrid.inst_orientation BaseGrid.getattr rbind]. split.
  - destruct (BaseGrid.inst_orientation this); cbn [BaseGrid.getattr rbind]; by eexists.
  - by eexists.
Qed.

Lemma join_with_extension_grid_raises_witness :
  (exists msg, BaseGrid.join Samples.instance_first
                 (BaseGrid.of_extension "cube" "b" Samples.grid_second)
               = Raise (AttributeError msg)) /\
  (exists msg, BaseGrid.join (BaseGrid.of_extension "cube" "b" Samples.grid_second)
                 Samples.instance_first
               = Raise (AttributeError msg)).
Proof.
  apply (join_with_extension_grid_raises Samples.instance_first "cube" "b" Samples.grid_second).
  reflexivity.
Defined.

End Joining.

(** ** compute_potential: what the potentials count *)

Section PotentialAccounting.

Lemma slice_bound_range len i : 0 <= len -> 0 <= slice_bound len i <= len.
Proof. unfold slice_bound. destruct (Z.ltb_spec i 0); lia. Qed.

(** An [imap] that changes the elements of a range of indices only. *)
Lemma imap_range_eq {A} (g : A -> A) (l : list A) (a b : Z) :
  0 <= a <= Z.of_nat (length l) -> b <= Z.of_nat (length l) ->
  imap (fun j w => if (a <=? Z.of_nat j) && (Z.of_nat j <? b) then g w else w) l
  = take (Z.to_nat a) l ++ (g <$> take (Z.to_nat (b - a)) (drop (Z.to_nat a) l))
      ++ drop (Z.to_nat (Z.max a b)) l.
Proof.
  intros Ha Hb. apply list_eq. intros j. rewrite list_lookup_imap.
  destruct (decide (j < Z.to_nat a)%nat) as [Hj|Hj].
  - rewrite lookup_app_l by (rewrite length_take; lia).
    rewrite lookup_take_lt by done.
    destruct (l !! j); [|done]. simpl.
    destruct (Z.leb_spec a (Z.of_nat j)); [lia|done].
  - rewrite lookup_app_r by (rewrite length_take; lia).
    rewrite length_take_le by lia.
    destruct (decide (j - Z.to_nat a < Z.to_nat (b - a))%nat) as [Hjb|Hjb].
    + rewrite lookup_app_l by (rewrite length_fmap, length_take, length_drop; lia).
      rewrite list_lookup_fmap, lookup_take_lt by lia.
      rewrite lookup_drop. replace (Z.to_nat a + (j - Z.to_nat a))%nat with j by lia.
      destruct (l !! j); [|done]. simpl.
      destruct (Z.leb_spec a (Z.of_nat j)); [|lia].
      destruct (Z.ltb_spec (Z.of_nat j) b); [done|lia].
    + rewrite lookup_app_r by (rewrite length_fmap, length_take, length_drop; lia).
      rewrite length_fmap, length_take, length_drop, lookup_drop.
      replace (Z.to_nat (Z.max a b)
               + (j - Z.to_nat a
                  - Z.to_nat (b - a) `min` (length l - Z.to_nat a)))%nat with j by lia.
      destruct (l !! j); [|done]. simpl.
      destruct (Z.ltb_spec (Z.of_nat j) b); [lia|].
      by rewrite andb_false_r.
Qed.

Lemma range_split {A} (l : list A) (a b : Z) :
  0 <= a ->
  l = take (Z.to_nat a) l ++ take (Z.to_nat (b - a)) (drop (Z.to_nat a) l)
        ++ drop (Z.to_nat (Z.max a b)) l.
Proof.
  intros Ha.
  rewrite <- (take_drop (Z.to_nat a) l) at 1. f_equal.
  rewrite <- (take_drop (Z.to_nat (b - a)) (drop (Z.to_nat a) l)) at 1. f_equal.
  rewrite drop_drop. f_equal. lia.
Qed.

Lemma count_const_true (l : list bool) :
  length (filter (fun b : bool => b = true) ((fun _ : bool => true) <$> l)) = length l.
Proof.
  induction l as [|x l IH]; [done|].
  rewrite fmap_cons, filter_cons_True by done. simpl. by f_equal.
Qed.

Lemma count_fill_row (row : list bool) x0 x1 :
  (length (filter (fun b : bool => b = true)
     (imap (fun j w =>
              if ((slice_bound (Z.of_nat (length row)) x0 <=? Z.of_nat j)
                  && (Z.of_nat j <? slice_bound (Z.of_nat (length row)) x1))%Z
              then true else w) row))
   + length (filter (fun b : bool => b = true) (pyslice row x0 x1))
   = length (filter (fun b : bool => b = true) row) + length (pyslice row x0 x1))%nat.
Proof.
  pose proof (slice_bound_range (Z.of_nat (length row)) x0 ltac:(lia)) as Ha.
  pose proof (slice_bound_range (Z.of_nat (length row)) x1 ltac:(lia)) as Hb.
  unfold pyslice.
  set (a := slice_bound _ x0) in *. set (b := slice_bound _ x1) in *.
  rewrite (imap_range_eq (fun _ => true) row a b) by lia.
  pose proof (range_split row a b (proj1 Ha)) as Hrow.
  set (l1 := take (Z.to_nat a) row) in *.
  set (l2 := take (Z.to_nat (b - a)) (drop (Z.to_nat a) row)) in *.
  set (l3 := drop (Z.to_nat (Z.max a b)) row) in *.
  clearbody l1 l2 l3. rewrite Hrow at 1.
  rewrite !filter_app, !length_app, count_const_true. lia.
Qed.

Lemma count_true_app (m1 m2 : list (list bool)) :
  count_true (m1 ++ m2) = count_true m1 + count_true m2.
Proof. unfold count_true. rewrite concat_app, filter_app, length_app. lia. Qed.

Lemma count_fill_rows (mid : list (list bool)) x0 x1 :
  count_true ((fun row : list bool =>
                 imap (fun j w =>
                         if (slice_bound (Z.of_nat (length row)) x0 <=? Z.of_nat j)
                            && (Z.of_nat j <? slice_bound (Z.of_nat (length row)) x1)
                         then true else w) row) <$> mid)
  + count_true ((fun row : list bool => pyslice row x0 x1) <$> mid)
  = count_true mid + msize ((fun row : list bool => pyslice row x0 x1) <$> mid).
Proof.
  unfold count_true, msize. induction mid as [|row mid IH]; [done|].
  csimpl. rewrite !filter_app, !length_app.
  pose proof (count_fill_row row x0 x1). lia.
Qed.

(** [m[i0:i1, x0:x1] = True] adds to the covered cells the cells of the
    slice that were not covered. *)
Lemma count_true_fill_slice2 (m : list (list bool)) i0 i1 x0 x1 :
  count_true (fill_slice2 m i0 i1 x0 x1 true) + count_true (slice2 m i0 i1 x0 x1)
  = count_true m + msize (slice2 m i0 i1 x0 x1).
Proof.
  pose proof (slice_bound_range (Z.of_nat (length m)) i0 ltac:(lia)) as Ha.
  pose proof (slice_bound_range (Z.of_nat (length m)) i1 ltac:(lia)) as Hb.
  unfold fill_slice2, slice2, pyslice. cbn zeta.
  set (a := slice_bound _ i0) in *. set (b := slice_bound _ i1) in *.
  rewrite (imap_range_eq
             (fun row : list bool =>
                imap (fun j w =>
                        if (slice_bound (Z.of_nat (length row)) x0 <=? Z.of_nat j)
                           && (Z.of_nat j <? slice_bound (Z.of_nat (length row)) x1)
                        then true else w) row) m a b) by lia.
  pose proof (range_split m a b (proj1 Ha)) as Hm.
  set (l1 := take (Z.to_nat a) m) in *.
  set (l2 := take (Z.to_nat (b - a)) (drop (Z.to_nat a) m)) in *.
  set (l3 := drop (Z.to_nat (Z.max a b)) m) in *.
  clearbody l1 l2 l3. rewrite Hm at 1.
  rewrite !count_true_app.
  pose proof (count_fill_rows l2 x0 x1) as Hmid. unfold pyslice in Hmid. lia.
Qed.

Lemma shape_fill_slice2 {A} (m : list (list A)) i0 i1 x0 x1 v :
  length <$> fill_slice2 m i0 i1 x0 x1 v = length <$> m.
Proof.
  unfold fill_slice2. cbn zeta. apply list_eq. intros i.
  rewrite !list_lookup_fmap, list_lookup_imap.
  destruct (m !! i) as [row|]; [|done]. simpl.
  destruct (_ && _); [|done]. by rewrite length_imap.
Qed.

Lemma count_true_le_msize (m : list (list bool)) : 0 <= count_true m <= msize m.
Proof.
  unfold count_true, msize.
  pose proof (length_filter (fun b : bool => b = true) (concat m)). lia.
Qed.

Lemma sum_list_cons x l : sum_list (x :: l) = x + sum_list l.
Proof. reflexivity. Qed.

Lemma compute_potential_loop_accounting locs cov area stride pt upd pr ps cov' :
  area < 2 ^ 31 ->
  compute_potential_loop locs cov area stride pt upd pr = Ok (ps, cov') ->
  Forall (fun p => p = -1 \/ 0 <= p <= area) ps /\
  length <$> cov' = length <$> cov /\
  (upd = false -> cov' = cov) /\
  (upd = true -> count_true cov' = count_true cov + sum_list (Z.max 0 <$> ps)).
Proof.
  intros Harea. revert cov pr ps cov'.
  induction locs as [|row locs IH]; intros cov pr ps cov' H.
  - injection H as <- <-. repeat split; [constructor|simpl; lia].
  - simpl in H.
    destruct (Z.eqb_spec (msize (footprint cov row)) area) as [Hsize|_].
    + match type of H with
      | match ?o with Some _ => _ | None => _ end = _ => destruct o as [pr'|]; [|done]
      end.
      destruct (pt <=? pr').
      * match type of H with
        | rbind ?r _ = _ => destruct r as [[ps' c']|] eqn:E; [|done]
        end.
        cbn [rbind fst snd] in H. injection H as <- <-.
        apply IH in E as (Hall & Hshape & Hno & Hupd).
        pose proof (count_true_le_msize (footprint cov row)) as Hc.
        assert (Hp : int32 (area - count_true (footprint cov row))
                     = area - count_true (footprint cov row))
          by (apply int32_id; unfold fits_int32; lia).
        rewrite Hp. split; [|split; [|split]].
        -- constructor; [right; lia|done].
        -- rewrite Hshape. destruct upd; [apply shape_fill_slice2|done].
        -- intros ->. by apply Hno.
        -- intros ->. rewrite (Hupd eq_refl), fmap_cons, sum_list_cons.
           pose proof (count_true_fill_slice2 cov (default 0 (row !! 1%nat))
                         (default 0 (row !! 4%nat)) (default 0 (row !! 2%nat))
                         (default 0 (row !! 5%nat))) as Hfill.
           unfold footprint in *. clear Hp Hupd IH.
           repeat match goal with
           | H : context [count_true ?m] |- _ =>
               let v := fresh "v" in set (v := count_true m) in *; clearbody v
           | H : context [@msize ?A ?m] |- _ =>
               let v := fresh "v" in set (v := @msize A m) in *; clearbody v
           end.
           generalize (sum_list (Z.max 0 <$> ps')). intros. lia.
      * match type of H with
        | rbind ?r _ = _ => destruct r as [[ps' c']|] eqn:E; [|done]
        end.
        cbn [rbind fst snd] in H. injection H as <- <-.
        apply IH in E as (Hall & Hshape & Hno & Hupd).
        split; [|split; [|split]]; [constructor; [by left|done]|done|done|].
        intros Hu. rewrite (Hupd Hu), fmap_cons, sum_list_cons.
        generalize (sum_list (Z.max 0 <$> ps')). intros. lia.
    + match type of H with
      | rbind ?r _ = _ => destruct r as [[ps' c']|] eqn:E; [|done]
      end.
      cbn [rbind fst snd] in H. injection H as <- <-.
      apply IH in E as (Hall & Hshape & Hno & Hupd).
      split; [|split; [|split]]; [constructor; [by left|done]|done|done|].
      intros Hu. rewrite (Hupd Hu), fmap_cons, sum_list_cons.
        generalize (sum_list (Z.max 0 <$> ps')). intros. lia.
Qed.

Lemma compute_potential_loop_total locs cov area stride pt upd pr :
  Forall (fun row : list Z => row !! 0%nat = Some 0 \/ row !! 0%nat = Some 1) locs ->
  exists ps cov', compute_potential_loop locs cov area stride pt upd pr = Ok (ps, cov').
Proof.
  intros Hor. revert cov pr. induction Hor as [|row locs Hrow Hor IH]; intros cov pr.
  - by exists [], cov.
  - simpl. destruct (msize (footprint cov row) =? area).
    + destruct Hrow as [Hrow|Hrow]; rewrite Hrow; simpl;
        match goal with
        | |- context [if pt <=? ?v then _ else _] => destruct (pt <=? v)
        end;
        match goal with
        | |- context [compute_potential_loop locs ?c area stride pt upd ?q] =>
            destruct (IH c q) as (ps & cov' & ->)
        end;
        cbn [rbind fst snd]; by eexists _, _.
    + destruct (IH cov pr) as (ps & cov' & ->). cbn [rbind fst snd]. by eexists _, _.
Qed.

(** For candidates of orientation 0 or 1, [compute_potential] gives one
    potential for each location, and each is -1 or a number of cells between
    0 and the area of a crop; the coverage matrix keeps its shape, and is
    left as it was when it is not to be updated. *)
Theorem compute_potential_range locs cov shape stride pt upd :
  Forall (fun row : list Z => row !! 0%nat = Some 0 \/ row !! 0%nat = Some 1) locs ->
  shape.1.1 * shape.1.2 < 2 ^ 31 ->
  exists ps cov',
    compute_potential locs cov shape stride pt upd = Ok (ps, cov') /\
    length ps = length locs /\
    Forall (fun p => p = -1 \/ 0 <= p <= shape.1.1 * shape.1.2) ps /\
    length <$> cov' = length <$> cov /\
    (upd = false -> cov' = cov).
Proof.
  unfold compute_potential. intros Hor Harea.
  destruct (compute_potential_loop_total locs cov (shape.1.1 * shape.1.2) stride pt upd
              None Hor) as (ps & cov' & H).
  destruct (compute_potential_loop_accounting _ _ _ _ _ _ _ _ _ Harea H)
    as (Hall & Hshape & Hno & _).
  exists ps, cov'. split; [done|].
  split; [by eapply compute_potential_loop_length|done].
Qed.

Lemma compute_potential_range_witness :
  exists ps cov',
    compute_potential Samples.candidates_c Samples.coverage_c (3, 3, 2) 1 2 true
      = Ok (ps, cov') /\
    length ps = length Samples.candidates_c /\
    Forall (fun p => p = -1 \/ 0 <= p <= 3 * 3) ps /\
    length <$> cov' = length <$> Samples.coverage_c /\
    (true = false -> cov' = Samples.coverage_c).
Proof.
  apply (compute_potential_range Samples.candidates_c Samples.coverage_c (3, 3, 2) 1 2 true).
  - repeat (apply Forall_cons_2; [left; reflexivity|]). apply Forall_nil_2.
  - simpl. lia.
Defined.

(** When the coverage matrix is updated, the potentials account for its
    growth: the number of covered cells after the call is the number before
    it plus the sum of the potentials that are not -1. *)
Theorem compute_potential_accounts_for_coverage locs cov shape stride pt ps cov' :
  Forall (fun row : list Z => row !! 0%nat = Some 0 \/ row !! 0%nat = Some 1) locs ->
  shape.1.1 * shape.1.2 < 2 ^ 31 ->
  compute_potential locs cov shape stride pt true = Ok (ps, cov') ->
  count_true cov' = count_true cov + sum_list (Z.max 0 <$> ps).
Proof.
  unfold compute_potential. intros _ Harea H.
  destruct (compute_potential_loop_accounting _ _ _ _ _ _ _ _ _ Harea H)
    as (_ & _ & _ & Hupd).
  by apply Hupd.
Qed.

Lemma compute_potential_accounts_for_coverage_witness :
  count_true Samples.coverage_full
  = count_true Samples.coverage_c + sum_list (Z.max 0 <$> [7; 0]).
Proof.
  apply (compute_potential_accounts_for_coverage Samples.candidates_c
           Samples.coverage_c (3, 3, 2) 1 2).
  - repeat (apply Forall_cons_2; [left; reflexivity|]). apply Forall_nil_2.
  - simpl. lia.
  - vm_compute. reflexivity.
Defined.

Lemma compute_potential_loop_independent locs cov area stride pt pr :
  Forall (fun row : list Z => row !! 0%nat = Some 0 \/ row !! 0%nat = Some 1) locs ->
  exists ps,
    compute_potential_loop locs cov area stride pt false pr = Ok (ps, cov) /\
    forall k row, locs !! k = Some row ->
      exists p, ps !! k = Some p /\
        compute_potential_loop [row] cov area stride pt false None = Ok ([p], cov).
Proof.
  intros Hor. revert pr. induction Hor as [|row locs Hrow Hor IH]; intros pr.
  - exists []. split; [done|]. intros k row Hk. done.
  - simpl.
    destruct (msize (footprint cov row) =? area) eqn:Hsz.
    + destruct Hrow as [Hrow|Hrow]; rewrite Hrow; simpl;
        match goal with
        | |- context [if pt <=? ?v then _ else _] => destruct (pt <=? v) eqn:Hpt
        end;
        match goal with
        | |- context [compute_potential_loop locs cov area stride pt false ?q] =>
            destruct (IH q) as (ps & -> & Hps)
        end;
        cbn [rbind fst snd]; eexists; (split; [reflexivity|]);
        (intros [|k] row' Hk; simpl in Hk; [|by apply Hps]);
        injection Hk as <-; eexists; (split; [reflexivity|]);
        simpl; rewrite Hsz, Hrow; simpl; rewrite Hpt; reflexivity.
    + destruct (IH pr) as (ps & -> & Hps). cbn [rbind fst snd].
      eexists; split; [reflexivity|].
      intros [|k] row' Hk; simpl in Hk; [|by apply Hps].
      injection Hk as <-. eexists; split; [reflexivity|]. simpl. by rewrite Hsz.
Qed.

(** When the coverage matrix is not updated, as in the modes [best_for_all]
    and [best_for_each_independent], [compute_potential] scores each
    candidate of orientation 0 or 1 on its own: the potential of a location
    is the one it gets when it is the only location. *)
Theorem compute_potential_independent locs cov shape stride pt :
  Forall (fun row : list Z => row !! 0%nat = Some 0 \/ row !! 0%nat = Some 1) locs ->
  exists ps,
    compute_potential locs cov shape stride pt false = Ok (ps, cov) /\
    forall k row, locs !! k = Some row ->
      exists p, ps !! k = Some p /\
        compute_potential [row] cov shape stride pt false = Ok ([p], cov).
Proof. intros Hor. by apply compute_potential_loop_independent. Qed.

Lemma compute_potential_independent_witness :
  exists ps,
    compute_potential Samples.candidates_c Samples.coverage_c (3, 3, 2) 1 2 false
      = Ok (ps, Samples.coverage_c) /\
    forall k row, Samples.candidates_c !! k = Some row ->
      exists p, ps !! k = Some p /\
        compute_potential [row] Samples.coverage_c (3, 3, 2) 1 2 false
        = Ok ([p], Samples.coverage_c).
Proof.
  apply (compute_potential_independent Samples.candidates_c Samples.coverage_c (3, 3, 2) 1 2).
  repeat (apply Forall_cons_2; [left; reflexivity|]). apply Forall_nil_2.
Defined.

(** *** The locations of an ExtensionGrid *)

Lemma select_locations_lengths mode top threshold n depth c2 buffer pots locs ps :
  ExtensionGrid.select_locations mode top threshold n depth c2 buffer pots = Ok (locs, ps) ->
  length locs = length ps.
Proof.
  unfold ExtensionGrid.select_locations.
  destruct (ExtensionGrid.select_indices mode top n pots) as [indices|]; [|done].
  cbn [rbind]. intros [= <- <-]. by rewrite !length_fmap.
Qed.

Lemma candidates_rows limit h cs stride dirs shuffle buffer row :
  ExtensionGrid.candidates limit h cs stride dirs shuffle = Ok buffer ->
  row ∈ buffer ->
  exists d p,
    row = ExtensionGrid.candidate d (Horizon.shape (Horizon.field_of h)).1.1
            (Horizon.shape (Horizon.field_of h)).1.2 cs stride p.
Proof.
  unfold ExtensionGrid.candidates.
  destruct (Horizon.shape _) as [[n0 n1] n2].
  destruct (Horizon.binary_matrix limit h) as [bm|]; [|done]. cbn [rbind].
  destruct (Horizon.matrix_array limit bm.2) as [m|]; [|done]. cbn [rbind].
  destruct (Horizon.i_min m.2), (Horizon.x_min m.2); try done.
  destruct (foldr _ _ _) as [points|]; [|done]. cbn [rbind].
  intros [= <-] Hin.
  apply list_elem_of_bind in Hin as (p & Hin & _).
  apply list_elem_of_fmap in Hin as (d & -> & _).
  by exists d, p.
Qed.

Lemma finish_row_candidate depth d n0 n1 cs stride p :
  exists o i0 x0 hgt,
    (o = 0 \/ o = 1) /\
    ExtensionGrid.finish_row depth cs.2 (ExtensionGrid.candidate d n0 n1 cs stride p)
    = [-1; -1; o; i0; x0; clip hgt 0 (depth - cs.2);
       int32 (i0 + (if o =? 0 then cs.1.1 else cs.1.2));
       int32 (x0 + (if o =? 0 then cs.1.2 else cs.1.1));
       clip (int32 (hgt + cs.2)) cs.2 depth].
Proof.
  unfold ExtensionGrid.candidate. destruct cs as [[c0 c1] c2], p as [[i x] hgt].
  repeat case_bool_decide; eexists _, _, _, _;
    first [split; [left; reflexivity|reflexivity]
          |split; [right; reflexivity|reflexivity]].
Qed.

(** The parts of a build of an [ExtensionGrid]. *)
Lemma extension_grid_build limit h cs stride bs top threshold pt randomize mode permutation g :
  ExtensionGrid.init limit h cs stride bs top threshold pt randomize mode permutation = Ok g ->
  exists directions shuffle buffer cov0 pots cov_end upd,
    ExtensionGrid.candidates limit h cs stride directions shuffle = Ok buffer /\
    compute_potential buffer cov0 cs stride pt upd = Ok (pots, cov_end) /\
    ExtensionGrid.select_locations mode top threshold (length directions)
      (Horizon.shape (Horizon.field_of h)).2 cs.2 buffer pots
    = Ok (locations g, potential g).
Proof.
  intros Hinit. unfold ExtensionGrid.init in Hinit.
  destruct (ExtensionGrid.directions_of mode) as [directions|]; [|done].
  cbn [rbind] in Hinit.
  destruct (ExtensionGrid._make_locations _ _ _ _ _ _ _ _ _ _ _) as [[locs ps]|] eqn:Hmake;
    [|done].
  cbn [rbind] in Hinit. injection Hinit as <-. cbn [locations potential fst snd].
  unfold ExtensionGrid._make_locations in Hmake.
  destruct (Horizon.full_matrix limit h) as [fm|]; [|done]. cbn [rbind] in Hmake.
  destruct (ExtensionGrid.initial_coverage _ _) as [cov0|]; [|done].
  cbn [rbind] in Hmake.
  destruct (ExtensionGrid.candidates _ _ _ _ _ _) as [buffer|] eqn:Hbuf; [|done].
  cbn [rbind] in Hmake.
  destruct (compute_potential _ _ _ _ _ _) as [[pots cov_end]|] eqn:Hpot; [|done].
  cbn [rbind fst snd] in Hmake.
  by eexists directions, _, buffer, cov0, pots, cov_end, _.
Qed.

(** An [ExtensionGrid] keeps one potential for each of its locations; each
    is above the threshold, and is -1 or a number of cells between 0 and the
    area of a crop. *)
Theorem extension_grid_potentials_in_range
    limit h cs stride bs top threshold pt randomize mode permutation g :
  cs.1.1 * cs.1.2 < 2 ^ 31 ->
  ExtensionGrid.init limit h cs stride bs top threshold pt randomize mode permutation = Ok g ->
  length (locations g) = length (potential g) /\
  Forall (fun p => threshold < p /\ (p = -1 \/ 0 <= p <= cs.1.1 * cs.1.2)) (potential g).
Proof.
  intros Harea Hinit.
  destruct (extension_grid_build _ _ _ _ _ _ _ _ _ _ _ _ Hinit)
    as (directions & shuffle & buffer & cov0 & pots & cov_end & upd & Hbuf & Hpot & Hsel).
  pose proof (select_locations_lengths _ _ _ _ _ _ _ _ _ _ Hsel) as Hlen.
  split; [done|]. apply Forall_forall. intros p Hp.
  apply list_elem_of_lookup in Hp as [j Hj].
  destruct (lookup_lt_is_Some_2 (locations g) j) as [loc Hloc].
  { rewrite Hlen. by eapply lookup_lt_Some. }
  unfold compute_potential in Hpot.
  pose proof (compute_potential_loop_length _ _ _ _ _ _ _ _ _ Hpot) as Hl.
  destruct (select_locations_origin _ _ _ _ _ _ _ _ _ _ _ _ _ (eq_sym Hl) Hsel Hloc Hj)
    as (Hgt & k & row & _ & Hk & _).
  destruct (compute_potential_loop_accounting _ _ _ _ _ _ _ _ _ Harea Hpot) as (Hall & _).
  pose proof (proj1 (Forall_forall _ _) Hall p (list_elem_of_lookup_2 _ _ _ Hk)) as Hr.
  simpl in Hr. lia.
Qed.

Lemma extension_grid_potentials_in_range_witness :
  length (locations Samples.grid_c) = length (potential Samples.grid_c) /\
  Forall (fun p => 4 < p /\ (p = -1 \/ 0 <= p <= 3 * 3)) (potential Samples.grid_c).
Proof.
  apply (extension_grid_potentials_in_range Samples.recursion_limit Samples.surface_c
           (3, 3, 2) 1 64 1 4 2 false "up" [0%nat] Samples.grid_c).
  - simpl. lia.
  - vm_compute. reflexivity.
Defined.

(** Every location of an [ExtensionGrid] is a row
    [(-1, -1, orientation, i_start, x_start, h_start, i_stop, x_stop, h_stop)]
    of orientation 0 or 1 whose footprint has the extents of the crop,
    swapped for the orientation 1; its heights are those of a boundary point
    clipped into the volume, so that when the crop is not higher than the
    volume the location lies between 0 and the depth of the volume. *)
Theorem extension_grid_locations_shape
    limit h cs stride bs top threshold pt randomize mode permutation g loc :
  ExtensionGrid.init limit h cs stride bs top threshold pt randomize mode permutation = Ok g ->
  loc ∈ locations g ->
  exists o i0 x0 hgt h_start h_stop,
    loc = [-1; -1; o; i0; x0; h_start;
           int32 (i0 + (if o =? 0 then cs.1.1 else cs.1.2));
           int32 (x0 + (if o =? 0 then cs.1.2 else cs.1.1)); h_stop] /\
    (o = 0 \/ o = 1) /\
    h_start = clip hgt 0 ((Horizon.shape (Horizon.field_of h)).2 - cs.2) /\
    h_stop = clip (int32 (hgt + cs.2)) cs.2 (Horizon.shape (Horizon.field_of h)).2 /\
    (0 <= cs.2 <= (Horizon.shape (Horizon.field_of h)).2 ->
     0 <= h_start <= (Horizon.shape (Horizon.field_of h)).2 - cs.2 /\
     cs.2 <= h_stop <= (Horizon.shape (Horizon.field_of h)).2).
Proof.
  intros Hinit Hin.
  destruct (extension_grid_build _ _ _ _ _ _ _ _ _ _ _ _ Hinit)
    as (directions & shuffle & buffer & cov0 & pots & cov_end & upd & Hbuf & Hpot & Hsel).
  pose proof (select_locations_lengths _ _ _ _ _ _ _ _ _ _ Hsel) as Hlen.
  apply list_elem_of_lookup in Hin as [j Hloc].
  destruct (lookup_lt_is_Some_2 (potential g) j) as [p Hp].
  { rewrite <- Hlen. by eapply lookup_lt_Some. }
  unfold compute_potential in Hpot.
  pose proof (compute_potential_loop_length _ _ _ _ _ _ _ _ _ Hpot) as Hl.
  destruct (select_locations_origin _ _ _ _ _ _ _ _ _ _ _ _ _ (eq_sym Hl) Hsel Hloc Hp)
    as (_ & k & row & Hrow & _ & ->).
  destruct (candidates_rows _ _ _ _ _ _ _ _ Hbuf (list_elem_of_lookup_2 _ _ _ Hrow))
    as (d & q & ->).
  destruct (finish_row_candidate (Horizon.shape (Horizon.field_of h)).2 d
              (Horizon.shape (Horizon.field_of h)).1.1
              (Horizon.shape (Horizon.field_of h)).1.2 cs stride q)
    as (o & i0 & x0 & hgt & Ho & ->).
  eexists o, i0, x0, hgt, _, _. split; [reflexivity|]. split; [done|].
  split; [done|]. split; [done|]. unfold clip. lia.
Qed.

Lemma extension_grid_locations_shape_witness :
  exists o i0 x0 hgt h_start h_stop,
    [-1; -1; 0; 0; 0; 4; 3; 3; 6]
    = [-1; -1; o; i0; x0; h_start;
       int32 (i0 + (if o =? 0 then 3 else 3));
       int32 (x0 + (if o =? 0 then 3 else 3)); h_stop] /\
    (o = 0 \/ o = 1) /\
    h_start = clip hgt 0 (10 - 2) /\
    h_stop = clip (int32 (hgt + 2)) 2 10 /\
    (0 <= 2 <= 10 -> 0 <= h_start <= 10 - 2 /\ 2 <= h_stop <= 10).
Proof.
  apply (extension_grid_locations_shape Samples.recursion_limit Samples.surface_c
           (3, 3, 2) 1 64 1 4 2 false "up" [0%nat] Samples.grid_c).
  - vm_compute. reflexivity.
  - apply list_elem_of_In. simpl. tauto.
Defined.

End PotentialAccounting.
